(** * Mind-mate: the memory-extraction flow and the Node /chat guard

    A shallow embedding of the code this repository ships for its
    memory-extraction core, and of the Node backend's /chat handler:

    - [Supabase]: the two tables the flow touches and the query builder
      calls the code chains ([eq], [order], [limit], [update], [insert]),
      with a small state-and-exception monad for requests that can raise;
    - [MemoryArchitecture]: [_get_llm_response] and
      [extract_all_memories_parallel] (src/CODE_SNIPPETS.md, File 1);
    - [CodeSnippets]: workflow.py and main.py as given in
      src/CODE_SNIPPETS.md (Files 2 and 3);
    - [ExecutionSummary]: workflow.py and main.py as given in the
      implementation summary (src/unnamed/part_002, Tasks 3 to 8);
    - [Threads]: background extraction runs interleaved at the granularity
      of their requests to the chat_messages table;
    - [NodeBackend]: app.post("/chat") of
      src/r3f-virtual-girlfriend-backend/index.js;
    - [NodeTranscribe]: the audio files and app.post("/transcribe-and-chat")
      of the same file.

    The definitions come first, then the vocabulary of the statements and
    the sample data, then the properties. The two versions of workflow.py
    and main.py differ (window of 20 or of 15, one memories row per run or
    per memory, errors raised or logged), so each is embedded on its own
    and the properties say which version they are about. *)

From stdpp Require Import base decidable option list sorting strings pretty gmap.

(** ** Python results: a call returns or raises *)

Inductive exn : Type :=
| Exception (msg : string)
| ValueError (msg : string)
| JSONDecodeError (msg : string)
| TimeoutError (msg : string).

Inductive result (A : Type) : Type :=
| Ok (a : A)
| Raise (e : exn).
Arguments Ok {A} a.
Arguments Raise {A} e.

(** ** Supabase: tables, query builder, requests that may raise *)

Module Supabase.

(** uuids and timestamps are only compared, so integers stand for both. *)
Definition uuid : Type := Z.
Definition timestamp : Type := Z.

(** A row of chat_messages: the columns the code reads, and the two columns
    the migration adds (processed_into_memory DEFAULT false,
    memory_processed_at). *)
Record chat_message : Type := ChatMessage {
  id : uuid;
  session_id : string;
  role : string;
  content : string;
  created_at : timestamp;
  processed_into_memory : bool;
  memory_processed_at : option timestamp
}.

#[global] Instance chat_message_eq_dec : EqDecision chat_message.
Proof. solve_decision. Defined.

(** A row of user_activities, as far as the flow filters on it. *)
Record activity : Type := Activity {
  activity_user_id : string;
  activity_session_id : string;
  activity_data : string
}.

(** The state a request runs against. [R] is the row type of the memories
    table (the two versions of workflow.py insert rows of different shapes).
    [faults] schedules the outcome of the coming requests: the n-th
    [execute] raises when the n-th flag is true, and succeeds when it is
    false or the schedule has run out. [clock] is what datetime.now()
    returns. *)
Record world (R : Type) : Type := World {
  chat_messages : list chat_message;
  memories : list R;
  user_activities : list activity;
  faults : list bool;
  clock : timestamp
}.
Arguments World {R} _ _ _ _ _.
Arguments chat_messages {R} _.
Arguments memories {R} _.
Arguments user_activities {R} _.
Arguments faults {R} _.
Arguments clock {R} _.

Definition set_chat_messages {R} (ms : list chat_message) (w : world R) : world R :=
  World ms (memories w) (user_activities w) (faults w) (clock w).
Definition set_memories {R} (rs : list R) (w : world R) : world R :=
  World (chat_messages w) rs (user_activities w) (faults w) (clock w).
Definition set_faults {R} (fs : list bool) (w : world R) : world R :=
  World (chat_messages w) (memories w) (user_activities w) fs (clock w).

(** Computations over the world that return or raise. *)
Definition M (R A : Type) : Type := world R → result A * world R.

Definition ret {R A} (a : A) : M R A := λ w, (Ok a, w).
Definition raise {R A} (e : exn) : M R A := λ w, (Raise e, w).
Definition bind {R A B} (m : M R A) (k : A → M R B) : M R B := λ w,
  match m w with
  | (Ok a, w') => k a w'
  | (Raise e, w') => (Raise e, w')
  end.
(** try: m except Exception as e: h e *)
Definition try_except {R A} (m : M R A) (h : exn → M R A) : M R A := λ w,
  match m w with
  | (Ok a, w') => (Ok a, w')
  | (Raise e, w') => h e w'
  end.
(** for x in xs: body x *)
Fixpoint for_each {R A} (xs : list A) (body : A → M R unit) : M R unit :=
  match xs with
  | [] => ret ()
  | x :: xs' => bind (body x) (λ _, for_each xs' body)
  end.

(** A call that returns or raises without touching the tables. *)
Definition lift {R A} (r : result A) : M R A := λ w, (r, w).

(** .execute(): the request [q] is sent; the schedule decides whether it
    raises (the tables are then left as they were). *)
Definition execute {R A} (q : world R → A * world R) : M R A := λ w,
  match faults w with
  | true :: fs => (Raise (Exception "request failed"), set_faults fs w)
  | false :: fs => let '(a, w') := q (set_faults fs w) in (Ok a, w')
  | [] => let '(a, w') := q w in (Ok a, w')
  end.

(** The filters and modifiers of the query builder, on the rows of
    chat_messages. *)
Definition eq_session_id (sid : string) (rows : list chat_message) : list chat_message :=
  filter (λ m, session_id m = sid) rows.
Definition eq_processed_into_memory (b : bool) (rows : list chat_message) : list chat_message :=
  filter (λ m, processed_into_memory m = b) rows.
Definition created_le (a b : chat_message) : Prop := (created_at a ≤ created_at b)%Z.
Definition created_ge (a b : chat_message) : Prop := (created_at b ≤ created_at a)%Z.
#[global] Instance created_le_dec : RelDecision created_le.
Proof. intros a b. unfold created_le. apply _. Defined.
#[global] Instance created_ge_dec : RelDecision created_ge.
Proof. intros a b. unfold created_ge. apply _. Defined.
(** .order('created_at', desc=...) *)
Definition order_created_at (desc : bool) (rows : list chat_message) : list chat_message :=
  if desc then merge_sort created_ge rows else merge_sort created_le rows.
(** .limit(n) *)
Definition limit {A} (n : nat) (rows : list A) : list A := take n rows.

(** .update({"processed_into_memory": True, "memory_processed_at": at}) on
    one row; [at] is None when the update does not name the column. *)
Definition mark_processed (at_ : option timestamp) (m : chat_message) : chat_message :=
  ChatMessage (id m) (session_id m) (role m) (content m) (created_at m) true
    (match at_ with Some t => Some t | None => memory_processed_at m end).
(** ... .eq('id', i) *)
Definition update_eq_id (at_ : option timestamp) (i : uuid) (rows : list chat_message)
  : list chat_message :=
  (λ m, if decide (id m = i) then mark_processed at_ m else m) <$> rows.
(** ... .in_('id', ids) *)
Definition update_in_id (at_ : option timestamp) (ids : list uuid) (rows : list chat_message)
  : list chat_message :=
  (λ m, if decide (id m ∈ ids) then mark_processed at_ m else m) <$> rows.

(** supabase.table('chat_messages').select(q).execute() and
    supabase.table('memories').select(q).execute() *)
Definition select_chat_messages {R A} (q : list chat_message → A) : M R A :=
  execute (λ w, (q (chat_messages w), w)).
Definition select_memories {R A} (q : list R → A) : M R A :=
  execute (λ w, (q (memories w), w)).
Definition select_user_activities {R A} (q : list activity → A) : M R A :=
  execute (λ w, (q (user_activities w), w)).
(** supabase.table('chat_messages').update(...)...execute() *)
Definition update_chat_messages {R} (u : list chat_message → list chat_message) : M R unit :=
  execute (λ w, ((), set_chat_messages (u (chat_messages w)) w)).
(** supabase.table('memories').insert(row).execute() *)
Definition insert_memory {R} (row : R) : M R unit :=
  execute (λ w, ((), set_memories (memories w ++ [row]) w)).
(** datetime.now() *)
Definition now {R} : M R timestamp := λ w, (Ok (clock w), w).

End Supabase.

Declare Scope py_scope.
Delimit Scope py_scope with py.
Notation "x <- m ;; k" := (Supabase.bind m (λ x, k))
  (at level 100, m at next level, right associativity) : py_scope.
Notation "m ;;; k" := (Supabase.bind m (λ _, k))
  (at level 100, right associativity) : py_scope.

(** ** memory_architecture.py (src/CODE_SNIPPETS.md, File 1) *)

Module MemoryArchitecture.

(** One extracted memory: a JSON object, kept as its fields. *)
Inductive memory_item : Type := MemoryItem (fields : list (string * string)).

(** What self.model.generate_content(prompt) hands back, as the code tells
    the cases apart: a falsy response, one with a text attribute, one with
    only a content attribute, anything else. *)
Inductive llm_response : Type :=
| NoResponse
| WithText (text : string)
| WithContent (content : string)
| Unexpected.

(** What json.loads returns, as isinstance(parsed_response, list) sees it. *)
Inductive parsed : Type :=
| ParsedList (items : list memory_item)
| ParsedOther.

(** What one call of [_get_llm_response] does to the outside: calls of the
    model and time.sleep. *)
Inductive event : Type :=
| Generate (attempt : nat)
| Sleep (seconds : Z).

(** How an iteration of the retry loop ends when it does not raise. *)
Inductive flow : Type :=
| Return (items : list memory_item)
| Continue.

Section llm.

(** The model and the library functions the method calls. The model's
    answer may change from one attempt to the next. json_loads is None on
    a JSONDecodeError. *)
Variable generate_content : string → nat → result llm_response.
Variable strip : string → string.
Variable re_search_array : string → option string.
Variable re_sub_fences : string → string.
Variable json_loads : string → option parsed.

(** if attempt < max_retries - 1: time.sleep(2 ** attempt); continue
    and otherwise what follows the if. *)
Definition sleep_and_continue_or (attempt : nat) (max_retries : Z)
    (otherwise : result flow) : result flow * list event :=
  if bool_decide (Z.of_nat attempt < max_retries - 1)%Z
  then (Ok Continue, [Sleep (2 ^ Z.of_nat attempt)%Z])
  else (otherwise, []).

(** json_match = re.search(r'\[.*\]', response_text, re.DOTALL) and the two
    branches under it. *)
Definition json_text (response_text : string) : string :=
  match re_search_array response_text with
  | Some json_match => json_match
  | None => strip (re_sub_fences response_text)
  end.

(** From the stripped response text to the end of the try block. *)
Definition parse_response (attempt : nat) (max_retries : Z) (response_text : string)
    : result flow * list event :=
  match json_loads (json_text response_text) with
  | None => (Raise (JSONDecodeError "json.loads"), [])
  | Some (ParsedList items) => (Ok (Return items), [])
  | Some ParsedOther => sleep_and_continue_or attempt max_retries (Ok (Return []))
  end.

(** The body of the try block. *)
Definition try_body (prompt : string) (attempt : nat) (max_retries : Z)
    : result flow * list event :=
  match generate_content prompt attempt with
  | Raise e => (Raise e, [Generate attempt])
  | Ok response =>
    let '(r, evs) :=
      match response with
      | NoResponse =>
        sleep_and_continue_or attempt max_retries
          (Raise (ValueError "LLM returned None after all retries"))
      | WithText text => parse_response attempt max_retries (strip text)
      | WithContent content => parse_response attempt max_retries (strip content)
      | Unexpected =>
        sleep_and_continue_or attempt max_retries
          (Raise (ValueError "Unexpected LLM response structure"))
      end in
    (r, Generate attempt :: evs)
  end.

(** The two except clauses: on the last attempt raise ValueError, otherwise
    sleep and fall through to the next iteration. *)
Definition except_clause (attempt : nat) (max_retries : Z) (msg : string)
    (evs : list event) : result flow * list event :=
  if bool_decide (Z.of_nat attempt = max_retries - 1)%Z
  then (Raise (ValueError msg), evs)
  else (Ok Continue, evs ++ [Sleep (2 ^ Z.of_nat attempt)%Z]).

(** One iteration: try ... except json.JSONDecodeError ... except Exception. *)
Definition iteration (prompt : string) (attempt : nat) (max_retries : Z)
    : result flow * list event :=
  match try_body prompt attempt max_retries with
  | (Ok f, evs) => (Ok f, evs)
  | (Raise (JSONDecodeError _), evs) =>
    except_clause attempt max_retries "Failed to parse LLM JSON response" evs
  | (Raise _, evs) =>
    except_clause attempt max_retries "Failed to get LLM response" evs
  end.

(** for attempt in range(max_retries): ... and the raise after the loop. *)
Fixpoint retry_loop (prompt : string) (attempts : list nat) (max_retries : Z)
    : result (list memory_item) * list event :=
  match attempts with
  | [] => (Raise (ValueError "Failed to get valid LLM response"), [])
  | attempt :: rest =>
    match iteration prompt attempt max_retries with
    | (Ok (Return items), evs) => (Ok items, evs)
    | (Ok Continue, evs) =>
      let '(r, evs') := retry_loop prompt rest max_retries in (r, evs ++ evs')
    | (Raise e, evs) => (Raise e, evs)
    end
  end.

Definition default_max_retries : Z := 3.

Definition _get_llm_response (prompt : string) (max_retries : Z)
    : result (list memory_item) * list event :=
  retry_loop prompt (seq 0 (Z.to_nat max_retries)) max_retries.

End llm.

(** *** extract_all_memories_parallel *)

Inductive memory_type : Type := Procedural | Semantic | Episodic.

#[global] Instance memory_type_eq_dec : EqDecision memory_type.
Proof. solve_decision. Defined.

(** The dictionary the method reads: the keys it looks up. *)
Record chat_entry : Type := ChatEntry {
  entry_id : option Z;
  role : string;
  content : string;
  timestamp : Z
}.

Record input_dict : Type := InputDict {
  data_type : option string;
  user_id : option string;
  session_id : option string;
  chat_history : list chat_entry;
  activities : list string
}.

Inductive input_data : Type :=
| InputStr (s : string)
| InputObj (d : input_dict)
| InputOther.

Record summary_dict : Type := MemorySummary {
  total_procedural : nat;
  total_semantic : nat;
  total_episodic : nat;
  total_memories : nat
}.

Record memories_dict : Type := Memories {
  procedural : list memory_item;
  semantic : list memory_item;
  episodic : list memory_item
}.

Record metadata_dict : Type := Metadata {
  input_data_type : string;
  processing_model : string;
  version : string;
  extraction_method : string
}.

Record output : Type := Output {
  out_data_type : string;
  out_user_id : string;
  out_session_id : string;
  processed_at : string;
  memory_summary : summary_dict;
  memories : memories_dict;
  metadata : metadata_dict
}.

(** ThreadPoolExecutor(max_workers=n): a submitted task gets a worker
    thread of its own as long as fewer than [max_workers] threads exist;
    the tasks submitted after that wait in the queue, in the order they
    were submitted, for the first worker that becomes free. *)
Record executor : Type := Executor {
  max_workers : nat;
  submitted : list memory_type
}.
Definition submit (t : memory_type) (ex : executor) : executor :=
  Executor (max_workers ex) (submitted ex ++ [t]).
Definition running (ex : executor) : list memory_type :=
  take (max_workers ex) (submitted ex).
Definition waiting (ex : executor) : list memory_type :=
  drop (max_workers ex) (submitted ex).

(** A future: the call it runs, and the second, counted from the submits,
    at which the call is done. *)
Record future : Type := Future {
  task : memory_type;
  done_at : nat
}.

Section extract.

Variable json_loads_input : string → option input_data.
Variable detect_data_type : input_dict → string.
Variable data_handlers : gmap string (input_dict → string).
Variable _handle_general_data : input_dict → string.
Variable extract_procedural_memory : string → string → result (list memory_item).
Variable extract_semantic_memory : string → string → result (list memory_item).
Variable extract_episodic_memory : string → string → result (list memory_item).
(** datetime.now() rendered for the default session id and for processed_at. *)
Variable session_stamp : string.
Variable utc_now : string.
(** The seconds each of the three calls takes once a worker runs it. *)
Variable duration : memory_type → nat.

(** The queue: each waiting task goes to the worker that is free first.
    [free] holds the seconds at which the workers become free. *)
Fixpoint queued (free : list nat) (tasks : list memory_type) : list future :=
  match tasks with
  | [] => []
  | t :: rest =>
    match merge_sort (≤) free with
    | [] => []
    | start :: others =>
      Future t (start + duration t) :: queued ((start + duration t) :: others) rest
    end
  end.

(** The futures of an executor, in the order of the submits: the tasks
    that got a thread at once are done after their own duration. *)
Definition futures (ex : executor) : list future :=
  ((λ t, Future t (duration t)) <$> running ex)
  ++ queued (duration <$> running ex) (waiting ex).

Definition done_before (a b : future) : Prop := done_at a ≤ done_at b.
#[local] Instance done_before_dec : RelDecision done_before.
Proof. intros a b. unfold done_before. apply _. Defined.

(** The three submits that build future_to_type. *)
Definition future_to_type : executor :=
  submit Episodic (submit Semantic (submit Procedural (Executor 3 []))).

(** The message of the TimeoutError of concurrent.futures. *)
Definition unfinished (pending total : nat) : string :=
  pretty pending +:+ " (of " +:+ pretty total +:+ ") futures unfinished".

(** as_completed(fs, timeout=seconds), called right after the submits: an
    iterator that yields the futures done within the timeout, in the order
    in which they are done, and that raises TimeoutError when it is asked
    for the next future while some are still not done. The pair is what it
    yields and what it raises at its end, if anything. The time the loop
    body takes is not counted. *)
Definition as_completed (ex : executor) (seconds : nat) : list memory_type * option exn :=
  let fs := merge_sort done_before (futures ex) in
  let pending := filter (λ f, seconds < done_at f) fs in
  (task <$> filter (λ f, done_at f ≤ seconds) fs,
   match pending with
   | [] => None
   | _ :: _ => Some (TimeoutError (unfinished (length pending) (length fs)))
   end).

(** future.result() *)
Definition future_result (formatted_data dt : string) (t : memory_type)
    : result (list memory_item) :=
  match t with
  | Procedural => extract_procedural_memory formatted_data dt
  | Semantic => extract_semantic_memory formatted_data dt
  | Episodic => extract_episodic_memory formatted_data dt
  end.

(** The if/elif chain that stores a result under its type. *)
Definition store (t : memory_type) (r : list memory_item) (acc : memories_dict) : memories_dict :=
  match t with
  | Procedural => Memories r (semantic acc) (episodic acc)
  | Semantic => Memories (procedural acc) r (episodic acc)
  | Episodic => Memories (procedural acc) (semantic acc) r
  end.

(** for future in as_completed(future_to_type, timeout=120): ... ; an
    exception of a future is logged and raised again by the inner try; the
    TimeoutError of the iterator is raised by the for statement, outside
    that try. *)
Fixpoint collect (formatted_data dt : string) (yielded : list memory_type)
    (at_end : option exn) (acc : memories_dict) : result memories_dict :=
  match yielded with
  | [] =>
    match at_end with
    | None => Ok acc
    | Some e => Raise e
    end
  | t :: rest =>
    match future_result formatted_data dt t with
    | Ok r => collect formatted_data dt rest at_end (store t r acc)
    | Raise e => Raise e
    end
  end.

Definition extract_all_memories_parallel (input : input_data) : result output :=
  let parsed_input :=
    match input with
    | InputStr s =>
      match json_loads_input s with
      | Some d => Ok d
      | None => Raise (ValueError "Invalid JSON string provided")
      end
    | other => Ok other
    end in
  match parsed_input with
  | Raise e => Raise e
  | Ok (InputObj d) =>
    let dt := default (detect_data_type d) (data_type d) in
    let formatted_data :=
      match data_handlers !! dt with
      | Some handler => handler d
      | None => _handle_general_data d
      end in
    let completed := as_completed future_to_type 120 in
    match collect formatted_data dt completed.1 completed.2 (Memories [] [] []) with
    | Raise e => Raise e
    | Ok m =>
      Ok (Output dt
            (default "unknown" (user_id d))
            (default ("session_" +:+ session_stamp) (session_id d))
            utc_now
            (MemorySummary
               (length (procedural m)) (length (semantic m)) (length (episodic m))
               (length (procedural m) + length (semantic m) + length (episodic m)))
            (Memories (procedural m) (semantic m) (episodic m))
            (Metadata dt "gemini-1.5-flash" "2.0" "parallel_threading"))
    end
  | Ok _ => Raise (ValueError "Input must be a dictionary or valid JSON string")
  end.

End extract.

End MemoryArchitecture.

(** ** workflow.py and main.py as given in src/CODE_SNIPPETS.md *)

Module CodeSnippets.

Module S := Supabase.
Module MA := MemoryArchitecture.
Local Open Scope py_scope.

(** A row of the memories table of the migration
    (supabase/migrations/20251101000000_add_memories_table.sql), as
    [trigger_memory_extraction] inserts it. *)
Record memory_row : Type := MemoryRow {
  user_id : string;
  session_id : string;
  data_type : string;
  procedural_memories : list MA.memory_item;
  semantic_memories : list MA.memory_item;
  episodic_memories : list MA.memory_item;
  memory_summary : MA.summary_dict;
  source_message_ids : list S.uuid;
  metadata : MA.metadata_dict
}.

(** What the methods read of self and of the environment: whether
    SUPABASE_URL and SUPABASE_SERVICE_KEY are set, and the memory system
    (None when its initialisation failed). *)
Record workflow : Type := Workflow {
  supabase_credentials : bool;
  memory_system : option (MA.input_data → result MA.output)
}.

Record session_memories : Type := SessionMemories {
  procedural : list MA.memory_item;
  semantic : list MA.memory_item;
  episodic : list MA.memory_item
}.

Definition no_memories : session_memories := SessionMemories [] [] [].

Definition fetch_session_memories (self : workflow) (uid sid : string)
    : S.M memory_row session_memories :=
  S.try_except
    (if negb (supabase_credentials self) then S.ret no_memories
     else
       data <- S.select_memories (λ rows, filter (λ r, session_id r = sid) rows) ;;
       match last data with
       | Some latest_memory =>
         S.ret (SessionMemories (procedural_memories latest_memory)
                  (semantic_memories latest_memory) (episodic_memories latest_memory))
       | None => S.ret no_memories
       end)
    (λ _, S.ret no_memories).

Definition default_limit : nat := 15.

Definition fetch_last_n_messages (self : workflow) (sid : string) (limit : nat)
    : S.M memory_row (list S.chat_message) :=
  S.try_except
    (if negb (supabase_credentials self) then S.ret []
     else
       S.select_chat_messages
         (λ rows, S.limit limit (S.order_created_at false (S.eq_session_id sid rows))))
    (λ _, S.ret []).

(** The state dictionary main.py passes to the background task. *)
Record state_for_memory : Type := StateForMemory {
  state_user_id : string;
  state_session_id : string;
  message_count : Z
}.

(** The query of [trigger_memory_extraction]. *)
Definition unprocessed_query (sid : string) (rows : list S.chat_message)
    : list S.chat_message :=
  S.limit 20 (S.order_created_at false
    (S.eq_processed_into_memory false (S.eq_session_id sid rows))).

Definition to_chat_history (msg : S.chat_message) : MA.chat_entry :=
  MA.ChatEntry None (S.role msg) (S.content msg) (S.created_at msg).

(** The update the loop over message_ids sends for one id. *)
Definition mark_message (msg_id : S.uuid) : S.M memory_row unit :=
  t <- S.now ;;
  S.update_chat_messages (S.update_eq_id (Some t) msg_id).

Definition trigger_memory_extraction (self : workflow) (state : state_for_memory)
    : S.M memory_row unit :=
  S.try_except
    (let uid := state_user_id state in
     let sid := state_session_id state in
     if negb (supabase_credentials self) then S.ret ()
     else
       messages <- S.select_chat_messages (unprocessed_query sid) ;;
       match messages with
       | [] => S.ret ()
       | _ =>
         let chat_history := to_chat_history <$> messages in
         let message_ids := S.id <$> messages in
         activities <- S.select_user_activities
           (λ rows, filter (λ a, S.activity_user_id a = uid ∧ S.activity_session_id a = sid) rows) ;;
         let memory_input :=
           MA.InputObj (MA.InputDict (Some "chat") (Some uid) (Some sid) chat_history
                          (S.activity_data <$> activities)) in
         match memory_system self with
         | Some extract_all_memories_parallel =>
           memories_output <- S.lift (extract_all_memories_parallel memory_input) ;;
           let insert_data :=
             MemoryRow uid sid "chat"
               (MA.procedural (MA.memories memories_output))
               (MA.semantic (MA.memories memories_output))
               (MA.episodic (MA.memories memories_output))
               (MA.memory_summary memories_output)
               message_ids
               (MA.metadata memories_output) in
           S.insert_memory insert_data ;;;
           S.for_each message_ids mark_message
         | None => S.ret ()
         end
       end)
    (λ e, S.raise e).

(** main.py *)

Definition get_session_message_count (self : workflow) (sid : string)
    : S.M memory_row Z :=
  S.try_except
    (if negb (supabase_credentials self) then S.ret 0%Z
     else
       S.select_chat_messages
         (λ rows, Z.of_nat (length (S.eq_session_id sid rows))))
    (λ _, S.ret 0%Z).

Record chat_request : Type := ChatRequest {
  request_user_id : string;
  request_session_id : string
}.

(** The block added to the /chat endpoint after the messages are saved. It
    returns the arguments of the background thread it starts, or None when
    it starts none. *)
Definition chat_memory_trigger (self : workflow) (request : chat_request)
    : S.M memory_row (option state_for_memory) :=
  new_message_count <- get_session_message_count self (request_session_id request) ;;
  if bool_decide (new_message_count > 0)%Z && bool_decide (new_message_count `mod` 20 = 0)%Z
  then S.ret (Some (StateForMemory (request_user_id request) (request_session_id request)
                      new_message_count))
  else S.ret None.

End CodeSnippets.

(** ** workflow.py and main.py as given in the implementation summary
       (src/unnamed/part_002, Tasks 3 to 8) *)

Module ExecutionSummary.

Module S := Supabase.
Module MA := MemoryArchitecture.
Local Open Scope py_scope.

(** A row of memories as this version inserts and reads it: one row per
    memory, tagged with its type. *)
Record memory_row : Type := MemoryRow {
  user_id : string;
  session_id : string;
  memory_type : string;
  content : string;
  created_at : S.timestamp
}.

(** self.supabase is a client or None; self.memory_system is the memory
    system or None, seen through its process_data_to_memories. *)
Record workflow : Type := Workflow {
  supabase : bool;
  memory_system : option (MA.input_data → result MA.output)
}.

Record session_memories : Type := SessionMemories {
  procedural : list memory_row;
  semantic : list memory_row;
  episodic : list memory_row
}.

Definition no_memories : session_memories := SessionMemories [] [] [].

Definition newer_first (a b : memory_row) : Prop := (created_at b ≤ created_at a)%Z.
#[global] Instance newer_first_dec : RelDecision newer_first.
Proof. intros a b. unfold newer_first. apply _. Defined.

(** memories[memory_type].append(row) when memory_type is one of the keys. *)
Definition append_row (memories : session_memories) (row : memory_row) : session_memories :=
  if decide (memory_type row = "procedural")
  then SessionMemories (procedural memories ++ [row]) (semantic memories) (episodic memories)
  else if decide (memory_type row = "semantic")
  then SessionMemories (procedural memories) (semantic memories ++ [row]) (episodic memories)
  else if decide (memory_type row = "episodic")
  then SessionMemories (procedural memories) (semantic memories) (episodic memories ++ [row])
  else memories.

Definition fetch_session_memories (self : workflow) (sid : string)
    : S.M memory_row session_memories :=
  if negb (supabase self) || bool_decide (sid = "") then S.ret no_memories
  else
    S.try_except
      (data <- S.select_memories
         (λ rows, merge_sort newer_first (filter (λ r, session_id r = sid) rows)) ;;
       S.ret (foldl append_row no_memories data))
      (λ _, S.ret no_memories).

Definition to_message (row : S.chat_message) : MA.chat_entry :=
  MA.ChatEntry (Some (S.id row)) (S.role row) (S.content row) (S.created_at row).

(** The query of [fetch_last_n_messages]. *)
Definition unprocessed_query (sid : string) (n : nat) (rows : list S.chat_message)
    : list S.chat_message :=
  S.limit n (S.order_created_at false
    (S.eq_processed_into_memory false (S.eq_session_id sid rows))).

Definition fetch_last_n_messages (self : workflow) (sid : string) (n : nat)
    : S.M memory_row (list MA.chat_entry) :=
  if negb (supabase self) || bool_decide (sid = "") then S.ret []
  else
    S.try_except
      (data <- S.select_chat_messages (unprocessed_query sid n) ;;
       S.ret (to_message <$> data))
      (λ _, S.ret []).

Definition type_name (t : MA.memory_type) : string :=
  match t with
  | MA.Procedural => "procedural"
  | MA.Semantic => "semantic"
  | MA.Episodic => "episodic"
  end.

(** result['memories'].get(memory_type, []) *)
Definition memories_of (result : MA.output) (t : MA.memory_type) : list MA.memory_item :=
  match t with
  | MA.Procedural => MA.procedural (MA.memories result)
  | MA.Semantic => MA.semantic (MA.memories result)
  | MA.Episodic => MA.episodic (MA.memories result)
  end.

(** msg['id'] for the messages of the window. *)
Definition ids_of (messages : list MA.chat_entry) : list S.uuid :=
  omap MA.entry_id messages.

Section trigger.

Variable json_dumps : MA.memory_item → string.

(** The try block around one insert: True when the row went in. *)
Definition save_memory (uid sid : string) (t : MA.memory_type) (memory : MA.memory_item)
    : S.M memory_row bool :=
  S.try_except
    (now <- S.now ;;
     S.insert_memory (MemoryRow uid sid (type_name t) (json_dumps memory) now) ;;;
     S.ret true)
    (λ _, S.ret false).

(** The inner loop over the memories of one type, counting memories_saved. *)
Fixpoint save_memories (uid sid : string) (t : MA.memory_type)
    (todo : list MA.memory_item) (memories_saved : nat) : S.M memory_row nat :=
  match todo with
  | [] => S.ret memories_saved
  | memory :: rest =>
    saved <- save_memory uid sid t memory ;;
    save_memories uid sid t rest (if saved : bool then S memories_saved else memories_saved)
  end.

(** for memory_type in ['procedural', 'semantic', 'episodic']: ... *)
Definition save_all (uid sid : string) (result : MA.output) : S.M memory_row nat :=
  n1 <- save_memories uid sid MA.Procedural (memories_of result MA.Procedural) 0 ;;
  n2 <- save_memories uid sid MA.Semantic (memories_of result MA.Semantic) n1 ;;
  save_memories uid sid MA.Episodic (memories_of result MA.Episodic) n2.

(** The block under "Mark messages as processed". *)
Definition mark_messages (messages : list MA.chat_entry) : S.M memory_row unit :=
  let message_ids := ids_of messages in
  match message_ids with
  | [] => S.ret ()
  | _ =>
    S.try_except
      (S.update_chat_messages (S.update_in_id None message_ids))
      (λ _, S.ret ())
  end.

Definition trigger_memory_extraction (self : workflow) (sid uid : string)
    : S.M memory_row unit :=
  S.try_except
    (messages <- fetch_last_n_messages self sid 15 ;;
     match messages with
     | [] => S.ret ()
     | _ =>
       match memory_system self with
       | None => S.ret ()
       | Some process_data_to_memories =>
         let chat_data :=
           MA.InputObj (MA.InputDict (Some "chat") (Some uid) (Some sid) messages []) in
         result <- S.lift (process_data_to_memories chat_data) ;;
         memories_saved <- save_all uid sid result ;;
         mark_messages messages
       end
     end)
    (λ _, S.ret ()).

End trigger.

(** *** psychological_analyst: the memory context of the prompt (Task 6) *)

Definition nl : string := String (Ascii.ascii_of_nat 10) "".
Definition quote : string := String (Ascii.ascii_of_nat 34) "".

(** sum(len(v) for v in session_memories.values()) *)
Definition memory_count (m : session_memories) : nat :=
  length (procedural m) + length (semantic m) + length (episodic m).

Definition memory_context (m : session_memories) : string :=
  if bool_decide (0 < memory_count m)
  then
    (nl +:+ nl +:+ "SESSION MEMORIES (" +:+ pretty (memory_count m) +:+ " total):" +:+ nl)
    +:+ ("- Procedural: " +:+ pretty (length (procedural m)) +:+ " skills/techniques learned" +:+ nl)
    +:+ ("- Semantic: " +:+ pretty (length (semantic m)) +:+ " facts/preferences" +:+ nl)
    +:+ ("- Episodic: " +:+ pretty (length (episodic m)) +:+ " past experiences" +:+ nl)
  else "".

(** What the analyst reads of the workflow state, with the contexts the
    method has built before this point. *)
Record analyst_state : Type := AnalystState {
  state_session_id : string;
  user_message : string;
  conversation_context : string;
  activities_context : string;
  voice_context : string
}.

Definition first_500 (s : string) : string := String.substring 0 500 s.

Section analyst.

(** The part of the prompt the summary leaves as it was. *)
Variable rest_of_prompt : string.

Definition combined_prompt (state : analyst_state) (memories : session_memories) : string :=
  "Analyze this user's mental health state for Indian youth (16-25 years)." +:+ nl +:+ nl
  +:+ "User's message: " +:+ quote +:+ user_message state +:+ quote +:+ nl +:+ nl
  +:+ "Recent context: " +:+ first_500 (conversation_context state) +:+ nl +:+ nl
  +:+ "Activities: " +:+ activities_context state +:+ voice_context state
  +:+ memory_context memories +:+ nl +:+ nl
  +:+ rest_of_prompt.

(** The prompt [psychological_analyst] sends to the first LLM. *)
Definition psychological_analyst_prompt (self : workflow) (state : analyst_state)
    : S.M memory_row string :=
  session_memories <-
    (if bool_decide (state_session_id state = "") then S.ret no_memories
     else fetch_session_memories self (state_session_id state)) ;;
  S.ret (combined_prompt state session_memories).

End analyst.

(** *** main.py (Tasks 7 and 8) *)

Definition get_session_message_count (supabase_client : bool) (sid : string)
    : S.M memory_row Z :=
  if negb supabase_client || bool_decide (sid = "") then S.ret 0%Z
  else
    S.try_except
      (S.select_chat_messages (λ rows, Z.of_nat (length (S.eq_session_id sid rows))))
      (λ _, S.ret 0%Z).

Record chat_request : Type := ChatRequest {
  request_user_id : string;
  request_session_id : string
}.

(** The block added to the /chat endpoint after process_user_chat. [result]
    is the truth value of what process_user_chat returned. It gives the
    arguments (session_id, user_id) of the background thread it starts, or
    None when it starts none. *)
Definition chat_memory_trigger (supabase_client : bool) (result : bool)
    (request : chat_request) : S.M memory_row (option (string * string)) :=
  if result && negb (bool_decide (request_session_id request = ""))
  then
    S.try_except
      (count <- get_session_message_count supabase_client (request_session_id request) ;;
       if bool_decide (count > 0)%Z && bool_decide (count `mod` 20 = 0)%Z
       then S.ret (Some (request_session_id request, request_user_id request))
       else S.ret None)
      (λ _, S.ret None)
  else S.ret None.

End ExecutionSummary.

(** ** Background extraction runs, request by request

    main.py starts [trigger_memory_extraction] on a daemon thread, so the
    requests of several runs and of the chat turns reach the database in
    any order. A run is cut here at the requests it sends to the
    chat_messages table: the select of its window, and its updates. What a
    run does between two of them (its requests to the other tables and the
    extraction itself) does not read or write chat_messages and is kept in
    one step. *)

Module Threads.

Module S := Supabase.
Module MA := MemoryArchitecture.
Local Open Scope py_scope.

Inductive phase : Type :=
| Ready
| Fetched (ids : list S.uuid) (chat_history : list MA.chat_entry)
| Marking (ids : list S.uuid)
| Finished.

Record thread : Type := Thread {
  thread_session_id : string;
  thread_user_id : string;
  thread_phase : phase
}.

Record system (R : Type) : Type := System {
  db : S.world R;
  threads : list thread
}.
Arguments System {R} _ _.
Arguments db {R} _.
Arguments threads {R} _.

(** What can happen next: a chat turn stores a message (a new row, with the
    column defaults of the migration), the /chat endpoint runs its trigger
    block, or the i-th thread takes its next step. *)
Inductive action : Type :=
| Save (i : S.uuid) (sid role content : string) (created_at : S.timestamp)
| Chat (uid sid : string)
| Run (i : nat).

Section system.

Context {R : Type}.
(** The next step of a run, for a session and a user. *)
Variable step : string → string → phase → S.M R phase.
(** The trigger block of /chat, for a user and a session: whether it
    starts a thread. *)
Variable trigger : string → string → S.M R bool.

(** id is the primary key of chat_messages: a row whose id is taken is
    refused. *)
Definition save (i : S.uuid) (sid role content : string) (created_at : S.timestamp)
    (w : S.world R) : S.world R :=
  if decide (i ∈ S.id <$> S.chat_messages w) then w
  else S.set_chat_messages
         (S.chat_messages w ++ [S.ChatMessage i sid role content created_at false None]) w.

(** A thread whose target raised is over. *)
Definition next_phase (r : result phase) : phase :=
  match r with
  | Ok p => p
  | Raise _ => Finished
  end.

Definition exec (s : system R) (a : action) : system R :=
  match a with
  | Save i sid role content created_at =>
    System (save i sid role content created_at (db s)) (threads s)
  | Chat uid sid =>
    match trigger uid sid (db s) with
    | (Ok true, w') => System w' (threads s ++ [Thread sid uid Ready])
    | (_, w') => System w' (threads s)
    end
  | Run i =>
    match threads s !! i with
    | Some th =>
      let '(r, w') :=
        step (thread_session_id th) (thread_user_id th) (thread_phase th) (db s) in
      System w'
        (<[i := Thread (thread_session_id th) (thread_user_id th) (next_phase r)]> (threads s))
    | None => s
    end
  end.

Definition exec_all (s : system R) (actions : list action) : system R :=
  foldl exec s actions.

(** The window thread i fetches when it takes its next step from [s]: the
    ids it goes on with when that step is its select, nothing otherwise. *)
Definition fetched_by (s : system R) (i : nat) : list S.uuid :=
  match thread_phase <$> threads s !! i, thread_phase <$> threads (exec s (Run i)) !! i with
  | Some Ready, Some (Fetched ids _) => ids
  | _, _ => []
  end.

(** Running one thread until it is over, whatever the others do not do. *)
Fixpoint complete (sid uid : string) (fuel : nat) (p : phase) (w : S.world R) : S.world R :=
  match fuel with
  | 0 => w
  | S fuel' =>
    match p with
    | Finished => w
    | _ => let '(r, w') := step sid uid p w in complete sid uid fuel' (next_phase r) w'
    end
  end.

End system.

(** The message with id [x] has been marked processed. *)
Definition flagged {R} (x : S.uuid) (w : S.world R) : Prop :=
  ∃ m, m ∈ S.chat_messages w ∧ S.id m = x ∧ S.processed_into_memory m = true.

(** *** The runs of src/CODE_SNIPPETS.md *)

Definition snippets_step (self : CodeSnippets.workflow) (sid uid : string) (p : phase)
    : S.M CodeSnippets.memory_row phase :=
  match p with
  | Ready =>
    if negb (CodeSnippets.supabase_credentials self) then S.ret Finished
    else
      messages <- S.select_chat_messages (CodeSnippets.unprocessed_query sid) ;;
      match messages with
      | [] => S.ret Finished
      | _ => S.ret (Fetched (S.id <$> messages) (CodeSnippets.to_chat_history <$> messages))
      end
  | Fetched message_ids chat_history =>
    activities <- S.select_user_activities
      (λ rows, filter (λ a, S.activity_user_id a = uid ∧ S.activity_session_id a = sid) rows) ;;
    match CodeSnippets.memory_system self with
    | Some extract_all_memories_parallel =>
      memories_output <- S.lift (extract_all_memories_parallel
        (MA.InputObj (MA.InputDict (Some "chat") (Some uid) (Some sid) chat_history
                        (S.activity_data <$> activities)))) ;;
      S.insert_memory
        (CodeSnippets.MemoryRow uid sid "chat"
           (MA.procedural (MA.memories memories_output))
           (MA.semantic (MA.memories memories_output))
           (MA.episodic (MA.memories memories_output))
           (MA.memory_summary memories_output)
           message_ids
           (MA.metadata memories_output)) ;;;
      S.ret (Marking message_ids)
    | None => S.ret Finished
    end
  | Marking [] => S.ret Finished
  | Marking (msg_id :: rest) => CodeSnippets.mark_message msg_id ;;; S.ret (Marking rest)
  | Finished => S.ret Finished
  end.

Definition snippets_trigger (self : CodeSnippets.workflow) (uid sid : string)
    : S.M CodeSnippets.memory_row bool :=
  started <- CodeSnippets.chat_memory_trigger self (CodeSnippets.ChatRequest uid sid) ;;
  S.ret (bool_decide (is_Some started)).

(** *** The runs of the implementation summary *)

Section summary.

Variable json_dumps : MA.memory_item → string.

Definition summary_step (self : ExecutionSummary.workflow) (sid uid : string) (p : phase)
    : S.M ExecutionSummary.memory_row phase :=
  match p with
  | Ready =>
    messages <- ExecutionSummary.fetch_last_n_messages self sid 15 ;;
    match messages with
    | [] => S.ret Finished
    | _ =>
      match ExecutionSummary.memory_system self with
      | None => S.ret Finished
      | Some _ => S.ret (Fetched (ExecutionSummary.ids_of messages) messages)
      end
    end
  | Fetched message_ids messages =>
    match ExecutionSummary.memory_system self with
    | None => S.ret Finished
    | Some process_data_to_memories =>
      result <- S.lift (process_data_to_memories
        (MA.InputObj (MA.InputDict (Some "chat") (Some uid) (Some sid) messages []))) ;;
      memories_saved <- ExecutionSummary.save_all json_dumps uid sid result ;;
      S.ret (Marking message_ids)
    end
  | Marking message_ids =>
    match message_ids with
    | [] => S.ret Finished
    | _ =>
      S.try_except
        (S.update_chat_messages (S.update_in_id None message_ids))
        (λ _, S.ret ()) ;;;
      S.ret Finished
    end
  | Finished => S.ret Finished
  end.

End summary.

(** The endpoint of the summary, taken after a chat turn that produced a
    result. *)
Definition summary_trigger (supabase_client : bool) (uid sid : string)
    : S.M ExecutionSummary.memory_row bool :=
  started <- ExecutionSummary.chat_memory_trigger supabase_client true
    (ExecutionSummary.ChatRequest uid sid) ;;
  S.ret (bool_decide (is_Some started)).

End Threads.

(** ** app.post("/chat") of r3f-virtual-girlfriend-backend/index.js *)

Module NodeBackend.

(** The values req.body.message can take, as far as [!userMessage] and the
    template literal tell them apart. *)
Inductive js_value : Type :=
| JUndefined
| JNull
| JBool (b : bool)
| JNumber (n : Z)
| JNaN
| JString (s : string)
| JObject.

Definition truthy (v : js_value) : bool :=
  match v with
  | JUndefined | JNull | JNaN => false
  | JBool b => b
  | JNumber n => negb (bool_decide (n = 0%Z))
  | JString s => negb (bool_decide (s = ""))
  | JObject => true
  end.

(** process.env.X: not set, or a string that may be empty. *)
Definition env_truthy (v : option string) : bool :=
  match v with
  | Some s => negb (bool_decide (s = ""))
  | None => false
  end.

Record message : Type := Message {
  text : string;
  facialExpression : string;
  animation : string;
  audio : option string;
  lipsync : option string
}.

(** The calls the handler makes to Gemini, to Hume's text-to-speech, to
    the lip-sync binaries and to the file system. *)
Inductive call : Type :=
| GeminiGenerateContent (prompt : string)
| HumeSynthesizeJson (utterance : string)
| WriteResultToFile (fileName : string)
| HumeVoicesCreate (generationId : string)
| LipSyncMessage (i : nat)
| AudioFileToBase64 (fileName : string)
| ReadJsonTranscript (file : string).

Inductive body : Type :=
| ErrorBody (error : string) (details : option string)
| MessagesBody (messages : list message).

Record response : Type := Response {
  status : nat;
  json : body
}.

(** A computation that returns or throws, with the calls it made. *)
Definition io (A : Type) : Type := result A * list call.
Definition io_ret {A} (a : A) : io A := (Ok a, []).
Definition io_bind {A B} (m : io A) (k : A → io B) : io B :=
  match m with
  | (Ok a, t) => let '(r, t') := k a in (r, t ++ t')
  | (Raise e, t) => (Raise e, t)
  end.
(** await f(...): the call is made, and returns or throws. *)
Definition await {A} (c : call) (outcome : result A) : io A := (outcome, [c]).

Declare Scope js_scope.
Delimit Scope js_scope with js.
Notation "x <- m ;; k" := (io_bind m (λ x, k))
  (at level 100, m at next level, right associativity) : js_scope.

Section chat.

Local Open Scope js_scope.

Variable elevenLabsApiKey : option string.
Variable geminiApiKey : option string.
(** The services, each returning or throwing. [generate] stands for
    generateContent, JSON.parse of the reply and the unwrapping of a
    messages field. *)
Variable template : js_value → string.
Variable generate : string → result (list message).
Variable synthesizeJson : string → result (string * string).
Variable writeResultToFile : string → string → result unit.
Variable voicesCreate : string → result unit.
Variable lipSyncMessage : nat → result unit.
Variable audioFileToBase64 : string → result string.
Variable readJsonTranscript : string → result string.

Definition prompt_of (userMessage : js_value) : string :=
  "You are a virtual agent. Reply with a JSON array of up to 3 messages. Each message has: text, facialExpression (smile, sad, angry, surprised, funnyFace, default), and animation (Talking_0, Talking_1, Talking_2, Crying, Laughing, Rumba, Idle, Terrified, Angry). User: "
  +:+ template userMessage.

(** One iteration of the loop up to messages[i].audio = ... *)
Definition speak (i : nat) (m : message) : io string :=
  let fileName := "audios/message_" +:+ pretty i in
  speech1 <- await (HumeSynthesizeJson (text m)) (synthesizeJson (text m)) ;;
  _ <- await (WriteResultToFile fileName) (writeResultToFile speech1.1 fileName) ;;
  _ <- await (HumeVoicesCreate speech1.2) (voicesCreate speech1.2) ;;
  _ <- await (LipSyncMessage i) (lipSyncMessage i) ;;
  await (AudioFileToBase64 fileName) (audioFileToBase64 fileName).

(** The loop inside the second try: it stops at the first call that
    throws, and the messages keep what was set until then. *)
Fixpoint speak_all (i : nat) (messages : list message) : list message * list call :=
  match messages with
  | [] => ([], [])
  | m :: rest =>
    match speak i m with
    | (Raise _, t) => (m :: rest, t)
    | (Ok a, t) =>
      let m1 := Message (text m) (facialExpression m) (animation m) (Some a) (lipsync m) in
      let file := "audios/message_" +:+ pretty i +:+ ".json" in
      match readJsonTranscript file with
      | Raise _ => (m1 :: rest, t ++ [ReadJsonTranscript file])
      | Ok l =>
        let m2 := Message (text m) (facialExpression m) (animation m) (Some a) (Some l) in
        let '(rest', t') := speak_all (S i) rest in
        (m2 :: rest', t ++ ReadJsonTranscript file :: t')
      end
    end
  end.

Definition error_message (e : exn) : string :=
  match e with
  | Exception msg | ValueError msg | JSONDecodeError msg | TimeoutError msg => msg
  end.

(** The handler: the response it sends and the calls it made. *)
Definition chat (req_body : gmap string js_value) : response * list call :=
  let userMessage := default JUndefined (req_body !! "message") in
  if negb (truthy userMessage)
  then (Response 400 (ErrorBody "No message provided" None), [])
  else if negb (env_truthy elevenLabsApiKey) || negb (env_truthy geminiApiKey)
  then (Response 500 (ErrorBody "API keys missing" None), [])
  else
    match await (GeminiGenerateContent (prompt_of userMessage))
                (generate (prompt_of userMessage)) with
    | (Raise e, t) => (Response 500 (ErrorBody "Gemini API error" (Some (error_message e))), t)
    | (Ok messages, t) =>
      let '(messages', t') := speak_all 0 messages in
      (Response 200 (MessagesBody messages'), t ++ t')
    end.

End chat.

End NodeBackend.

(** ** The audio files and app.post("/transcribe-and-chat") of
       r3f-virtual-girlfriend-backend/index.js *)

Module NodeTranscribe.

Section files.

(** const pwd = process.cwd() *)
Variable pwd : string.

(** originalFile and finalFile of lipSyncMessage(i): ffmpeg reads the
    first and writes the second, rhubarb reads the second. *)
Definition originalFile (i : nat) : string :=
  pwd +:+ "/audios/message_" +:+ pretty i +:+ ".wav".
Definition finalFile (i : nat) : string :=
  pwd +:+ "/audios/message_" +:+ pretty i +:+ "final.wav".

(** filepath of audioFileToBase64(file): the file it reads. *)
Definition filepath (file : string) : string :=
  pwd +:+ "/" +:+ file +:+ "final.wav".

End files.

(** fileName in the loop of /transcribe-and-chat. *)
Definition fileName (i : nat) : string := "audios/message_" +:+ pretty i +:+ ".mp3".

(** The calls the handler makes to the file system, to ElevenLabs, to
    Gemini and to the lip-sync binaries. *)
Inductive call : Type :=
| FsReadFile (path : string)
| FetchSpeechToText (audioData : string)
| SttResponseJson
| GenerateContent (prompt : string)
| TextToSpeech (fileName textInput : string)
| LipSyncMessage (i : nat)
| AudioFileToBase64 (fileName : string)
| ReadJsonTranscript (file : string).

(** What fetch resolves to: response.ok, and what response.json() gives
    for the text field (it may throw). *)
Record stt_response : Type := SttResponse {
  ok : bool;
  json_text : result NodeBackend.js_value
}.

Definition io (A : Type) : Type := result A * list call.
Definition io_ret {A} (a : A) : io A := (Ok a, []).
Definition io_bind {A B} (m : io A) (k : A → io B) : io B :=
  match m with
  | (Ok a, t) => let '(r, t') := k a in (r, t ++ t')
  | (Raise e, t) => (Raise e, t)
  end.
Definition await {A} (c : call) (outcome : result A) : io A := (outcome, [c]).
(** try { m } catch (e) { ... }: what m threw is handed to the catch. *)
Definition io_try {A} (m : io A) : io (result A) := (Ok m.1, m.2).

Declare Scope node_scope.
Delimit Scope node_scope with node.
Notation "x <- m ;; k" := (io_bind m (λ x, k))
  (at level 100, m at next level, right associativity) : node_scope.

Section transcribe.

Local Open Scope node_scope.

Variable geminiApiKey : option string.
(** The message of the TypeError that calling a method on null throws. *)
Variable null_type_error : string.
Variable template : NodeBackend.js_value → string.
Variable readFile : string → result string.
Variable speechToText : string → result stt_response.
(** [generate] stands for generateContent, JSON.parse of the reply and the
    unwrapping of a messages field. *)
Variable generate : string → result (list NodeBackend.message).
Variable textToSpeech : string → string → result unit.
Variable lipSyncMessage : nat → result unit.
Variable audioFileToBase64 : string → result string.
Variable readJsonTranscript : string → result string.

(** The inner try: genAI is null when GEMINI_API_KEY is not set, and
    genAI.getGenerativeModel then throws before any call is made. *)
Definition gemini (userMessage : NodeBackend.js_value)
    : io (list NodeBackend.message) :=
  if NodeBackend.env_truthy geminiApiKey
  then await (GenerateContent (NodeBackend.prompt_of template userMessage))
         (generate (NodeBackend.prompt_of template userMessage))
  else (Raise (Exception null_type_error), []).

(** The loop: any call that throws ends it, and the handler with it. *)
Fixpoint speak_all (i : nat) (messages : list NodeBackend.message)
    : io (list NodeBackend.message) :=
  match messages with
  | [] => io_ret []
  | m :: rest =>
    _ <- await (TextToSpeech (fileName i) (NodeBackend.text m))
           (textToSpeech (fileName i) (NodeBackend.text m)) ;;
    _ <- await (LipSyncMessage i) (lipSyncMessage i) ;;
    a <- await (AudioFileToBase64 (fileName i)) (audioFileToBase64 (fileName i)) ;;
    l <- await (ReadJsonTranscript ("audios/message_" +:+ pretty i +:+ ".json"))
           (readJsonTranscript ("audios/message_" +:+ pretty i +:+ ".json")) ;;
    rest' <- speak_all (S i) rest ;;
    io_ret (NodeBackend.Message (NodeBackend.text m) (NodeBackend.facialExpression m)
              (NodeBackend.animation m) (Some a) (Some l) :: rest')
  end.

(** The body of the outer try. *)
Definition transcribe (path : string) : io NodeBackend.response :=
  audioData <- await (FsReadFile path) (readFile path) ;;
  sttResponse <- await (FetchSpeechToText audioData) (speechToText audioData) ;;
  if negb (ok sttResponse)
  then io_ret (NodeBackend.Response 500
                 (NodeBackend.ErrorBody "Failed to transcribe audio" None))
  else
    userMessage <- await SttResponseJson (json_text sttResponse) ;;
    outcome <- io_try (gemini userMessage) ;;
    match outcome with
    | Raise e =>
      io_ret (NodeBackend.Response 500
                (NodeBackend.ErrorBody "Gemini API error"
                   (Some (NodeBackend.error_message e))))
    | Ok messages =>
      messages' <- speak_all 0 messages ;;
      io_ret (NodeBackend.Response 200 (NodeBackend.MessagesBody messages'))
    end.

(** The handler, for req.file absent or stored at a path: the response it
    sends and the calls it made. *)
Definition transcribe_and_chat (file : option string) : NodeBackend.response * list call :=
  match file with
  | None => (NodeBackend.Response 400 (NodeBackend.ErrorBody "No audio file uploaded" None), [])
  | Some path =>
    match transcribe path with
    | (Ok response, t) => (response, t)
    | (Raise err, t) =>
      (NodeBackend.Response 500 (NodeBackend.ErrorBody (NodeBackend.error_message err) None), t)
    end
  end.

End transcribe.

End NodeTranscribe.

(** ** Vocabulary of the statements *)

(** The coming request is answered: the schedule does not make it raise. *)
Definition answered {R} (w : Supabase.world R) : Prop :=
  head (Supabase.faults w) ≠ Some true.

(** The schedule with the flag of the coming request used up. *)
Definition after_request {R} (w : Supabase.world R) : Supabase.world R :=
  Supabase.set_faults (tail (Supabase.faults w)) w.

(** The rows of chat_messages that belong to the session, counted. *)
Definition session_count {R} (sid : string) (w : Supabase.world R) : Z :=
  Z.of_nat (length (Supabase.eq_session_id sid (Supabase.chat_messages w))).

(** The data type and the formatted data [extract_all_memories_parallel]
    hands to its three calls. *)
Definition data_type_of (detect_data_type : MemoryArchitecture.input_dict → string)
    (d : MemoryArchitecture.input_dict) : string :=
  default (detect_data_type d) (MemoryArchitecture.data_type d).
Definition formatted_data_of (detect_data_type : MemoryArchitecture.input_dict → string)
    (data_handlers : gmap string (MemoryArchitecture.input_dict → string))
    (_handle_general_data : MemoryArchitecture.input_dict → string)
    (d : MemoryArchitecture.input_dict) : string :=
  match data_handlers !! data_type_of detect_data_type d with
  | Some handler => handler d
  | None => _handle_general_data d
  end.

(** What the answer of an attempt parses to, when the model answered with
    a text the parser accepts. *)
Definition parsed_of (generate_content : string → nat → result MemoryArchitecture.llm_response)
    (strip : string → string) (re_search_array : string → option string)
    (re_sub_fences : string → string)
    (json_loads : string → option MemoryArchitecture.parsed)
    (prompt : string) (attempt : nat) : option MemoryArchitecture.parsed :=
  match generate_content prompt attempt with
  | Ok (MemoryArchitecture.WithText text) =>
    json_loads (MemoryArchitecture.json_text strip re_search_array re_sub_fences (strip text))
  | Ok (MemoryArchitecture.WithContent content) =>
    json_loads (MemoryArchitecture.json_text strip re_search_array re_sub_fences (strip content))
  | _ => None
  end.

(** The calls and sleeps of a run of [_get_llm_response] whose attempts
    0 .. k-1 were each followed by a sleep and whose attempt k ended it. *)
Definition backoff (k : nat) : list MemoryArchitecture.event :=
  flat_map (λ j, [MemoryArchitecture.Generate j; MemoryArchitecture.Sleep (2 ^ Z.of_nat j)%Z])
    (seq 0 k)
  ++ [MemoryArchitecture.Generate k].

(** The rows of a session that no run has processed yet. *)
Definition unprocessed (sid : string) (rows : list Supabase.chat_message)
    : list Supabase.chat_message :=
  Supabase.eq_processed_into_memory false (Supabase.eq_session_id sid rows).

(** The table after exactly the rows of [window] have been marked. *)
Definition marked_exactly (at_ : option Supabase.timestamp)
    (window rows : list Supabase.chat_message) : list Supabase.chat_message :=
  (λ m, if decide (m ∈ window) then Supabase.mark_processed at_ m else m) <$> rows.

(** id is the primary key of chat_messages. *)
Definition primary_key (rows : list Supabase.chat_message) : Prop :=
  NoDup (Supabase.id <$> rows).

(** The last n unprocessed messages of a session, as the docstring of
    fetch_last_n_messages and the README word it: the n most recent ones,
    in the order they were written. *)
Definition last_n_unprocessed (sid : string) (n : nat) (rows : list Supabase.chat_message)
    : list Supabase.chat_message :=
  reverse (take n (Supabase.order_created_at true (unprocessed sid rows))).

(** The rows the summary's run inserts for the memories of one type, and
    for a whole extraction result, when every insert goes through. *)
Definition rows_of (json_dumps : MemoryArchitecture.memory_item → string)
    (uid sid : string) (now : Supabase.timestamp) (t : MemoryArchitecture.memory_type)
    (items : list MemoryArchitecture.memory_item) : list ExecutionSummary.memory_row :=
  (λ memory, ExecutionSummary.MemoryRow uid sid (ExecutionSummary.type_name t)
               (json_dumps memory) now) <$> items.
Definition all_rows_of (json_dumps : MemoryArchitecture.memory_item → string)
    (uid sid : string) (now : Supabase.timestamp) (result : MemoryArchitecture.output)
    : list ExecutionSummary.memory_row :=
  rows_of json_dumps uid sid now MemoryArchitecture.Procedural
    (ExecutionSummary.memories_of result MemoryArchitecture.Procedural)
  ++ rows_of json_dumps uid sid now MemoryArchitecture.Semantic
    (ExecutionSummary.memories_of result MemoryArchitecture.Semantic)
  ++ rows_of json_dumps uid sid now MemoryArchitecture.Episodic
    (ExecutionSummary.memories_of result MemoryArchitecture.Episodic).

(** How many memories an extraction result holds, over the three types. *)
Definition memories_in (result : MemoryArchitecture.output) : nat :=
  length (ExecutionSummary.memories_of result MemoryArchitecture.Procedural)
  + length (ExecutionSummary.memories_of result MemoryArchitecture.Semantic)
  + length (ExecutionSummary.memories_of result MemoryArchitecture.Episodic).

(** The input the run of the snippets hands to the memory system, and the
    row it inserts for an extraction result. *)
Definition snippets_input (uid sid : string) (w : Supabase.world CodeSnippets.memory_row)
    : MemoryArchitecture.input_data :=
  MemoryArchitecture.InputObj
    (MemoryArchitecture.InputDict (Some "chat") (Some uid) (Some sid)
       (CodeSnippets.to_chat_history
          <$> CodeSnippets.unprocessed_query sid (Supabase.chat_messages w))
       (Supabase.activity_data
          <$> filter (λ a, Supabase.activity_user_id a = uid
                           ∧ Supabase.activity_session_id a = sid)
                (Supabase.user_activities w))).
Definition snippets_row (uid sid : string) (w : Supabase.world CodeSnippets.memory_row)
    (out : MemoryArchitecture.output) : CodeSnippets.memory_row :=
  CodeSnippets.MemoryRow uid sid "chat"
    (MemoryArchitecture.procedural (MemoryArchitecture.memories out))
    (MemoryArchitecture.semantic (MemoryArchitecture.memories out))
    (MemoryArchitecture.episodic (MemoryArchitecture.memories out))
    (MemoryArchitecture.memory_summary out)
    (Supabase.id <$> CodeSnippets.unprocessed_query sid (Supabase.chat_messages w))
    (MemoryArchitecture.metadata out).

(** The input the run of the summary hands to the memory system. *)
Definition summary_input (uid sid : string) (w : Supabase.world ExecutionSummary.memory_row)
    : MemoryArchitecture.input_data :=
  MemoryArchitecture.InputObj
    (MemoryArchitecture.InputDict (Some "chat") (Some uid) (Some sid)
       (ExecutionSummary.to_message
          <$> ExecutionSummary.unprocessed_query sid 15 (Supabase.chat_messages w))
       []).

(** The rows of the summary's memories table that belong to a session and
    carry a given type. *)
Definition stored (sid t : string) (rows : list ExecutionSummary.memory_row)
    : list ExecutionSummary.memory_row :=
  filter (λ r, ExecutionSummary.session_id r = sid ∧ ExecutionSummary.memory_type r = t) rows.

(** The analyst's prompt up to the place of the memory context. *)
Definition prompt_head (state : ExecutionSummary.analyst_state) : string :=
  "Analyze this user's mental health state for Indian youth (16-25 years)."
  +:+ ExecutionSummary.nl +:+ ExecutionSummary.nl
  +:+ "User's message: " +:+ ExecutionSummary.quote
  +:+ ExecutionSummary.user_message state +:+ ExecutionSummary.quote
  +:+ ExecutionSummary.nl +:+ ExecutionSummary.nl
  +:+ "Recent context: "
  +:+ ExecutionSummary.first_500 (ExecutionSummary.conversation_context state)
  +:+ ExecutionSummary.nl +:+ ExecutionSummary.nl
  +:+ "Activities: " +:+ ExecutionSummary.activities_context state
  +:+ ExecutionSummary.voice_context state.

(** [rows'] is [rows] with the flags of some rows raised: the same ids in
    the same order, and no flag taken back. *)
Definition raised (rows rows' : list Supabase.chat_message) : Prop :=
  Forall2 (λ m m', Supabase.id m' = Supabase.id m
                   ∧ (Supabase.processed_into_memory m = true →
                      Supabase.processed_into_memory m' = true))
    rows rows'.

(** A computation that does nothing to chat_messages but raise flags. *)
Definition raises_flags_only {R A} (m : Supabase.M R A) : Prop :=
  ∀ w, raised (Supabase.chat_messages w) (Supabase.chat_messages (m w).2).

(** What the interleaving argument needs of a version of the run and of
    the trigger: they never do more to chat_messages than raise flags, and
    the window a run goes on with holds ids of rows that were unprocessed
    when it was selected. *)
Class extraction_run {R} (step : string → string → Threads.phase → Supabase.M R Threads.phase)
    (trigger : string → string → Supabase.M R bool) : Prop := {
  step_raises_flags_only : ∀ sid uid p, raises_flags_only (step sid uid p);
  trigger_raises_flags_only : ∀ uid sid, raises_flags_only (trigger uid sid);
  step_fetches_unprocessed : ∀ sid uid w ids h,
    Threads.next_phase (step sid uid Threads.Ready w).1 = Threads.Fetched ids h →
    ∀ x, x ∈ ids →
      ∃ m, m ∈ Supabase.chat_messages w ∧ Supabase.id m = x
           ∧ Supabase.processed_into_memory m = false
}.

(** Two overlapping runs, after the two chat turns that started them: both
    threads select, then the first takes its remaining steps, then the
    second takes its own. *)
Definition overlapping (steps : nat) : list Threads.action :=
  [Threads.Run 0; Threads.Run 1]
  ++ replicate steps (Threads.Run 0) ++ replicate steps (Threads.Run 1).

(** ** Sample data for the evaluations below *)

Module Samples.

Module S := Supabase.
Module MA := MemoryArchitecture.

(** Message number k of session "s1": id k, written at time k, not yet
    processed. *)
Definition message (k : nat) : S.chat_message :=
  S.ChatMessage (Z.of_nat k) "s1" "user" "hello" (Z.of_nat k) false None.

(** The first n messages of the session, oldest first. *)
Definition session (n : nat) : list S.chat_message := message <$> seq 1 n.

Definition world_of {R} (rows : list S.chat_message) : S.world R :=
  S.World rows [] [] [] 0%Z.

(** A memory system whose three calls return one, two and no memories,
    and whose semantic call is done first. *)
Definition item (name : string) : MA.memory_item := MA.MemoryItem [("content", name)].
Definition procedural_call (fd dt : string) : result (list MA.memory_item) :=
  Ok [item "breathing exercise"].
Definition semantic_call (fd dt : string) : result (list MA.memory_item) :=
  Ok [item "likes music"; item "studies physics"].
Definition episodic_call (fd dt : string) : result (list MA.memory_item) := Ok [].
Definition failing_call (fd dt : string) : result (list MA.memory_item) :=
  Raise (ValueError "Failed to get LLM response").
Definition semantic_first (t : MA.memory_type) : nat :=
  match t with
  | MA.Procedural => 2
  | MA.Semantic => 0
  | MA.Episodic => 1
  end.
(** The same, with an episodic call that takes 150 seconds. *)
Definition episodic_late (t : MA.memory_type) : nat :=
  match t with
  | MA.Procedural => 30
  | MA.Semantic => 10
  | MA.Episodic => 150
  end.
Definition chat_input : MA.input_dict :=
  MA.InputDict (Some "chat") (Some "u1") (Some "s1")
    [MA.ChatEntry None "user" "hello" 1%Z] [].
Definition memory_system (input : MA.input_data) : result MA.output :=
  MA.extract_all_memories_parallel (λ _, None) (λ _, "general") ∅ (λ _, "formatted")
    procedural_call semantic_call episodic_call "20251101_000000" "2025-11-01T00:00:00"
    semantic_first input.

(** The same three lists, as a memory system that returns them whatever
    the chat history. *)
Definition three_memories : MA.output :=
  MA.Output "chat" "u1" "s1" "2025-11-01T00:00:00"
    (MA.MemorySummary 1 2 0 3)
    (MA.Memories [item "breathing exercise"]
       [item "likes music"; item "studies physics"] [])
    (MA.Metadata "chat" "gemini-1.5-flash" "2.0" "parallel_threading").
Definition fixed_system (input : MA.input_data) : result MA.output := Ok three_memories.
Definition dumps (memory : MA.memory_item) : string :=
  match memory with
  | MA.MemoryItem ((_, v) :: _) => v
  | MA.MemoryItem [] => "{}"
  end.

(** A memories table of the summary's shape: two sessions, three types. *)
Definition memory (sid t text : string) (at_ : Z) : ExecutionSummary.memory_row :=
  ExecutionSummary.MemoryRow "u1" sid t text at_.
Definition stored_memories : list ExecutionSummary.memory_row :=
  [memory "s1" "procedural" "breathing exercise" 1;
   memory "s2" "semantic" "other session" 2;
   memory "s1" "semantic" "likes music" 3;
   memory "s1" "semantic" "studies physics" 4;
   memory "s1" "episodic" "exam week" 5].
Definition analyst_state : ExecutionSummary.analyst_state :=
  ExecutionSummary.AnalystState "s1" "I feel tired" "none" "none" "".

Definition sample_memory_world : S.world ExecutionSummary.memory_row :=
  S.World [] stored_memories [] [] 0%Z.
Definition sample_memory_context : string :=
  ExecutionSummary.nl +:+ ExecutionSummary.nl +:+ "SESSION MEMORIES (4 total):"
  +:+ ExecutionSummary.nl
  +:+ "- Procedural: 1 skills/techniques learned" +:+ ExecutionSummary.nl
  +:+ "- Semantic: 2 facts/preferences" +:+ ExecutionSummary.nl
  +:+ "- Episodic: 1 past experiences" +:+ ExecutionSummary.nl.

(** Two chat turns arrive together at a session of sixteen messages: each
    stores its two messages, then each reaches the trigger block. The two
    threads then take their steps in turn. *)
Definition two_turns : list Threads.action :=
  [Threads.Save 17%Z "s1" "user" "a" 17%Z; Threads.Save 18%Z "s1" "assistant" "b" 18%Z;
   Threads.Save 19%Z "s1" "user" "c" 19%Z; Threads.Save 20%Z "s1" "assistant" "d" 20%Z;
   Threads.Chat "u1" "s1"; Threads.Chat "u1" "s1"].
Definition in_turn (n : nat) : list Threads.action :=
  mjoin (replicate n [Threads.Run 0; Threads.Run 1]).
Definition snippets_self : CodeSnippets.workflow :=
  CodeSnippets.Workflow true (Some fixed_system).
Definition summary_self : ExecutionSummary.workflow :=
  ExecutionSummary.Workflow true (Some fixed_system).
Definition snippets_race : Threads.system CodeSnippets.memory_row :=
  Threads.exec_all (Threads.snippets_step snippets_self)
    (Threads.snippets_trigger snippets_self)
    (Threads.System (world_of (session 16)) []) (two_turns ++ in_turn 23).
Definition summary_race : Threads.system ExecutionSummary.memory_row :=
  Threads.exec_all (Threads.summary_step dumps summary_self)
    (Threads.summary_trigger true)
    (Threads.System (world_of (session 16)) []) (two_turns ++ in_turn 3).

(** One run after the other on three messages: the first thread runs to
    its end, a fourth message arrives, the second thread selects. *)
Definition two_threads {R} : Threads.system R :=
  Threads.System (world_of (session 3))
    [Threads.Thread "s1" "u1" Threads.Ready; Threads.Thread "s1" "u1" Threads.Ready].
Definition first_run : list Threads.action := replicate 6 (Threads.Run 0).
Definition fourth_message : list Threads.action :=
  [Threads.Save 4%Z "s1" "user" "again" 4%Z].

(** A model that answers every attempt with a JSON object, not a list. *)
Definition object_model (prompt : string) (attempt : nat) : result MA.llm_response :=
  Ok (MA.WithText "{}").
Definition loads_object (s : string) : option MA.parsed := Some MA.ParsedOther.
(** A model that raises twice and then answers with a list. *)
Definition flaky_model (prompt : string) (attempt : nat) : result MA.llm_response :=
  match attempt with
  | 0 | 1 => Raise (Exception "503")
  | _ => Ok (MA.WithText "[...]")
  end.
Definition loads_list (s : string) : option MA.parsed := Some (MA.ParsedList [item "m"]).
(** A model that never answers. *)
Definition dead_model (prompt : string) (attempt : nat) : result MA.llm_response :=
  Raise (Exception "503").

End Samples.

(** ** Vocabulary of the further properties *)

(** A message of a reply that carries its audio and its lip-sync cues. *)
Definition voiced (m : NodeBackend.message) : Prop :=
  is_Some (NodeBackend.audio m) ∧ is_Some (NodeBackend.lipsync m).

(** What Gemini said of a message: the handlers add audio and cues to it. *)
Definition spoken (m : NodeBackend.message) : string * string * string :=
  (NodeBackend.text m, NodeBackend.facialExpression m, NodeBackend.animation m).

(** In the loop of /transcribe-and-chat, the four calls for message j all
    return; or the first of them that does not return throws e. *)
Definition speaks (textToSpeech : string → string → result unit)
    (lipSyncMessage : nat → result unit)
    (audioFileToBase64 readJsonTranscript : string → result string)
    (j : nat) (m : NodeBackend.message) : Prop :=
  textToSpeech (NodeTranscribe.fileName j) (NodeBackend.text m) = Ok ()
  ∧ lipSyncMessage j = Ok ()
  ∧ (∃ a, audioFileToBase64 (NodeTranscribe.fileName j) = Ok a)
  ∧ (∃ l, readJsonTranscript ("audios/message_" +:+ pretty j +:+ ".json") = Ok l).
Definition throws (textToSpeech : string → string → result unit)
    (lipSyncMessage : nat → result unit)
    (audioFileToBase64 readJsonTranscript : string → result string)
    (j : nat) (m : NodeBackend.message) (e : exn) : Prop :=
  textToSpeech (NodeTranscribe.fileName j) (NodeBackend.text m) = Raise e
  ∨ (textToSpeech (NodeTranscribe.fileName j) (NodeBackend.text m) = Ok ()
     ∧ (lipSyncMessage j = Raise e
        ∨ (lipSyncMessage j = Ok ()
           ∧ (audioFileToBase64 (NodeTranscribe.fileName j) = Raise e
              ∨ ((∃ a, audioFileToBase64 (NodeTranscribe.fileName j) = Ok a)
                 ∧ readJsonTranscript ("audios/message_" +:+ pretty j +:+ ".json")
                   = Raise e))))).

(** Strings made of decimal digits. *)
Definition digit (c : Ascii.ascii) : Prop :=
  (48 ≤ Ascii.nat_of_ascii c ≤ 57)%nat.
Fixpoint all_digits (s : string) : Prop :=
  match s with
  | EmptyString => True
  | String c s' => digit c ∧ all_digits s'
  end.

(** How often a run of [_get_llm_response] called the model, and how many
    seconds it slept. *)
Definition calls (evs : list MemoryArchitecture.event) : nat :=
  sum_list_with (λ e, match e with
                      | MemoryArchitecture.Generate _ => 1
                      | MemoryArchitecture.Sleep _ => 0
                      end) evs.
Definition slept (evs : list MemoryArchitecture.event) : Z :=
  foldr (λ e acc, match e with
                  | MemoryArchitecture.Sleep seconds => (seconds + acc)%Z
                  | MemoryArchitecture.Generate _ => acc
                  end) 0%Z evs.

(** [rows'] holds the rows of [rows] in the same order, with nothing
    changed but processing flags raised and processing times set. *)
Definition same_messages (rows rows' : list Supabase.chat_message) : Prop :=
  Forall2 (λ m m', Supabase.id m' = Supabase.id m
                   ∧ Supabase.session_id m' = Supabase.session_id m
                   ∧ Supabase.role m' = Supabase.role m
                   ∧ Supabase.content m' = Supabase.content m
                   ∧ Supabase.created_at m' = Supabase.created_at m
                   ∧ (Supabase.processed_into_memory m = true →
                      Supabase.processed_into_memory m' = true))
    rows rows'.

(** A computation under which a part of the world only moves along [rel]. *)
Definition preserves {R T A} (proj : Supabase.world R → T) (rel : T → T → Prop)
    (m : Supabase.M R A) : Prop :=
  ∀ w, rel (proj w) (proj (m w).2).

(** The rows of chat_messages that belong to other sessions than [sid]. *)
Definition other_sessions (sid : string) (rows : list Supabase.chat_message)
    : list Supabase.chat_message :=
  filter (λ m, Supabase.session_id m ≠ sid) rows.

(** [window] holds the n oldest rows of [pool] (all of them when there are
    fewer), oldest first: every row of the pool that is left out was
    created no earlier than any row taken. *)
Definition oldest_of (n : nat) (window pool : list Supabase.chat_message) : Prop :=
  length window = n `min` length pool
  ∧ window ⊆ pool
  ∧ StronglySorted Supabase.created_le window
  ∧ ∀ m m', m ∈ window → m' ∈ pool → m' ∉ window →
      (Supabase.created_at m ≤ Supabase.created_at m')%Z.

(** The three tables a request can read or write. *)
Definition tables {R} (w : Supabase.world R)
    : list Supabase.chat_message * list R * list Supabase.activity :=
  (Supabase.chat_messages w, Supabase.memories w, Supabase.user_activities w).

(** The dictionary [extract_all_memories_parallel] goes on with: the input
    itself, or what json.loads made of it; None when the method raises
    ValueError before it extracts anything. *)
Definition dict_of (json_loads_input : string → option MemoryArchitecture.input_data)
    (input : MemoryArchitecture.input_data) : option MemoryArchitecture.input_dict :=
  match input with
  | MemoryArchitecture.InputObj d => Some d
  | MemoryArchitecture.InputStr s =>
    match json_loads_input s with
    | Some (MemoryArchitecture.InputObj d) => Some d
    | _ => None
    end
  | MemoryArchitecture.InputOther => None
  end.

(** A schedule in which no request fails stays one. *)
Definition stays_quiet (fs fs' : list bool) : Prop := fs = [] → fs' = [].

(** ** Sample data for the further properties *)

Module NodeSamples.

(** Two messages as Gemini gives them, and services that answer. *)
Definition hello : NodeBackend.message :=
  NodeBackend.Message "Hello" "smile" "Talking_0" None None.
Definition bye : NodeBackend.message :=
  NodeBackend.Message "Bye" "sad" "Talking_1" None None.
Definition template (v : NodeBackend.js_value) : string :=
  match v with
  | NodeBackend.JString s => s
  | _ => "undefined"
  end.
Definition generate (prompt : string) : result (list NodeBackend.message) :=
  Ok [hello; bye].
Definition synthesizeJson (utterance : string) : result (string * string) :=
  Ok ("audio", "generation-1").
Definition writeResultToFile (audio fileName : string) : result unit := Ok ().
Definition voicesCreate (generationId : string) : result unit := Ok ().
Definition textToSpeech (fileName textInput : string) : result unit := Ok ().
Definition lipSyncMessage (i : nat) : result unit := Ok ().
Definition audioFileToBase64 (fileName : string) : result string := Ok "UklGRg==".
Definition readJsonTranscript (file : string) : result string := Ok "{mouthCues}".

(** rhubarb fails on the second message. *)
Definition lipSync_fails_at_1 (i : nat) : result unit :=
  match i with
  | 1 => Raise (Exception "rhubarb exited with code 1")
  | _ => Ok ()
  end.
Definition req_body : gmap string NodeBackend.js_value :=
  {[ "message" := NodeBackend.JString "hi" ]}.

(** The upload, and a transcription that comes back with a text. *)
Definition readFile (path : string) : result string := Ok "mp3 bytes".
Definition speechToText (audioData : string) : result NodeTranscribe.stt_response :=
  Ok (NodeTranscribe.SttResponse true (Ok (NodeBackend.JString "hi"))).

End NodeSamples.

Module RunSamples.

(** A session of three messages beside a message of another session. *)
Definition other_message : Supabase.chat_message :=
  Supabase.ChatMessage 100%Z "s2" "user" "elsewhere" 2%Z false None.
Definition two_sessions : list Supabase.chat_message :=
  Samples.session 3 ++ [other_message].

(** Four requests answered and the fifth refused. For the run of the
    snippets that is its second update; for the run of the summary, with
    three memories to insert, its one update. *)
Definition fifth_request_refused : list bool := [false; false; false; false; true].

End RunSamples.

(** * Properties *)

Module S := Supabase.
Module MA := MemoryArchitecture.

(** ** Requests and the fault schedule *)

Section requests.

Import Supabase.

Lemma execute_answered {R A} (q : world R → A * world R) (w : world R) :
  answered w →
  execute q w = (Ok (q (after_request w)).1, (q (after_request w)).2).
Proof.
  unfold answered, execute, after_request. destruct w as [ms rs us fs c]; simpl.
  destruct fs as [|[] fs]; simpl; intros H; try done; by destruct (q _).
Qed.

Lemma execute_refused {R A} (q : world R → A * world R) (w : world R) :
  head (faults w) = Some true →
  execute q w = (Raise (Exception "request failed"), after_request w).
Proof.
  unfold execute, after_request. destruct (faults w) as [|[] fs]; simpl; by intros [=].
Qed.

Lemma chat_messages_after_request {R} (w : world R) :
  chat_messages (after_request w) = chat_messages w.
Proof. done. Qed.

End requests.

(** ** The trigger of /chat *)

Section chat_trigger.

(** C1. After a handled /chat request (the count request is answered; in
    the summary's version the chat turn gave a result and the request names
    a session), a background extraction thread is started exactly when the
    number of chat_messages rows of the session is positive and divisible
    by 20, with the session and user of the request as its arguments; for
    every other count none is started. Both versions of main.py. *)
Theorem chat_trigger_every_20
    (selfA : CodeSnippets.workflow) (wA : S.world CodeSnippets.memory_row)
    (wB : S.world ExecutionSummary.memory_row) (uid sid : string) :
  CodeSnippets.supabase_credentials selfA = true →
  answered wA → answered wB → sid ≠ "" →
  (∃ started,
      (CodeSnippets.chat_memory_trigger selfA (CodeSnippets.ChatRequest uid sid) wA).1
        = Ok started
      ∧ (is_Some started ↔ (session_count sid wA > 0 ∧ session_count sid wA `mod` 20 = 0)%Z)
      ∧ (is_Some started →
           started = Some (CodeSnippets.StateForMemory uid sid (session_count sid wA))))
  ∧ (∃ started,
      (ExecutionSummary.chat_memory_trigger true true
         (ExecutionSummary.ChatRequest uid sid) wB).1 = Ok started
      ∧ (is_Some started ↔ (session_count sid wB > 0 ∧ session_count sid wB `mod` 20 = 0)%Z)
      ∧ (is_Some started → started = Some (sid, uid))).
Proof.
  intros Hcred HA HB Hsid. split.
  - unfold CodeSnippets.chat_memory_trigger, CodeSnippets.get_session_message_count.
    rewrite Hcred. simpl negb. cbv iota.
    unfold S.bind, S.try_except, S.select_chat_messages.
    rewrite (execute_answered _ _ HA). simpl.
    fold (session_count sid wA).
    destruct (bool_decide (session_count sid wA > 0)%Z) eqn:E1;
      destruct (bool_decide (session_count sid wA `mod` 20 = 0)%Z) eqn:E2; simpl;
      eexists; (split; [reflexivity|]);
      try apply bool_decide_eq_true in E1; try apply bool_decide_eq_false in E1;
      try apply bool_decide_eq_true in E2; try apply bool_decide_eq_false in E2;
      (split; [split; [intros [? ?]; try done; auto | intros [? ?]; try done; eauto]|]);
      try (intros [? [=]]); done.
  - unfold ExecutionSummary.chat_memory_trigger, ExecutionSummary.get_session_message_count.
    simpl. rewrite (bool_decide_eq_false_2 _ Hsid). simpl.
    unfold S.bind, S.try_except, S.select_chat_messages.
    rewrite (execute_answered _ _ HB). simpl.
    fold (session_count sid wB).
    destruct (bool_decide (session_count sid wB > 0)%Z) eqn:E1;
      destruct (bool_decide (session_count sid wB `mod` 20 = 0)%Z) eqn:E2; simpl;
      eexists; (split; [reflexivity|]);
      try apply bool_decide_eq_true in E1; try apply bool_decide_eq_false in E1;
      try apply bool_decide_eq_true in E2; try apply bool_decide_eq_false in E2;
      (split; [split; [intros [? ?]; try done; auto | intros [? ?]; try done; eauto]|]);
      try (intros [? [=]]); done.
Qed.

(** When the count request raises, get_session_message_count answers 0
    and no thread is started, whatever the table holds. *)
Lemma chat_trigger_count_refused
    (selfA : CodeSnippets.workflow) (wA : S.world CodeSnippets.memory_row)
    (wB : S.world ExecutionSummary.memory_row) (client result : bool) (uid sid : string) :
  head (S.faults wA) = Some true → head (S.faults wB) = Some true →
  (CodeSnippets.chat_memory_trigger selfA (CodeSnippets.ChatRequest uid sid) wA).1 = Ok None
  ∧ (ExecutionSummary.chat_memory_trigger client result
       (ExecutionSummary.ChatRequest uid sid) wB).1 = Ok None.
Proof.
  intros HA HB. split.
  - unfold CodeSnippets.chat_memory_trigger, CodeSnippets.get_session_message_count.
    unfold S.bind, S.try_except, S.select_chat_messages.
    destruct (negb _); [done|]. by rewrite (execute_refused _ _ HA).
  - unfold ExecutionSummary.chat_memory_trigger, ExecutionSummary.get_session_message_count.
    destruct (result && _); [|done].
    unfold S.bind, S.try_except, S.select_chat_messages.
    destruct (negb _ || _); [done|]. by rewrite (execute_refused _ _ HB).
Qed.

End chat_trigger.

Section chat_trigger_samples.

Import Samples.

Example trigger_at_20 :
  (CodeSnippets.chat_memory_trigger (CodeSnippets.Workflow true None)
     (CodeSnippets.ChatRequest "u1" "s1") (world_of (session 20))).1
  = Ok (Some (CodeSnippets.StateForMemory "u1" "s1" 20)).
Proof. vm_compute. reflexivity. Qed.

Example no_trigger_at_19_and_21 :
  (ExecutionSummary.chat_memory_trigger true true
     (ExecutionSummary.ChatRequest "u1" "s1") (world_of (session 19))).1 = Ok None
  ∧ (ExecutionSummary.chat_memory_trigger true true
     (ExecutionSummary.ChatRequest "u1" "s1") (world_of (session 21))).1 = Ok None
  ∧ (ExecutionSummary.chat_memory_trigger true true
     (ExecutionSummary.ChatRequest "u1" "s1") (world_of (session 0))).1 = Ok None
  ∧ (ExecutionSummary.chat_memory_trigger true true
     (ExecutionSummary.ChatRequest "u1" "s1") (world_of (session 40))).1
    = Ok (Some ("s1", "u1")).
Proof. vm_compute. repeat split; reflexivity. Qed.

Lemma chat_trigger_every_20_witness :
  (∃ started,
      (CodeSnippets.chat_memory_trigger (CodeSnippets.Workflow true None)
         (CodeSnippets.ChatRequest "u1" "s1") (world_of (session 20))).1 = Ok started
      ∧ (is_Some started ↔
           (session_count "s1" (world_of (R:=CodeSnippets.memory_row) (session 20)) > 0
            ∧ session_count "s1" (world_of (R:=CodeSnippets.memory_row) (session 20))
                `mod` 20 = 0)%Z)
      ∧ (is_Some started →
           started = Some (CodeSnippets.StateForMemory "u1" "s1"
                             (session_count "s1"
                                (world_of (R:=CodeSnippets.memory_row) (session 20))))))
  ∧ (∃ started,
      (ExecutionSummary.chat_memory_trigger true true
         (ExecutionSummary.ChatRequest "u1" "s1") (world_of (session 20))).1 = Ok started
      ∧ (is_Some started ↔
           (session_count "s1" (world_of (R:=ExecutionSummary.memory_row) (session 20)) > 0
            ∧ session_count "s1" (world_of (R:=ExecutionSummary.memory_row) (session 20))
                `mod` 20 = 0)%Z)
      ∧ (is_Some started → started = Some ("s1", "u1"))).
Proof.
  apply (chat_trigger_every_20 (CodeSnippets.Workflow true None)
           (world_of (session 20)) (world_of (session 20)) "u1" "s1").
  - reflexivity.
  - unfold answered. simpl. discriminate.
  - unfold answered. simpl. discriminate.
  - discriminate.
Defined.

End chat_trigger_samples.

(** ** extract_all_memories_parallel *)

Section thread_pool.

Import MemoryArchitecture.

(** The three tasks all run at once: none waits for a worker. *)
Lemma future_to_type_pool :
  max_workers future_to_type = 3
  ∧ submitted future_to_type = [Procedural; Semantic; Episodic]
  ∧ running future_to_type = [Procedural; Semantic; Episodic]
  ∧ waiting future_to_type = [].
Proof. by repeat split. Qed.

(** So each of the three futures is done after the duration of its own
    call. *)
Lemma future_to_type_futures duration :
  futures duration future_to_type
  = [Future Procedural (duration Procedural); Future Semantic (duration Semantic);
     Future Episodic (duration Episodic)].
Proof. reflexivity. Qed.

Lemma elem_of_futures duration (f : future) :
  f ∈ futures duration future_to_type ↔ f = Future (task f) (duration (task f)).
Proof.
  rewrite future_to_type_futures. split.
  - intros Hf. repeat (apply elem_of_cons in Hf as [->|Hf]; [done|]).
    by apply elem_of_nil in Hf.
  - intros ->. destruct (task f); set_solver.
Qed.

(** as_completed yields the futures that are done within the timeout, each
    once. *)
Lemma as_completed_yields duration seconds (t : memory_type) :
  t ∈ (as_completed duration future_to_type seconds).1 ↔ duration t ≤ seconds.
Proof.
  unfold as_completed. cbn [fst]. rewrite list_elem_of_fmap. split.
  - intros (f & -> & Hf). apply list_elem_of_filter in Hf as [Hle Hf].
    rewrite merge_sort_Permutation in Hf. apply elem_of_futures in Hf.
    by rewrite Hf in Hle.
  - intros Hle. exists (Future t (duration t)). split; [done|].
    apply list_elem_of_filter. split; [done|].
    rewrite merge_sort_Permutation. by apply elem_of_futures.
Qed.

(** The iterator ends without an error when the three calls are done
    within the timeout, and with TimeoutError when one of them is not. *)
Lemma as_completed_end duration seconds :
  match (as_completed duration future_to_type seconds).2 with
  | None => ∀ t, duration t ≤ seconds
  | Some e => ∃ msg t, e = TimeoutError msg ∧ seconds < duration t
  end.
Proof.
  unfold as_completed. cbn [snd].
  destruct (filter _ _) as [|f rest] eqn:E.
  - intros t. destruct (decide (duration t ≤ seconds)) as [|Hlate]; [done|].
    assert (Hin : Future t (duration t) ∈ @nil future); [|by apply elem_of_nil in Hin].
    rewrite <- E. apply list_elem_of_filter. split; [simpl; lia|].
    rewrite merge_sort_Permutation. by apply elem_of_futures.
  - assert (Hin : f ∈ f :: rest) by left. rewrite <- E in Hin.
    apply list_elem_of_filter in Hin as [Hlate Hin].
    rewrite merge_sort_Permutation in Hin. apply elem_of_futures in Hin.
    eexists _, (task f). split; [done|]. by rewrite Hin in Hlate.
Qed.

Lemma as_completed_in_time duration seconds :
  (∀ t, duration t ≤ seconds) →
  (as_completed duration future_to_type seconds).2 = None.
Proof.
  intros Hle. pose proof (as_completed_end duration seconds) as He.
  destruct (as_completed _ _ _).2 as [e|]; [|done].
  destruct He as (msg & t & _ & Hlate). specialize (Hle t). lia.
Qed.

Lemma as_completed_late duration seconds (t : memory_type) :
  seconds < duration t →
  ∃ msg, (as_completed duration future_to_type seconds).2 = Some (TimeoutError msg).
Proof.
  intros Hlate. pose proof (as_completed_end duration seconds) as He.
  destruct (as_completed _ _ _).2 as [e|].
  - destruct He as (msg & _ & -> & _). by exists msg.
  - specialize (He t). lia.
Qed.

End thread_pool.

Section parallel_extraction.

Import MemoryArchitecture.

Variable json_loads_input : string → option input_data.
Variable detect_data_type : input_dict → string.
Variable data_handlers : gmap string (input_dict → string).
Variable _handle_general_data : input_dict → string.
Variable extract_procedural_memory : string → string → result (list memory_item).
Variable extract_semantic_memory : string → string → result (list memory_item).
Variable extract_episodic_memory : string → string → result (list memory_item).
Variable session_stamp : string.
Variable utc_now : string.

Local Abbreviation future_result :=
  (future_result extract_procedural_memory extract_semantic_memory extract_episodic_memory).
Local Abbreviation collect :=
  (collect extract_procedural_memory extract_semantic_memory extract_episodic_memory).
Local Abbreviation run duration :=
  (extract_all_memories_parallel json_loads_input detect_data_type data_handlers
     _handle_general_data extract_procedural_memory extract_semantic_memory
     extract_episodic_memory session_stamp utc_now duration).

Lemma if_elem_of_head {A} (t : memory_type) (l : list memory_type) (a b : A) :
  (if decide (t ∈ t :: l) then a else b) = a.
Proof. rewrite decide_True; [done | by left]. Qed.

Lemma if_elem_of_other {A} (t t' : memory_type) (l : list memory_type) (a b : A) :
  t ≠ t' →
  (if decide (t ∈ t' :: l) then a else b) = (if decide (t ∈ l) then a else b).
Proof.
  intros Hne. destruct (decide (t ∈ l)) as [Hin|Hin].
  - rewrite decide_True; [done | by right].
  - rewrite decide_False; [done|]. rewrite elem_of_cons. intros [?|?]; done.
Qed.

(** When the three calls return and the iterator ends without an error,
    the loop stores under each type that was yielded the list of its own
    call, and leaves the others. *)
Lemma collect_all_ok fd dt p s e yielded acc :
  future_result fd dt Procedural = Ok p →
  future_result fd dt Semantic = Ok s →
  future_result fd dt Episodic = Ok e →
  ∃ m, collect fd dt yielded None acc = Ok m
    ∧ procedural m = (if decide (Procedural ∈ yielded) then p else procedural acc)
    ∧ semantic m = (if decide (Semantic ∈ yielded) then s else semantic acc)
    ∧ episodic m = (if decide (Episodic ∈ yielded) then e else episodic acc).
Proof.
  intros Hp Hs He. revert acc.
  induction yielded as [|t rest IH]; intros acc.
  - exists acc. by repeat split.
  - cbn [MemoryArchitecture.collect].
    destruct t; [rewrite Hp | rewrite Hs | rewrite He];
      edestruct IH as (m & -> & Hm1 & Hm2 & Hm3); exists m; (split; [done|]);
      rewrite Hm1, Hm2, Hm3; simpl;
      rewrite ?if_elem_of_head, ?if_elem_of_other by done;
      repeat split; try done;
      match goal with |- context [decide ?P] => by destruct (decide P) end.
Qed.

(** When the loop ends normally, the iterator has raised nothing and every
    future it yielded had returned. *)
Lemma collect_ok_inv fd dt yielded at_end acc m :
  collect fd dt yielded at_end acc = Ok m →
  at_end = None ∧ ∀ t, t ∈ yielded → ∃ r, future_result fd dt t = Ok r.
Proof.
  revert acc. induction yielded as [|t' rest IH]; intros acc Hc.
  - cbn [MemoryArchitecture.collect] in Hc. destruct at_end; [done|].
    split; [done|]. intros t Ht. by apply elem_of_nil in Ht.
  - cbn [MemoryArchitecture.collect] in Hc.
    destruct (future_result fd dt t') as [r|err] eqn:E; [|done].
    destruct (IH _ Hc) as [Hend Hall]. split; [done|].
    intros t Ht. apply elem_of_cons in Ht as [->|Ht]; eauto.
Qed.

Local Abbreviation dt_of := (data_type_of detect_data_type).
Local Abbreviation fd_of :=
  (formatted_data_of detect_data_type data_handlers _handle_general_data).

(** C5. A run classifies its input into exactly the three categories
    procedural, semantic and episodic. The three calls are submitted to a
    pool of three workers, so none waits for another: each is done after
    its own duration. When the three calls return, each within the 120
    seconds that as_completed allows, the run returns, whatever the order
    in which they are done, and the list under each category is the list
    its own extraction call returned. A run that returns has had each of
    the three calls return, within the 120 seconds, the list that is under
    its category. *)
Theorem three_categories_one_call_each (d : input_dict) (duration : memory_type → nat) :
  let fd := fd_of d in
  let dt := dt_of d in
  (max_workers future_to_type = 3
   ∧ waiting future_to_type = []
   ∧ futures duration future_to_type
     = [Future Procedural (duration Procedural); Future Semantic (duration Semantic);
        Future Episodic (duration Episodic)])
  ∧ (∀ p s e,
       extract_procedural_memory fd dt = Ok p →
       extract_semantic_memory fd dt = Ok s →
       extract_episodic_memory fd dt = Ok e →
       (∀ t, duration t ≤ 120) →
       ∃ out, run duration (InputObj d) = Ok out
         ∧ memories out = Memories p s e)
  ∧ (∀ out, run duration (InputObj d) = Ok out →
       extract_procedural_memory fd dt = Ok (procedural (memories out))
       ∧ extract_semantic_memory fd dt = Ok (semantic (memories out))
       ∧ extract_episodic_memory fd dt = Ok (episodic (memories out))
       ∧ ∀ t, duration t ≤ 120).
Proof.
  intros fd dt.
  assert (Hrun : ∀ p s e,
    extract_procedural_memory fd dt = Ok p →
    extract_semantic_memory fd dt = Ok s →
    extract_episodic_memory fd dt = Ok e →
    (∀ t, duration t ≤ 120) →
    ∃ out, run duration (InputObj d) = Ok out ∧ memories out = Memories p s e).
  { intros p s e Hp Hs He Hle.
    destruct (collect_all_ok fd dt p s e (as_completed duration future_to_type 120).1
                (Memories [] [] []) Hp Hs He) as (m & Hm & H1 & H2 & H3).
    rewrite decide_True in H1 by by apply as_completed_yields.
    rewrite decide_True in H2 by by apply as_completed_yields.
    rewrite decide_True in H3 by by apply as_completed_yields.
    unfold extract_all_memories_parallel. cbv zeta.
    rewrite (as_completed_in_time duration 120 Hle).
    unfold fd, dt, formatted_data_of, data_type_of in Hm.
    rewrite Hm. eexists. split; [reflexivity|].
    simpl. by rewrite H1, H2, H3. }
  split; [|split].
  - by rewrite future_to_type_futures.
  - exact Hrun.
  - intros out Hout.
    assert (Hc : ∃ m, collect fd dt (as_completed duration future_to_type 120).1
                        (as_completed duration future_to_type 120).2
                        (Memories [] [] []) = Ok m).
    { revert Hout. unfold extract_all_memories_parallel. cbv zeta.
      unfold fd, dt, formatted_data_of, data_type_of.
      destruct (MemoryArchitecture.collect _ _ _ _ _ _ _ _) as [m|err]; [eauto|done]. }
    destruct Hc as [m Hc].
    apply collect_ok_inv in Hc as [Hend Hall].
    assert (Hle : ∀ t, duration t ≤ 120).
    { pose proof (as_completed_end duration 120) as He. by rewrite Hend in He. }
    destruct (Hall Procedural) as [p Hp]; [by apply as_completed_yields|].
    destruct (Hall Semantic) as [s Hs]; [by apply as_completed_yields|].
    destruct (Hall Episodic) as [e He]; [by apply as_completed_yields|].
    simpl in Hp, Hs, He.
    destruct (Hrun p s e Hp Hs He Hle) as (out' & Hout' & Hmem).
    rewrite Hout in Hout'. injection Hout' as <-.
    rewrite Hmem. simpl. by rewrite Hp, Hs, He.
Qed.

(** C9. In the output of a run, total_memories is the sum of the three
    per-category totals, and each total is the length of the list under the
    same category of the memories key. *)
Theorem memory_summary_totals (input : input_data) (duration : memory_type → nat)
    (out : output) :
  run duration input = Ok out →
  total_memories (memory_summary out)
    = total_procedural (memory_summary out) + total_semantic (memory_summary out)
      + total_episodic (memory_summary out)
  ∧ total_procedural (memory_summary out) = length (procedural (memories out))
  ∧ total_semantic (memory_summary out) = length (semantic (memories out))
  ∧ total_episodic (memory_summary out) = length (episodic (memories out)).
Proof.
  unfold extract_all_memories_parallel. intros H.
  repeat match type of H with
  | context [match ?x with _ => _ end] => destruct x eqn:?; try discriminate
  end;
  injection H as <-; simpl; done.
Qed.

End parallel_extraction.

Section parallel_extraction_samples.

Import Samples.

Example sample_run :
  MA.memories <$> (match memory_system (MA.InputObj chat_input) with
                   | Ok out => Some out
                   | Raise _ => None
                   end)
  = Some (MA.Memories [item "breathing exercise"]
            [item "likes music"; item "studies physics"] []).
Proof. vm_compute. reflexivity. Qed.

Example sample_run_raises :
  MA.extract_all_memories_parallel (λ _, None) (λ _, "general") ∅ (λ _, "formatted")
    procedural_call failing_call episodic_call "20251101_000000" "2025-11-01T00:00:00"
    semantic_first (MA.InputObj chat_input)
  = Raise (ValueError "Failed to get LLM response").
Proof. vm_compute. reflexivity. Qed.

Example sample_run_times_out :
  MA.extract_all_memories_parallel (λ _, None) (λ _, "general") ∅ (λ _, "formatted")
    procedural_call semantic_call episodic_call "20251101_000000" "2025-11-01T00:00:00"
    episodic_late (MA.InputObj chat_input)
  = Raise (TimeoutError "1 (of 3) futures unfinished").
Proof. vm_compute. reflexivity. Qed.

(** With one worker the same three calls would be done one after the
    other, and two of three calls of 50 seconds would miss the timeout. *)
Example three_workers_or_one :
  MA.done_at <$> MA.futures (λ _, 50) (MA.Executor 3 [MA.Procedural; MA.Semantic; MA.Episodic])
  = [50; 50; 50]
  ∧ MA.done_at <$> MA.futures (λ _, 50) (MA.Executor 1 [MA.Procedural; MA.Semantic; MA.Episodic])
    = [50; 100; 150]
  ∧ MA.as_completed (λ _, 50) (MA.Executor 1 [MA.Procedural; MA.Semantic; MA.Episodic]) 120
    = ([MA.Procedural; MA.Semantic], Some (TimeoutError "1 (of 3) futures unfinished")).
Proof. vm_compute. done. Qed.

Lemma semantic_first_in_time (t : MA.memory_type) : semantic_first t ≤ 120.
Proof. destruct t; simpl; lia. Defined.

Lemma three_categories_one_call_each_witness :
  ∃ out, memory_system (MA.InputObj chat_input) = Ok out
    ∧ MA.memories out
      = MA.Memories [item "breathing exercise"]
          [item "likes music"; item "studies physics"] [].
Proof.
  exact (proj1 (proj2 (three_categories_one_call_each (λ _, None) (λ _, "general") ∅
    (λ _, "formatted") procedural_call semantic_call episodic_call "20251101_000000"
    "2025-11-01T00:00:00" chat_input semantic_first)) _ _ _ eq_refl eq_refl eq_refl
    semantic_first_in_time).
Defined.

Lemma memory_summary_totals_witness :
  ∃ out, memory_system (MA.InputObj chat_input) = Ok out
    ∧ MA.total_memories (MA.memory_summary out) = 3
    ∧ MA.total_procedural (MA.memory_summary out) = length (MA.procedural (MA.memories out))
    ∧ MA.total_semantic (MA.memory_summary out) = length (MA.semantic (MA.memories out))
    ∧ MA.total_episodic (MA.memory_summary out) = length (MA.episodic (MA.memories out)).
Proof.
  destruct (memory_system (MA.InputObj chat_input)) as [out|e] eqn:E; [|by vm_compute in E].
  exists out. split; [done|].
  destruct (memory_summary_totals (λ _, None) (λ _, "general") ∅ (λ _, "formatted")
    procedural_call semantic_call episodic_call "20251101_000000" "2025-11-01T00:00:00"
    (MA.InputObj chat_input) semantic_first out E) as (Ht & Hp & Hs & He).
  repeat split; try done.
  rewrite Ht, Hp, Hs, He. vm_compute in E. by injection E as <-.
Defined.

End parallel_extraction_samples.

(** ** The Node backend's POST /chat *)

Section node_chat.

Import NodeBackend.

Variable elevenLabsApiKey : option string.
Variable geminiApiKey : option string.
Variable template : js_value → string.
Variable generate : string → result (list message).
Variable synthesizeJson : string → result (string * string).
Variable writeResultToFile : string → string → result unit.
Variable voicesCreate : string → result unit.
Variable lipSyncMessage : nat → result unit.
Variable audioFileToBase64 : string → result string.
Variable readJsonTranscript : string → result string.

Local Abbreviation handler :=
  (chat elevenLabsApiKey geminiApiKey template generate synthesizeJson writeResultToFile
     voicesCreate lipSyncMessage audioFileToBase64 readJsonTranscript).

(** The guard reads the truth value of the field: a falsy message is
    answered like a missing one. *)
Lemma chat_falsy_message (req_body : gmap string js_value) :
  truthy (default JUndefined (req_body !! "message")) = false →
  handler req_body = (Response 400 (ErrorBody "No message provided" None), []).
Proof. intros H. unfold chat. by rewrite H. Qed.

(** C10. A POST /chat whose body has no message field is answered with
    status 400 and the body {"error": "No message provided"}, and the
    handler makes no call at all: none to Gemini, none to text-to-speech. *)
Theorem chat_without_message (req_body : gmap string js_value) :
  req_body !! "message" = None →
  handler req_body = (Response 400 (ErrorBody "No message provided" None), []).
Proof. intros H. apply chat_falsy_message. by rewrite H. Qed.

(** With a message and both keys, the first call goes to Gemini. *)
Lemma chat_with_message_calls_gemini (req_body : gmap string js_value) (v : js_value) :
  req_body !! "message" = Some v → truthy v = true →
  env_truthy elevenLabsApiKey = true → env_truthy geminiApiKey = true →
  head (handler req_body).2 = Some (GeminiGenerateContent (prompt_of template v)).
Proof.
  intros Hv Ht He Hg. unfold chat. rewrite Hv. simpl. rewrite Ht, He, Hg. simpl.
  destruct (generate _) as [ms|e]; simpl; [|done].
  by destruct (speak_all _ _ _ _ _ _ _ _).
Qed.

End node_chat.

Lemma chat_without_message_witness :
  NodeBackend.chat (Some "k1") (Some "k2") (λ _, "hi") (λ _, Ok [])
    (λ _, Raise (Exception "tts")) (λ _ _, Ok ()) (λ _, Ok ()) (λ _, Ok ())
    (λ _, Ok "audio") (λ _, Ok "cues")
    {[ "text" := NodeBackend.JString "hello" ]}
  = (NodeBackend.Response 400 (NodeBackend.ErrorBody "No message provided" None), []).
Proof.
  apply (chat_without_message (Some "k1") (Some "k2") (λ _, "hi") (λ _, Ok [])
    (λ _, Raise (Exception "tts")) (λ _ _, Ok ()) (λ _, Ok ()) (λ _, Ok ())
    (λ _, Ok "audio") (λ _, Ok "cues")).
  reflexivity.
Defined.

(** ** _get_llm_response: retries and backoff *)

Section llm_retries.

Import MemoryArchitecture.

Variable generate_content : string → nat → result llm_response.
Variable strip : string → string.
Variable re_search_array : string → option string.
Variable re_sub_fences : string → string.
Variable json_loads : string → option parsed.
Variable prompt : string.

Local Abbreviation answer :=
  (parsed_of generate_content strip re_search_array re_sub_fences json_loads prompt).
Local Abbreviation iter :=
  (iteration generate_content strip re_search_array re_sub_fences json_loads prompt).
Local Abbreviation loop :=
  (retry_loop generate_content strip re_search_array re_sub_fences json_loads prompt).
Local Abbreviation get_llm_response :=
  (_get_llm_response generate_content strip re_search_array re_sub_fences json_loads prompt).

Ltac break_iteration :=
  unfold iteration, try_body, parse_response, sleep_and_continue_or, except_clause,
    parsed_of;
  repeat match goal with
  | |- context [generate_content ?p ?a] => destruct (generate_content p a) as [[]|[]]
  | |- context [json_loads ?s] => destruct (json_loads s) as [[]|]
  end.

(** An attempt whose answer parses to a list ends the loop with that list. *)
Lemma iteration_success attempt max_retries items :
  answer attempt = Some (ParsedList items) →
  iter attempt max_retries = (Ok (Return items), [Generate attempt]).
Proof. break_iteration; simpl; intros [=]; by subst. Qed.

(** A failed attempt that is not the last is followed by a sleep of
    2 ** attempt seconds and by the next attempt. *)
Lemma iteration_failure_retries attempt max_retries :
  (∀ items, answer attempt ≠ Some (ParsedList items)) →
  (Z.of_nat attempt < max_retries - 1)%Z →
  iter attempt max_retries
  = (Ok Continue, [Generate attempt; Sleep (2 ^ Z.of_nat attempt)%Z]).
Proof.
  intros Hfail Hlt.
  assert (E1 : bool_decide (Z.of_nat attempt = max_retries - 1)%Z = false)
    by (apply bool_decide_eq_false_2; lia).
  assert (E2 : bool_decide (Z.of_nat attempt < max_retries - 1)%Z = true)
    by by apply bool_decide_eq_true_2.
  revert Hfail. break_iteration; simpl; intros Hfail; rewrite ?E1, ?E2;
    try done; by edestruct Hfail.
Qed.

(** After the last attempt nothing sleeps: the method raises ValueError,
    except for an answer that is JSON but not a list, where it returns the
    empty list. *)
Lemma iteration_failure_last attempt max_retries :
  (∀ items, answer attempt ≠ Some (ParsedList items)) →
  Z.of_nat attempt = (max_retries - 1)%Z →
  (answer attempt = Some ParsedOther
   ∧ iter attempt max_retries = (Ok (Return []), [Generate attempt]))
  ∨ (answer attempt = None
     ∧ ∃ msg, iter attempt max_retries = (Raise (ValueError msg), [Generate attempt])).
Proof.
  intros Hfail Heq.
  assert (E1 : bool_decide (Z.of_nat attempt = max_retries - 1)%Z = true)
    by by apply bool_decide_eq_true_2.
  assert (E2 : bool_decide (Z.of_nat attempt < max_retries - 1)%Z = false)
    by (apply bool_decide_eq_false_2; lia).
  revert Hfail. break_iteration; simpl; intros Hfail; rewrite ?E1, ?E2;
    try (by edestruct Hfail); try (left; done); right; eauto.
Qed.

Lemma seq_S_head a m : seq a (S m) = a :: seq (S a) m.
Proof. done. Qed.

(** The loop from attempt a on, when the attempts a .. a+k-1 fail and
    attempt a+k parses to a list. *)
Lemma loop_success (n k : nat) : ∀ a m items,
  a + S k ≤ n → k < m →
  (∀ j, a ≤ j < a + k → ∀ items', answer j ≠ Some (ParsedList items')) →
  answer (a + k) = Some (ParsedList items) →
  loop (seq a m) (Z.of_nat n)
  = (Ok items,
     flat_map (λ j, [Generate j; Sleep (2 ^ Z.of_nat j)%Z]) (seq a k) ++ [Generate (a + k)]).
Proof.
  induction k as [|k IH]; intros a m items Hn Hm Hfail Hok.
  - destruct m as [|m]; [lia|]. rewrite seq_S_head. cbn [retry_loop].
    rewrite Nat.add_0_r in *. by rewrite (iteration_success _ _ _ Hok).
  - destruct m as [|m]; [lia|]. rewrite seq_S_head. cbn [retry_loop].
    rewrite iteration_failure_retries; [|apply Hfail; lia|lia].
    rewrite (IH (S a) m items); [| lia | lia | | ].
    + rewrite seq_S_head. simpl. by rewrite Nat.add_succ_r.
    + intros j Hj. apply Hfail. lia.
    + by rewrite Nat.add_succ_l, <- Nat.add_succ_r.
Qed.

(** The loop from attempt a on, when every attempt up to the last fails. *)
Lemma loop_failure (n k : nat) : ∀ a,
  a + S k = n →
  (∀ j, a ≤ j < n → ∀ items', answer j ≠ Some (ParsedList items')) →
  ∃ r, loop (seq a (S k)) (Z.of_nat n)
       = (r, flat_map (λ j, [Generate j; Sleep (2 ^ Z.of_nat j)%Z]) (seq a k)
             ++ [Generate (a + k)])
    ∧ ((answer (n - 1) = Some ParsedOther ∧ r = Ok [])
       ∨ (answer (n - 1) = None ∧ ∃ msg, r = Raise (ValueError msg))).
Proof.
  induction k as [|k IH]; intros a Hn Hfail.
  - rewrite seq_S_head. cbn [retry_loop seq].
    assert (a = n - 1) as -> by lia.
    destruct (iteration_failure_last (n - 1) (Z.of_nat n)) as [[Ha ->]|[Ha [msg ->]]];
      [apply Hfail; lia | lia | |].
    + eexists. split; [by rewrite Nat.add_0_r|]. by left.
    + eexists. split; [by rewrite Nat.add_0_r|]. right. eauto.
  - rewrite seq_S_head. cbn [retry_loop].
    rewrite iteration_failure_retries; [|apply Hfail; lia|lia].
    destruct (IH (S a)) as (r & -> & Hr); [lia | intros j Hj; apply Hfail; lia |].
    exists r. split; [|done].
    rewrite (seq_S_head a k). simpl. by rewrite Nat.add_succ_r.
Qed.

(** C7, as the code has it. With the default of 3 attempts: every failed
    attempt but the last is followed by a sleep of 2 ** attempt seconds (1,
    then 2) and by another attempt; the first answer that parses to a list
    is returned at once; and when all three attempts fail the model has
    been called three times, with sleeps of 1 and 2 seconds in between,
    and the method raises ValueError, unless the last answer was JSON that
    is no list, in which case it returns the empty list. *)
Theorem llm_retries_with_backoff :
  (∀ k items, k < 3 →
     (∀ j, j < k → ∀ items', answer j ≠ Some (ParsedList items')) →
     answer k = Some (ParsedList items) →
     get_llm_response default_max_retries = (Ok items, backoff k))
  ∧ ((∀ j, j < 3 → ∀ items', answer j ≠ Some (ParsedList items')) →
     ∃ r, get_llm_response default_max_retries = (r, backoff 2)
       ∧ backoff 2 = [Generate 0; Sleep 1; Generate 1; Sleep 2; Generate 2]
       ∧ ((answer 2 = Some ParsedOther ∧ r = Ok [])
          ∨ (answer 2 = None ∧ ∃ msg, r = Raise (ValueError msg)))).
Proof.
  split.
  - intros k items Hk Hfail Hok. unfold _get_llm_response, default_max_retries, backoff.
    change (Z.to_nat 3) with 3. change 3%Z with (Z.of_nat 3).
    apply (loop_success 3 k 0 3 items); [lia | lia | intros j Hj; apply Hfail; lia | done].
  - intros Hfail. unfold _get_llm_response, default_max_retries.
    change (Z.to_nat 3) with 3. change 3%Z with (Z.of_nat 3).
    destruct (loop_failure 3 2 0) as (r & Hr & Hcase);
      [lia | intros j Hj; apply Hfail; lia |].
    exists r. split; [exact Hr|]. split; [done|]. exact Hcase.
Qed.

End llm_retries.

Section llm_retries_samples.

Import Samples.

Example dead_model_raises_after_three_calls :
  MA._get_llm_response dead_model id (λ _, None) id loads_list "p" MA.default_max_retries
  = (Raise (ValueError "Failed to get LLM response"),
     [MA.Generate 0; MA.Sleep 1; MA.Generate 1; MA.Sleep 2; MA.Generate 2]).
Proof. vm_compute. reflexivity. Qed.

Example object_model_returns_empty_list :
  MA._get_llm_response object_model id (λ _, None) id loads_object "p" MA.default_max_retries
  = (Ok [], [MA.Generate 0; MA.Sleep 1; MA.Generate 1; MA.Sleep 2; MA.Generate 2]).
Proof. vm_compute. reflexivity. Qed.

Lemma llm_retries_with_backoff_witness :
  MA._get_llm_response flaky_model id (λ _, None) id loads_list "p" MA.default_max_retries
  = (Ok [item "m"], backoff 2).
Proof.
  apply (proj1 (llm_retries_with_backoff flaky_model id (λ _, None) id loads_list "p")
           2 [item "m"]).
  - lia.
  - intros j Hj items'. destruct j as [|[|j]]; [discriminate | discriminate | lia].
  - reflexivity.
Defined.

(** C7 as stated fails: three failed attempts need not end in an error. The
    model answers each attempt with a JSON object; the method warns, sleeps
    and retries twice, and then returns the empty list. *)
Lemma llm_final_failure_without_error :
  ¬ (∀ (generate_content : string → nat → result MA.llm_response)
       (strip : string → string) (re_search_array : string → option string)
       (re_sub_fences : string → string) (json_loads : string → option MA.parsed)
       (prompt : string),
       (∀ j, j < 3 → ∀ items,
          parsed_of generate_content strip re_search_array re_sub_fences json_loads prompt j
          ≠ Some (MA.ParsedList items)) →
       ∃ e, (MA._get_llm_response generate_content strip re_search_array re_sub_fences
               json_loads prompt MA.default_max_retries).1 = Raise e).
Proof.
  intros H.
  destruct (H object_model id (λ _, None) id loads_object "p") as [e He].
  - intros j _ items. discriminate.
  - vm_compute in He. discriminate.
Qed.

End llm_retries_samples.

(** ** The query builder *)

Section queries.

Import Supabase.

#[local] Instance created_le_total : Total created_le.
Proof. intros a b. unfold created_le. lia. Qed.
#[local] Instance created_le_trans : Transitive created_le.
Proof. intros a b c. unfold created_le. lia. Qed.
#[local] Instance created_ge_total : Total created_ge.
Proof. intros a b. unfold created_ge. lia. Qed.
#[local] Instance created_ge_trans : Transitive created_ge.
Proof. intros a b c. unfold created_ge. lia. Qed.

Lemma order_created_at_perm desc rows : order_created_at desc rows ≡ₚ rows.
Proof. unfold order_created_at. destruct desc; apply merge_sort_Permutation. Qed.

Lemma order_created_at_sorted rows :
  StronglySorted created_le (order_created_at false rows).
Proof. apply StronglySorted_merge_sort; apply _. Qed.

Lemma elem_of_limit {A} n (rows : list A) x : x ∈ limit n rows → x ∈ rows.
Proof. unfold limit. rewrite elem_of_take. intros (i & Hi & _). by eapply list_elem_of_lookup_2. Qed.

Lemma elem_of_unprocessed sid rows m :
  m ∈ unprocessed sid rows ↔
  m ∈ rows ∧ session_id m = sid ∧ processed_into_memory m = false.
Proof.
  unfold unprocessed, eq_processed_into_memory, eq_session_id.
  rewrite !list_elem_of_filter. tauto.
Qed.

(** What a window of at most n unprocessed rows holds, whichever of the two
    queries selected it. *)
Lemma window_rows sid n rows m :
  m ∈ limit n (order_created_at false (unprocessed sid rows)) →
  m ∈ rows ∧ session_id m = sid ∧ processed_into_memory m = false.
Proof.
  intros H%elem_of_limit. rewrite order_created_at_perm in H.
  by apply elem_of_unprocessed.
Qed.

Lemma window_length sid n rows :
  length (limit n (order_created_at false (unprocessed sid rows))) ≤ n.
Proof. unfold limit. rewrite length_take. lia. Qed.

(** The window is taken from the old end: a row of the session that is
    left out is no older than any row taken. *)
Lemma window_oldest sid n rows m m' :
  m ∈ limit n (order_created_at false (unprocessed sid rows)) →
  m' ∈ drop n (order_created_at false (unprocessed sid rows)) →
  (created_at m ≤ created_at m')%Z.
Proof.
  intros Hm Hm'.
  pose proof (order_created_at_sorted (unprocessed sid rows)) as Hs.
  rewrite <- (take_drop n (order_created_at false (unprocessed sid rows))) in Hs.
  apply StronglySorted_app in Hs as (Hle & _ & _). by apply Hle.
Qed.

Lemma primary_key_inj rows m m' :
  primary_key rows → m ∈ rows → m' ∈ rows → id m = id m' → m = m'.
Proof.
  unfold primary_key. induction rows as [|r rows IH]; [set_solver|].
  rewrite fmap_cons, NoDup_cons, !elem_of_cons.
  intros [Hr Hnd] [->|Hm] [->|Hm'] Hid; try done.
  - exfalso. apply Hr. rewrite Hid. by apply list_elem_of_fmap_2.
  - exfalso. apply Hr. rewrite <- Hid. by apply list_elem_of_fmap_2.
  - by apply IH.
Qed.

(** Under the primary key, an update that names the ids of some rows
    reaches exactly these rows. *)
Lemma update_in_id_exact at_ window rows :
  primary_key rows → window ⊆ rows →
  update_in_id at_ (id <$> window) rows = marked_exactly at_ window rows.
Proof.
  intros Hpk Hsub. unfold update_in_id, marked_exactly.
  apply list_fmap_ext. intros i m Hm%list_elem_of_lookup_2.
  destruct (decide (m ∈ window)) as [Hin|Hnin].
  - rewrite decide_True; [done | by apply list_elem_of_fmap_2].
  - rewrite decide_False; [done|].
    intros (m' & Hid & Hm')%list_elem_of_fmap.
    apply Hnin. by rewrite (primary_key_inj rows m m' Hpk Hm (Hsub _ Hm') Hid).
Qed.

(** One update per id, as the loop of the snippets sends them, adds up to
    one update over all the ids. *)
Lemma update_eq_id_fold t ids : ∀ rows,
  foldl (λ rows i, update_eq_id (Some t) i rows) rows ids
  = update_in_id (Some t) ids rows.
Proof.
  induction ids as [|i ids IH]; intros rows; simpl.
  - unfold update_in_id. rewrite <- (list_fmap_id rows) at 1.
    apply list_fmap_ext. intros j m _. rewrite decide_False; [done | set_solver].
  - rewrite IH. unfold update_in_id, update_eq_id. rewrite <- list_fmap_compose.
    apply list_fmap_ext. intros j m _. simpl.
    destruct (decide (id m = i)) as [Heq|Hne]; simpl.
    + rewrite (decide_True (P := id m ∈ i :: ids)) by (rewrite Heq; by left).
      by destruct (decide _).
    + destruct (decide (id m ∈ ids)) as [Hin|Hnin].
      * rewrite decide_True; [done | by right].
      * rewrite decide_False; [done|]. rewrite elem_of_cons. by intros [?|?].
Qed.

(** Once exactly the rows of a window are marked, a window selected from
    the resulting table shares no id with it. *)
Lemma marked_window_not_selected at_ window rows sid n m' :
  primary_key rows → window ⊆ rows →
  m' ∈ limit n (order_created_at false (unprocessed sid (marked_exactly at_ window rows))) →
  id m' ∉ id <$> window.
Proof.
  intros Hpk Hsub Hm'. apply window_rows in Hm' as (Hin & _ & Hf).
  unfold marked_exactly in Hin. apply list_elem_of_fmap in Hin as (m & -> & Hm).
  destruct (decide (m ∈ window)) as [Hw|Hw]; [done|].
  intros (m2 & Hid & Hm2)%list_elem_of_fmap. apply Hw.
  by rewrite (primary_key_inj rows m m2 Hpk Hm (Hsub _ Hm2) Hid).
Qed.

End queries.

(** ** Running requests *)

Section running.

Import Supabase.

Lemma bind_ok {R A B} (m : M R A) (k : A → M R B) w a w' :
  m w = (Ok a, w') → bind m k w = k a w'.
Proof. unfold bind. by intros ->. Qed.

Lemma bind_raise {R A B} (m : M R A) (k : A → M R B) w e w' :
  m w = (Raise e, w') → bind m k w = (Raise e, w').
Proof. unfold bind. by intros ->. Qed.

Lemma try_except_ok {R A} (m : M R A) h w a w' :
  m w = (Ok a, w') → try_except m h w = (Ok a, w').
Proof. unfold try_except. by intros ->. Qed.

Lemma try_except_raise {R A} (m : M R A) h w e w' :
  m w = (Raise e, w') → try_except m h w = h e w'.
Proof. unfold try_except. by intros ->. Qed.

(** With nothing scheduled to fail, a request is answered and the schedule
    stays empty. *)
Lemma execute_quiet {R A} (q : world R → A * world R) (w : world R) :
  faults w = [] → execute q w = (Ok (q w).1, (q w).2).
Proof. intros H. unfold execute. rewrite H. by destruct (q w). Qed.

Lemma select_chat_messages_answered {R A} (q : list chat_message → A) (w : world R) :
  answered w →
  select_chat_messages q w = (Ok (q (chat_messages w)), after_request w).
Proof. intros H. unfold select_chat_messages. by rewrite execute_answered. Qed.

Lemma select_user_activities_answered {R A} (q : list activity → A) (w : world R) :
  answered w →
  select_user_activities q w = (Ok (q (user_activities w)), after_request w).
Proof. intros H. unfold select_user_activities. by rewrite execute_answered. Qed.

Lemma select_memories_answered {R A} (q : list R → A) (w : world R) :
  answered w →
  select_memories q w = (Ok (q (memories w)), after_request w).
Proof. intros H. unfold select_memories. by rewrite execute_answered. Qed.

Lemma insert_memory_answered {R} (row : R) (w : world R) :
  answered w →
  insert_memory row w = (Ok (), set_memories (memories w ++ [row]) (after_request w)).
Proof. intros H. unfold insert_memory. by rewrite execute_answered. Qed.

Lemma insert_memory_refused {R} (row : R) (w : world R) :
  head (faults w) = Some true →
  insert_memory row w = (Raise (Exception "request failed"), after_request w).
Proof. intros H. unfold insert_memory. by rewrite execute_refused. Qed.

Lemma update_chat_messages_answered {R} u (w : world R) :
  answered w →
  update_chat_messages u w
  = (Ok (), set_chat_messages (u (chat_messages w)) (after_request w)).
Proof. intros H. unfold update_chat_messages. by rewrite execute_answered. Qed.

Lemma update_chat_messages_refused {R} u (w : world R) :
  head (faults w) = Some true →
  update_chat_messages u w = (Raise (Exception "request failed"), after_request w).
Proof. intros H. unfold update_chat_messages. by rewrite execute_refused. Qed.

Lemma answered_quiet {R} (w : world R) : faults w = [] → answered w.
Proof. unfold answered. by intros ->. Qed.

Lemma after_request_quiet {R} (w : world R) : faults w = [] → after_request w = w.
Proof. unfold after_request, set_faults. destruct w; simpl. by intros ->. Qed.

(** A request either raises or not, by the head of the schedule. *)
Lemma answered_or_refused {R} (w : world R) :
  answered w ∨ head (faults w) = Some true.
Proof.
  unfold answered. destruct (faults w) as [|[] fs]; simpl; auto.
Qed.

End running.

(** ** A run of the snippets' trigger_memory_extraction *)

Section snippets_run.

Import Supabase.

Lemma snippets_window_rows sid rows m :
  m ∈ CodeSnippets.unprocessed_query sid rows →
  m ∈ rows ∧ session_id m = sid ∧ processed_into_memory m = false.
Proof. apply window_rows. Qed.

Lemma for_each_mark_quiet ids : ∀ (w : world CodeSnippets.memory_row),
  faults w = [] →
  for_each ids CodeSnippets.mark_message w
  = (Ok (), set_chat_messages
              (foldl (λ rows i, update_eq_id (Some (clock w)) i rows) (chat_messages w) ids) w).
Proof.
  induction ids as [|i ids IH]; intros w Hq; simpl.
  - unfold ret. by destruct w.
  - unfold CodeSnippets.mark_message.
    erewrite bind_ok; [|erewrite bind_ok; [|reflexivity]; unfold update_chat_messages;
      by rewrite execute_quiet].
    simpl. rewrite IH by done. by destruct w.
Qed.

(** The snippets' fetch_last_n_messages, which the run does not call, does
    not look at the flag: it returns the oldest rows of the session,
    processed or not. *)
Lemma snippets_fetch_last_n_messages_answered (self : CodeSnippets.workflow) sid n
    (w : world CodeSnippets.memory_row) :
  CodeSnippets.supabase_credentials self = true → answered w →
  (CodeSnippets.fetch_last_n_messages self sid n w).1
  = Ok (limit n (order_created_at false (eq_session_id sid (chat_messages w)))).
Proof.
  intros Hc Ha. unfold CodeSnippets.fetch_last_n_messages. rewrite Hc. cbn [negb].
  erewrite try_except_ok; [|by apply select_chat_messages_answered]. done.
Qed.

(** The snippets' fetch_session_memories returns the three lists of the
    last row stored for the session. *)
Lemma snippets_fetch_session_memories_answered (self : CodeSnippets.workflow) uid sid
    (w : world CodeSnippets.memory_row) latest :
  CodeSnippets.supabase_credentials self = true → answered w →
  last (filter (λ r, CodeSnippets.session_id r = sid) (memories w)) = Some latest →
  (CodeSnippets.fetch_session_memories self uid sid w).1
  = Ok (CodeSnippets.SessionMemories (CodeSnippets.procedural_memories latest)
          (CodeSnippets.semantic_memories latest) (CodeSnippets.episodic_memories latest)).
Proof.
  intros Hc Ha Hlast. unfold CodeSnippets.fetch_session_memories. rewrite Hc. cbn [negb].
  erewrite try_except_ok;
    [|erewrite bind_ok; [|by apply select_memories_answered]; by rewrite Hlast].
  done.
Qed.

(** When every request is answered and the extraction returns, the run
    inserts one row for the result and marks exactly its window. *)
Lemma snippets_run_ok (self : CodeSnippets.workflow) (uid sid : string) (count : Z)
    (w : world CodeSnippets.memory_row) extract out :
  CodeSnippets.supabase_credentials self = true →
  CodeSnippets.memory_system self = Some extract →
  faults w = [] →
  primary_key (chat_messages w) →
  CodeSnippets.unprocessed_query sid (chat_messages w) ≠ [] →
  extract (snippets_input uid sid w) = Ok out →
  ∃ w', CodeSnippets.trigger_memory_extraction self
          (CodeSnippets.StateForMemory uid sid count) w = (Ok (), w')
    ∧ memories w' = memories w ++ [snippets_row uid sid w out]
    ∧ chat_messages w'
      = marked_exactly (Some (clock w))
          (CodeSnippets.unprocessed_query sid (chat_messages w)) (chat_messages w).
Proof.
  intros Hcred Hms Hq Hpk Hwin Hex.
  assert (Hsub : CodeSnippets.unprocessed_query sid (chat_messages w) ⊆ chat_messages w).
  { intros m Hm. by apply snippets_window_rows in Hm as [? _]. }
  unfold CodeSnippets.trigger_memory_extraction. simpl. rewrite Hcred, Hms. simpl.
  unfold snippets_row. unfold snippets_input in Hex.
  destruct (CodeSnippets.unprocessed_query sid (chat_messages w)) as [|m0 win] eqn:Ewin;
    [done|].
  eexists. split.
  - apply try_except_ok.
    erewrite bind_ok;
      [|by rewrite select_chat_messages_answered, after_request_quiet
          by auto using answered_quiet].
    rewrite Ewin.
    erewrite bind_ok;
      [|by rewrite select_user_activities_answered, after_request_quiet
          by auto using answered_quiet].
    erewrite bind_ok; [|unfold lift; by rewrite Hex].
    erewrite bind_ok;
      [|by rewrite insert_memory_answered, after_request_quiet
          by auto using answered_quiet].
    apply for_each_mark_quiet. done.
  - split; [done|].
    cbn [chat_messages set_chat_messages set_memories clock].
    rewrite update_eq_id_fold. rewrite <- Ewin in Hsub |- *. by apply update_in_id_exact.
Qed.

(** When the insert raises, the run raises too, and no row of either
    table has changed. *)
Lemma snippets_run_insert_refused (self : CodeSnippets.workflow) (uid sid : string)
    (count : Z) (w : world CodeSnippets.memory_row) extract out fs :
  CodeSnippets.supabase_credentials self = true →
  CodeSnippets.memory_system self = Some extract →
  faults w = false :: false :: true :: fs →
  CodeSnippets.unprocessed_query sid (chat_messages w) ≠ [] →
  extract (snippets_input uid sid w) = Ok out →
  ∃ e w', CodeSnippets.trigger_memory_extraction self
            (CodeSnippets.StateForMemory uid sid count) w = (Raise e, w')
    ∧ memories w' = memories w
    ∧ chat_messages w' = chat_messages w.
Proof.
  intros Hcred Hms Hf Hwin Hex.
  unfold CodeSnippets.trigger_memory_extraction. simpl. rewrite Hcred, Hms. simpl.
  unfold snippets_input in Hex.
  destruct (CodeSnippets.unprocessed_query sid (chat_messages w)) as [|m0 win] eqn:Ewin;
    [done|].
  do 2 eexists. split.
  - erewrite try_except_raise; [reflexivity|].
    erewrite bind_ok;
      [|apply select_chat_messages_answered; unfold answered; by rewrite Hf].
    rewrite Ewin.
    erewrite bind_ok;
      [|apply select_user_activities_answered; unfold answered; simpl; by rewrite Hf].
    change (user_activities (after_request w)) with (user_activities w).
    erewrite bind_ok; [|unfold lift; by rewrite Hex].
    erewrite bind_raise; [reflexivity|].
    apply insert_memory_refused. simpl. by rewrite Hf.
  - done.
Qed.

(** After a run that went through, a run started on the resulting table
    selects none of the messages of the first. *)
Lemma snippets_next_window_disjoint (self : CodeSnippets.workflow) (uid sid : string)
    (count : Z) (w : world CodeSnippets.memory_row) extract out m' :
  CodeSnippets.supabase_credentials self = true →
  CodeSnippets.memory_system self = Some extract →
  faults w = [] →
  primary_key (chat_messages w) →
  CodeSnippets.unprocessed_query sid (chat_messages w) ≠ [] →
  extract (snippets_input uid sid w) = Ok out →
  m' ∈ CodeSnippets.unprocessed_query sid
         (chat_messages (CodeSnippets.trigger_memory_extraction self
                           (CodeSnippets.StateForMemory uid sid count) w).2) →
  id m' ∉ id <$> CodeSnippets.unprocessed_query sid (chat_messages w).
Proof.
  intros Hcred Hms Hq Hpk Hwin Hex.
  destruct (snippets_run_ok self uid sid count w extract out Hcred Hms Hq Hpk Hwin Hex)
    as (w' & Hrun & _ & Hmarked).
  rewrite Hrun. cbn [snd]. rewrite Hmarked.
  apply marked_window_not_selected; [done|].
  intros m Hm. by apply snippets_window_rows in Hm as [? _].
Qed.

End snippets_run.

(** ** A run of the summary's trigger_memory_extraction *)

Section summary_run.

Import Supabase.

Variable json_dumps : MemoryArchitecture.memory_item → string.

Lemma summary_window_rows sid n rows m :
  m ∈ ExecutionSummary.unprocessed_query sid n rows →
  m ∈ rows ∧ session_id m = sid ∧ processed_into_memory m = false.
Proof. apply window_rows. Qed.

Lemma ids_of_to_message rows :
  ExecutionSummary.ids_of (ExecutionSummary.to_message <$> rows) = id <$> rows.
Proof.
  unfold ExecutionSummary.ids_of. induction rows as [|r rows IH]; [done|].
  simpl. f_equal. exact IH.
Qed.

Lemma fetch_last_n_messages_answered (self : ExecutionSummary.workflow) sid n
    (w : world ExecutionSummary.memory_row) :
  ExecutionSummary.supabase self = true → sid ≠ "" → answered w →
  ExecutionSummary.fetch_last_n_messages self sid n w
  = (Ok (ExecutionSummary.to_message
           <$> ExecutionSummary.unprocessed_query sid n (chat_messages w)),
     after_request w).
Proof.
  intros Hs Hsid Ha. unfold ExecutionSummary.fetch_last_n_messages.
  rewrite Hs, (bool_decide_eq_false_2 _ Hsid). simpl.
  apply try_except_ok. erewrite bind_ok; [|by apply select_chat_messages_answered]. done.
Qed.

(** A failed select is swallowed: the run sees an empty window. *)
Lemma fetch_last_n_messages_refused (self : ExecutionSummary.workflow) sid n
    (w : world ExecutionSummary.memory_row) :
  head (faults w) = Some true →
  ∃ w', ExecutionSummary.fetch_last_n_messages self sid n w = (Ok [], w')
    ∧ chat_messages w' = chat_messages w ∧ memories w' = memories w.
Proof.
  intros Hf. unfold ExecutionSummary.fetch_last_n_messages.
  destruct (negb _ || _); [by eexists|].
  eexists. split.
  - erewrite try_except_raise; [reflexivity|].
    erewrite bind_raise; [reflexivity|].
    unfold select_chat_messages. by apply execute_refused.
  - done.
Qed.

(** One insert: it is tried once, its failure is swallowed, and
    chat_messages is not touched. *)
Lemma save_memory_run uid sid t memory (w : world ExecutionSummary.memory_row) :
  ∃ b w', ExecutionSummary.save_memory json_dumps uid sid t memory w = (Ok b, w')
    ∧ chat_messages w' = chat_messages w
    ∧ faults w' = tail (faults w)
    ∧ clock w' = clock w
    ∧ (faults w = [] →
       memories w' = memories w ++ rows_of json_dumps uid sid (clock w) t [memory])
    ∧ (head (faults w) = Some true → memories w' = memories w).
Proof.
  unfold ExecutionSummary.save_memory, now.
  destruct (answered_or_refused w) as [Ha|Hr].
  - exists true. eexists. split.
    + apply try_except_ok. erewrite bind_ok; [|reflexivity].
      erewrite bind_ok; [|by apply insert_memory_answered]. reflexivity.
    + repeat split; try done; try (intros Hr; by rewrite Hr in Ha).
  - exists false. eexists. split.
    + erewrite try_except_raise; [reflexivity|].
      erewrite bind_ok; [|reflexivity].
      erewrite bind_raise; [reflexivity|]. by apply insert_memory_refused.
    + repeat split; try done; try (intros Hq; by rewrite Hq in Hr).
Qed.

Lemma save_memories_run uid sid t todo : ∀ saved (w : world ExecutionSummary.memory_row),
  ∃ n w', ExecutionSummary.save_memories json_dumps uid sid t todo saved w = (Ok n, w')
    ∧ chat_messages w' = chat_messages w
    ∧ faults w' = drop (length todo) (faults w)
    ∧ clock w' = clock w
    ∧ (faults w = [] →
       memories w' = memories w ++ rows_of json_dumps uid sid (clock w) t todo).
Proof.
  induction todo as [|memory todo IH]; intros saved w.
  - exists saved, w. repeat split; try done. intros _. by rewrite app_nil_r.
  - destruct (save_memory_run uid sid t memory w) as (b & w1 & H1 & Hc1 & Hf1 & Hk1 & Hm1 & Hr1).
    destruct (IH (if b then S saved else saved) w1) as (n & w' & H2 & Hc2 & Hf2 & Hk2 & Hm2).
    exists n, w'. split; [|repeat split].
    + cbn [ExecutionSummary.save_memories]. erewrite bind_ok; [|exact H1]. exact H2.
    + congruence.
    + rewrite Hf2, Hf1. destruct (faults w); simpl; [by rewrite drop_nil | done].
    + congruence.
    + intros Hq. rewrite Hm2 by (by rewrite Hf1, Hq). rewrite Hm1, Hk1 by done.
      unfold rows_of. rewrite fmap_cons. simpl. by rewrite <- app_assoc.
Qed.

Lemma save_all_run uid sid result (w : world ExecutionSummary.memory_row) :
  ∃ n w', ExecutionSummary.save_all json_dumps uid sid result w = (Ok n, w')
    ∧ chat_messages w' = chat_messages w
    ∧ faults w' = drop (memories_in result) (faults w)
    ∧ clock w' = clock w
    ∧ (faults w = [] →
       memories w' = memories w ++ all_rows_of json_dumps uid sid (clock w) result).
Proof.
  unfold ExecutionSummary.save_all, memories_in, all_rows_of.
  set (lp := ExecutionSummary.memories_of result MemoryArchitecture.Procedural).
  set (ls := ExecutionSummary.memories_of result MemoryArchitecture.Semantic).
  set (le := ExecutionSummary.memories_of result MemoryArchitecture.Episodic).
  destruct (save_memories_run uid sid MemoryArchitecture.Procedural lp 0 w)
    as (n1 & w1 & H1 & Hc1 & Hf1 & Hk1 & Hm1).
  destruct (save_memories_run uid sid MemoryArchitecture.Semantic ls n1 w1)
    as (n2 & w2 & H2 & Hc2 & Hf2 & Hk2 & Hm2).
  destruct (save_memories_run uid sid MemoryArchitecture.Episodic le n2 w2)
    as (n3 & w3 & H3 & Hc3 & Hf3 & Hk3 & Hm3).
  exists n3, w3. split; [|repeat split].
  - erewrite bind_ok; [|exact H1]. erewrite bind_ok; [|exact H2]. exact H3.
  - congruence.
  - rewrite Hf3, Hf2, Hf1, !drop_drop. f_equal. lia.
  - congruence.
  - intros Hq.
    assert (Hq1 : faults w1 = []) by (by rewrite Hf1, Hq, drop_nil).
    assert (Hq2 : faults w2 = []) by (by rewrite Hf2, Hq1, drop_nil).
    rewrite Hm3, Hm2, Hm1, Hk2, Hk1 by done. by rewrite <- !app_assoc.
Qed.

Lemma mark_messages_answered window (w : world ExecutionSummary.memory_row) :
  window ≠ [] → answered w →
  ExecutionSummary.mark_messages (ExecutionSummary.to_message <$> window) w
  = (Ok (), set_chat_messages (update_in_id None (id <$> window) (chat_messages w))
              (after_request w)).
Proof.
  intros Hne Ha. unfold ExecutionSummary.mark_messages. rewrite ids_of_to_message.
  destruct window as [|m0 win]; [done|]. rewrite fmap_cons.
  apply try_except_ok. by apply update_chat_messages_answered.
Qed.

(** A failed update is swallowed too: the run ends normally and the window
    stays unprocessed. *)
Lemma mark_messages_refused messages (w : world ExecutionSummary.memory_row) :
  head (faults w) = Some true →
  ∃ w', ExecutionSummary.mark_messages messages w = (Ok (), w')
    ∧ chat_messages w' = chat_messages w ∧ memories w' = memories w.
Proof.
  intros Hr. unfold ExecutionSummary.mark_messages.
  destruct (ExecutionSummary.ids_of messages) as [|i ids]; [by eexists|].
  eexists. split.
  - erewrite try_except_raise; [reflexivity|]. by apply update_chat_messages_refused.
  - done.
Qed.

(** When the select is answered and the extraction returns, the run tries
    every insert, and then, if the update is answered, marks exactly its
    window: whether the inserts went through plays no part. With nothing
    failing, the rows of all the extracted memories are in the table. *)
Lemma summary_run_marks (self : ExecutionSummary.workflow) (uid sid : string)
    (w : world ExecutionSummary.memory_row) process out :
  ExecutionSummary.supabase self = true → sid ≠ "" →
  ExecutionSummary.memory_system self = Some process →
  answered w →
  head (drop (memories_in out) (tail (faults w))) ≠ Some true →
  primary_key (chat_messages w) →
  ExecutionSummary.unprocessed_query sid 15 (chat_messages w) ≠ [] →
  process (summary_input uid sid w) = Ok out →
  ∃ w', ExecutionSummary.trigger_memory_extraction json_dumps self sid uid w = (Ok (), w')
    ∧ chat_messages w'
      = marked_exactly None
          (ExecutionSummary.unprocessed_query sid 15 (chat_messages w)) (chat_messages w)
    ∧ (faults w = [] →
       memories w' = memories w ++ all_rows_of json_dumps uid sid (clock w) out).
Proof.
  intros Hs Hsid Hms Ha Hup Hpk Hwin Hex.
  assert (Hsub : ExecutionSummary.unprocessed_query sid 15 (chat_messages w)
                 ⊆ chat_messages w).
  { intros m Hm. by apply summary_window_rows in Hm as [? _]. }
  unfold summary_input in Hex.
  destruct (save_all_run uid sid out (after_request w))
    as (n & w1 & Hsave & Hc1 & Hf1 & Hk1 & Hm1).
  assert (Ha1 : answered w1) by (unfold answered; by rewrite Hf1).
  pose proof (mark_messages_answered _ w1 Hwin Ha1) as Hmark.
  unfold ExecutionSummary.trigger_memory_extraction. rewrite Hms.
  exists (set_chat_messages
            (update_in_id None
               (id <$> ExecutionSummary.unprocessed_query sid 15 (chat_messages w))
               (chat_messages w1))
            (after_request w1)).
  split; [|split].
  - apply try_except_ok.
    erewrite bind_ok; [|by apply fetch_last_n_messages_answered].
    destruct (ExecutionSummary.unprocessed_query sid 15 (chat_messages w))
      as [|m0 win] eqn:Ewin; [done|].
    rewrite fmap_cons. rewrite fmap_cons in Hex, Hmark.
    erewrite bind_ok; [|unfold lift; by rewrite Hex].
    erewrite bind_ok; [|exact Hsave].
    exact Hmark.
  - cbn [chat_messages set_chat_messages]. rewrite Hc1, chat_messages_after_request.
    by apply update_in_id_exact.
  - intros Hq. cbn [memories set_chat_messages after_request set_faults].
    rewrite Hm1 by (by rewrite after_request_quiet). by rewrite after_request_quiet.
Qed.

(** After a run whose update went through, a run started on the resulting
    table selects none of the messages of the first. *)
Lemma summary_next_window_disjoint (self : ExecutionSummary.workflow) (uid sid : string)
    (w : world ExecutionSummary.memory_row) process out m' :
  ExecutionSummary.supabase self = true → sid ≠ "" →
  ExecutionSummary.memory_system self = Some process →
  answered w →
  head (drop (memories_in out) (tail (faults w))) ≠ Some true →
  primary_key (chat_messages w) →
  ExecutionSummary.unprocessed_query sid 15 (chat_messages w) ≠ [] →
  process (summary_input uid sid w) = Ok out →
  m' ∈ ExecutionSummary.unprocessed_query sid 15
         (chat_messages (ExecutionSummary.trigger_memory_extraction json_dumps self
                           sid uid w).2) →
  id m' ∉ id <$> ExecutionSummary.unprocessed_query sid 15 (chat_messages w).
Proof.
  intros Hs Hsid Hms Ha Hup Hpk Hwin Hex.
  destruct (summary_run_marks self uid sid w process out Hs Hsid Hms Ha Hup Hpk Hwin Hex)
    as (w' & Hrun & Hmarked & _).
  rewrite Hrun. cbn [snd]. rewrite Hmarked.
  apply marked_window_not_selected; [done|].
  intros m Hm. by apply summary_window_rows in Hm as [? _].
Qed.

End summary_run.

(** ** Persisting the memories and marking the window *)

(** C4, as the code has it. For a run whose window is not empty and whose
    extraction returns: the memories are inserted into the memories table
    and then exactly the messages fetched for the run, and no others, are
    marked processed. In the version of src/CODE_SNIPPETS.md a failing
    insert makes the run raise, with no message marked and both tables as
    they were. In the version of the implementation summary an insert that
    fails is logged and skipped, and the fetched messages are marked all
    the same once the update is answered. *)
Theorem extraction_persists_then_marks :
  (∀ (self : CodeSnippets.workflow) (uid sid : string) (count : Z)
     (w : S.world CodeSnippets.memory_row) extract out,
     CodeSnippets.supabase_credentials self = true →
     CodeSnippets.memory_system self = Some extract →
     S.faults w = [] →
     primary_key (S.chat_messages w) →
     CodeSnippets.unprocessed_query sid (S.chat_messages w) ≠ [] →
     extract (snippets_input uid sid w) = Ok out →
     ∃ w', CodeSnippets.trigger_memory_extraction self
             (CodeSnippets.StateForMemory uid sid count) w = (Ok (), w')
       ∧ S.memories w' = S.memories w ++ [snippets_row uid sid w out]
       ∧ S.chat_messages w'
         = marked_exactly (Some (S.clock w))
             (CodeSnippets.unprocessed_query sid (S.chat_messages w)) (S.chat_messages w))
  ∧ (∀ (self : CodeSnippets.workflow) (uid sid : string) (count : Z)
       (w : S.world CodeSnippets.memory_row) extract out fs,
       CodeSnippets.supabase_credentials self = true →
       CodeSnippets.memory_system self = Some extract →
       S.faults w = false :: false :: true :: fs →
       CodeSnippets.unprocessed_query sid (S.chat_messages w) ≠ [] →
       extract (snippets_input uid sid w) = Ok out →
       ∃ e w', CodeSnippets.trigger_memory_extraction self
                 (CodeSnippets.StateForMemory uid sid count) w = (Raise e, w')
         ∧ S.memories w' = S.memories w
         ∧ S.chat_messages w' = S.chat_messages w)
  ∧ (∀ (json_dumps : MA.memory_item → string) (self : ExecutionSummary.workflow)
       (uid sid : string) (w : S.world ExecutionSummary.memory_row) process out,
       ExecutionSummary.supabase self = true → sid ≠ "" →
       ExecutionSummary.memory_system self = Some process →
       answered w →
       head (drop (memories_in out) (tail (S.faults w))) ≠ Some true →
       primary_key (S.chat_messages w) →
       ExecutionSummary.unprocessed_query sid 15 (S.chat_messages w) ≠ [] →
       process (summary_input uid sid w) = Ok out →
       ∃ w', ExecutionSummary.trigger_memory_extraction json_dumps self sid uid w
             = (Ok (), w')
         ∧ S.chat_messages w'
           = marked_exactly None
               (ExecutionSummary.unprocessed_query sid 15 (S.chat_messages w))
               (S.chat_messages w)
         ∧ (S.faults w = [] →
            S.memories w'
            = S.memories w ++ all_rows_of json_dumps uid sid (S.clock w) out)).
Proof.
  split; [|split].
  - intros. by eapply snippets_run_ok.
  - intros. by eapply snippets_run_insert_refused.
  - intros. by eapply summary_run_marks.
Qed.

Section persist_samples.

Import Samples.

Lemma sample_primary_key {R} n : primary_key (S.chat_messages (world_of (R:=R) (session n))).
Proof.
  unfold primary_key, world_of, session. simpl. rewrite <- list_fmap_compose.
  apply NoDup_fmap_2_strong; [|apply NoDup_seq].
  intros x y _ _. simpl. lia.
Qed.

(** C4 as stated fails on the summary's run. Three messages, the select
    answered, the three inserts refused and the update answered: nothing
    reaches the memories table, and the three messages are marked
    processed all the same. *)
Lemma failed_inserts_still_mark :
  let w := S.World (session 3) [] [] [false; true; true; true] 0%Z in
  let w' := (ExecutionSummary.trigger_memory_extraction dumps
               (ExecutionSummary.Workflow true (Some fixed_system)) "s1" "u1" w).2 in
  S.processed_into_memory <$> S.chat_messages w = [false; false; false]
  ∧ S.memories w' = []
  ∧ S.processed_into_memory <$> S.chat_messages w' = [true; true; true].
Proof. vm_compute. repeat split; reflexivity. Qed.

(** The snippets' run on the same messages with the insert refused. *)
Example snippets_failed_insert_marks_nothing :
  let w := S.World (session 3) [] [] [false; false; true] 0%Z in
  let r := CodeSnippets.trigger_memory_extraction
             (CodeSnippets.Workflow true (Some fixed_system))
             (CodeSnippets.StateForMemory "u1" "s1" 20) w in
  r.1 = Raise (Exception "request failed")
  ∧ S.memories r.2 = []
  ∧ S.processed_into_memory <$> S.chat_messages r.2 = [false; false; false].
Proof. vm_compute. repeat split; reflexivity. Qed.

Lemma extraction_persists_then_marks_witness :
  ∃ w', CodeSnippets.trigger_memory_extraction
          (CodeSnippets.Workflow true (Some fixed_system))
          (CodeSnippets.StateForMemory "u1" "s1" 20) (world_of (session 3)) = (Ok (), w')
    ∧ S.memories w'
      = [snippets_row "u1" "s1" (world_of (session 3)) three_memories]
    ∧ S.chat_messages w'
      = marked_exactly (Some 0%Z)
          (CodeSnippets.unprocessed_query "s1" (session 3)) (session 3).
Proof.
  apply (proj1 extraction_persists_then_marks
           (CodeSnippets.Workflow true (Some fixed_system)) "u1" "s1" 20%Z
           (world_of (session 3)) fixed_system three_memories).
  - reflexivity.
  - reflexivity.
  - reflexivity.
  - apply sample_primary_key.
  - vm_compute. discriminate.
  - reflexivity.
Defined.

End persist_samples.

(** ** The memory context of the analyst's prompt *)

Section analyst_prompt.

Import Supabase.

Lemma string_app_assoc (a b c : string) : (a +:+ b) +:+ c = a +:+ (b +:+ c).
Proof.
  induction a as [|x a IH]; [done|].
  change (String x ((a +:+ b) +:+ c) = String x (a +:+ (b +:+ c))). by rewrite IH.
Qed.

(** The loop over the rows sorts each row under its own type. *)
Lemma foldl_append_row data : ∀ acc,
  foldl ExecutionSummary.append_row acc data
  = ExecutionSummary.SessionMemories
      (ExecutionSummary.procedural acc
         ++ filter (λ r, ExecutionSummary.memory_type r = "procedural") data)
      (ExecutionSummary.semantic acc
         ++ filter (λ r, ExecutionSummary.memory_type r = "semantic") data)
      (ExecutionSummary.episodic acc
         ++ filter (λ r, ExecutionSummary.memory_type r = "episodic") data).
Proof.
  induction data as [|row data IH]; intros acc.
  - simpl. rewrite !filter_nil, !app_nil_r. by destruct acc.
  - simpl. rewrite IH. unfold ExecutionSummary.append_row. rewrite !filter_cons.
    cbv beta.
    destruct (decide (ExecutionSummary.memory_type row = "procedural")) as [E1|E1];
      destruct (decide (ExecutionSummary.memory_type row = "semantic")) as [E2|E2];
      destruct (decide (ExecutionSummary.memory_type row = "episodic")) as [E3|E3];
      try (rewrite E1 in E2; discriminate);
      try (rewrite E1 in E3; discriminate);
      try (rewrite E2 in E3; discriminate);
      simpl; by rewrite <- ?app_assoc.
Qed.

Lemma fetch_session_memories_answered (self : ExecutionSummary.workflow) sid
    (w : world ExecutionSummary.memory_row) :
  ExecutionSummary.supabase self = true → sid ≠ "" → answered w →
  ∃ mems, (ExecutionSummary.fetch_session_memories self sid w).1 = Ok mems
    ∧ ExecutionSummary.procedural mems ≡ₚ stored sid "procedural" (memories w)
    ∧ ExecutionSummary.semantic mems ≡ₚ stored sid "semantic" (memories w)
    ∧ ExecutionSummary.episodic mems ≡ₚ stored sid "episodic" (memories w).
Proof.
  intros Hs Hsid Ha. unfold ExecutionSummary.fetch_session_memories.
  rewrite Hs, (bool_decide_eq_false_2 _ Hsid). simpl.
  eexists. split.
  - erewrite try_except_ok; [reflexivity|].
    erewrite bind_ok; [|by apply select_memories_answered]. reflexivity.
  - rewrite foldl_append_row. simpl. unfold stored.
    repeat split; rewrite merge_sort_Permutation, list_filter_filter;
      apply reflexive_eq, list_filter_iff; intros r; tauto.
Qed.

Lemma combined_prompt_split rest state mems :
  ExecutionSummary.combined_prompt rest state mems
  = prompt_head state
    +:+ ExecutionSummary.memory_context mems
    +:+ ExecutionSummary.nl +:+ ExecutionSummary.nl +:+ rest.
Proof.
  unfold ExecutionSummary.combined_prompt, prompt_head.
  by rewrite !string_app_assoc.
Qed.

(** C6. On a chat turn that names its session (with the client configured
    and the request answered), the rows stored for the session are read
    from the memories table and grouped under the three categories, and
    the prompt of the psychological analyst carries their memory context:
    after the activities and voice contexts it holds, when the session has
    memories, the total and one line per category with the number of
    procedural, semantic and episodic memories stored. These three numbers
    are all that the prompt takes from the memories: the prompt is the
    head, that text of counts, and the rest. The fetch_session_memories of
    CODE_SNIPPETS.md, which no prompt uses there, returns the three lists
    of the last row stored for the session. *)
Theorem analyst_prompt_carries_memories :
  (∀ (rest_of_prompt : string) (self : ExecutionSummary.workflow)
     (state : ExecutionSummary.analyst_state) (w : world ExecutionSummary.memory_row),
     let sid := ExecutionSummary.state_session_id state in
     let np := length (stored sid "procedural" (memories w)) in
     let ns := length (stored sid "semantic" (memories w)) in
     let ne := length (stored sid "episodic" (memories w)) in
     ExecutionSummary.supabase self = true → sid ≠ "" → answered w →
     ∃ mems,
       (ExecutionSummary.psychological_analyst_prompt rest_of_prompt self state w).1
         = Ok (prompt_head state
               +:+ ExecutionSummary.memory_context mems
               +:+ ExecutionSummary.nl +:+ ExecutionSummary.nl +:+ rest_of_prompt)
       ∧ ExecutionSummary.procedural mems ≡ₚ stored sid "procedural" (memories w)
       ∧ ExecutionSummary.semantic mems ≡ₚ stored sid "semantic" (memories w)
       ∧ ExecutionSummary.episodic mems ≡ₚ stored sid "episodic" (memories w)
       ∧ ExecutionSummary.memory_context mems
         = if bool_decide (0 < np + ns + ne)
           then (ExecutionSummary.nl +:+ ExecutionSummary.nl +:+ "SESSION MEMORIES ("
                 +:+ pretty (np + ns + ne) +:+ " total):" +:+ ExecutionSummary.nl)
                +:+ ("- Procedural: " +:+ pretty np +:+ " skills/techniques learned"
                     +:+ ExecutionSummary.nl)
                +:+ ("- Semantic: " +:+ pretty ns +:+ " facts/preferences"
                     +:+ ExecutionSummary.nl)
                +:+ ("- Episodic: " +:+ pretty ne +:+ " past experiences"
                     +:+ ExecutionSummary.nl)
           else "")
  ∧ (∀ (self : CodeSnippets.workflow) (uid sid : string)
       (w : world CodeSnippets.memory_row),
       CodeSnippets.supabase_credentials self = true → answered w →
       (CodeSnippets.fetch_session_memories self uid sid w).1
       = Ok (match last (filter (λ r, CodeSnippets.session_id r = sid) (memories w)) with
             | Some latest =>
               CodeSnippets.SessionMemories (CodeSnippets.procedural_memories latest)
                 (CodeSnippets.semantic_memories latest)
                 (CodeSnippets.episodic_memories latest)
             | None => CodeSnippets.SessionMemories [] [] []
             end)).
Proof.
  split.
  - intros rest_of_prompt self state w sid np ns ne Hs Hsid Ha.
    destruct (fetch_session_memories_answered self sid w Hs Hsid Ha)
      as (mems & Hfetch & Hp & Hse & He).
    exists mems. split; [|repeat split; try done].
    + unfold ExecutionSummary.psychological_analyst_prompt.
      fold sid. rewrite (bool_decide_eq_false_2 _ Hsid).
      destruct (ExecutionSummary.fetch_session_memories self sid w) as [r w'] eqn:E.
      simpl in Hfetch. subst r.
      erewrite bind_ok; [|exact E]. simpl. by rewrite combined_prompt_split.
    + unfold ExecutionSummary.memory_context, ExecutionSummary.memory_count.
      unfold np, ns, ne.
      by rewrite <- (Permutation_length Hp), <- (Permutation_length Hse),
        <- (Permutation_length He).
  - intros self uid sid w Hc Ha.
    unfold CodeSnippets.fetch_session_memories. rewrite Hc. cbn [negb].
    destruct (last _) as [latest|] eqn:Hlast;
      (erewrite try_except_ok;
        [|erewrite bind_ok; [|by apply select_memories_answered]; by rewrite Hlast]);
      done.
Qed.

End analyst_prompt.

Section analyst_prompt_samples.

Import Samples.

Example sample_prompt :
  (ExecutionSummary.psychological_analyst_prompt "Answer in JSON."
     (ExecutionSummary.Workflow true None) analyst_state sample_memory_world).1
  = Ok (prompt_head analyst_state +:+ sample_memory_context
        +:+ ExecutionSummary.nl +:+ ExecutionSummary.nl +:+ "Answer in JSON.").
Proof. vm_compute. reflexivity. Qed.

Lemma analyst_prompt_carries_memories_witness :
  ∃ mems,
    (ExecutionSummary.psychological_analyst_prompt "Answer in JSON."
       (ExecutionSummary.Workflow true None) analyst_state sample_memory_world).1
      = Ok (prompt_head analyst_state
            +:+ ExecutionSummary.memory_context mems
            +:+ ExecutionSummary.nl +:+ ExecutionSummary.nl +:+ "Answer in JSON.")
    ∧ ExecutionSummary.memory_context mems = sample_memory_context.
Proof.
  destruct (proj1 analyst_prompt_carries_memories "Answer in JSON."
              (ExecutionSummary.Workflow true None) analyst_state sample_memory_world)
    as (mems & Hprompt & _ & _ & _ & Hctx).
  - reflexivity.
  - discriminate.
  - unfold answered. simpl. discriminate.
  - exists mems. split; [exact Hprompt|]. rewrite Hctx. vm_compute. reflexivity.
Defined.

(** Two memories tables that hold one semantic memory each, with different
    contents: the analyst's prompt is the same for both, and holds the
    number of memories only. *)
Lemma analyst_prompt_ignores_memory_content :
  let prompt rows :=
    (ExecutionSummary.psychological_analyst_prompt "Answer in JSON."
       (ExecutionSummary.Workflow true None) analyst_state
       (S.World [] rows [] [] 0%Z)).1 in
  prompt [memory "s1" "semantic" "likes music" 1]
  = prompt [memory "s1" "semantic" "is allergic to penicillin" 1]
  ∧ prompt [memory "s1" "semantic" "likes music" 1]
    = Ok (prompt_head analyst_state
          +:+ ExecutionSummary.nl +:+ ExecutionSummary.nl +:+ "SESSION MEMORIES (1 total):"
          +:+ ExecutionSummary.nl
          +:+ "- Procedural: 0 skills/techniques learned" +:+ ExecutionSummary.nl
          +:+ "- Semantic: 1 facts/preferences" +:+ ExecutionSummary.nl
          +:+ "- Episodic: 0 past experiences" +:+ ExecutionSummary.nl
          +:+ ExecutionSummary.nl +:+ ExecutionSummary.nl +:+ "Answer in JSON.").
Proof. vm_compute. split; reflexivity. Qed.

End analyst_prompt_samples.

(** ** The oldest messages, not the last ones *)

Section window_samples.

Import Samples.

(** C2 at the first trigger of a session: twenty messages, none processed.
    The summary's fetch_last_n_messages returns messages 1 to 15, the
    fifteen oldest; the last fifteen unprocessed messages are 6 to 20. The
    query of the snippets' trigger_memory_extraction returns all twenty. *)
Theorem fetch_takes_oldest_not_last :
  (ExecutionSummary.fetch_last_n_messages (ExecutionSummary.Workflow true None) "s1" 15
     (world_of (session 20))).1
  = Ok (ExecutionSummary.to_message <$> (message <$> seq 1 15))
  ∧ last_n_unprocessed "s1" 15 (session 20) = message <$> seq 6 15
  ∧ CodeSnippets.unprocessed_query "s1" (session 20) = message <$> seq 1 20.
Proof. vm_compute. repeat split; reflexivity. Qed.

End window_samples.

(** ** Flags are only raised *)

Section flags.

Import Supabase.

Lemma raised_refl rows : raised rows rows.
Proof.
  unfold raised. apply Forall2_same_length_lookup_2; [done|].
  intros i m m' H1 H2. assert (m' = m) as -> by congruence. done.
Qed.

Lemma raised_trans rows1 rows2 rows3 :
  raised rows1 rows2 → raised rows2 rows3 → raised rows1 rows3.
Proof.
  unfold raised. intros H12 H23. eapply Forall2_trans; [|exact H12|exact H23].
  simpl. intros m1 m2 m3 [E1 F1] [E2 F2]. split; [congruence | auto].
Qed.

Lemma raised_ids rows rows' : raised rows rows' → id <$> rows' = id <$> rows.
Proof.
  unfold raised. induction 1 as [|m m' rows rows' [E _] _ IH]; [done|].
  rewrite !fmap_cons. by rewrite E, IH.
Qed.

Lemma raised_primary_key rows rows' : raised rows rows' → primary_key rows → primary_key rows'.
Proof. unfold primary_key. intros H. by rewrite (raised_ids _ _ H). Qed.

Lemma raised_flag rows rows' x :
  raised rows rows' →
  (∃ m, m ∈ rows ∧ id m = x ∧ processed_into_memory m = true) →
  ∃ m', m' ∈ rows' ∧ id m' = x ∧ processed_into_memory m' = true.
Proof.
  unfold raised. intros H (m & Hm & Hid & Hf).
  apply list_elem_of_lookup in Hm as [i Hi].
  destruct (Forall2_lookup_l _ _ _ _ _ H Hi) as (m' & Hi' & E & F).
  exists m'. split; [by eapply list_elem_of_lookup_2|]. split; [congruence | auto].
Qed.

Lemma raised_update_in_id at_ ids rows : raised rows (update_in_id at_ ids rows).
Proof.
  unfold raised, update_in_id. apply Forall2_fmap_r, Forall2_same_length_lookup_2; [done|].
  intros i m m' H1 H2. assert (m' = m) as -> by congruence.
  simpl. by destruct (decide _).
Qed.

Lemma raised_update_eq_id at_ i rows : raised rows (update_eq_id at_ i rows).
Proof.
  unfold raised, update_eq_id. apply Forall2_fmap_r, Forall2_same_length_lookup_2; [done|].
  intros j m m' H1 H2. assert (m' = m) as -> by congruence.
  simpl. by destruct (decide _).
Qed.

Lemma ret_flags {R A} (a : A) : raises_flags_only (ret (R:=R) a).
Proof. intros w. apply raised_refl. Qed.

Lemma raise_flags {R A} e : raises_flags_only (raise (R:=R) (A:=A) e).
Proof. intros w. apply raised_refl. Qed.

Lemma lift_flags {R A} (r : result A) : raises_flags_only (lift (R:=R) r).
Proof. intros w. apply raised_refl. Qed.

Lemma now_flags {R} : raises_flags_only (now (R:=R)).
Proof. intros w. apply raised_refl. Qed.

Lemma bind_flags {R A B} (m : M R A) (k : A → M R B) :
  raises_flags_only m → (∀ a, raises_flags_only (k a)) → raises_flags_only (bind m k).
Proof.
  intros Hm Hk w. unfold bind. specialize (Hm w).
  destruct (m w) as [[a|e] w1]; simpl in *; [|done].
  eapply raised_trans; [exact Hm | apply Hk].
Qed.

Lemma try_except_flags {R A} (m : M R A) h :
  raises_flags_only m → (∀ e, raises_flags_only (h e)) → raises_flags_only (try_except m h).
Proof.
  intros Hm Hh w. unfold try_except. specialize (Hm w).
  destruct (m w) as [[a|e] w1]; simpl in *; [done|].
  eapply raised_trans; [exact Hm | apply Hh].
Qed.

Lemma execute_flags {R A} (q : world R → A * world R) :
  (∀ w, raised (chat_messages w) (chat_messages (q w).2)) →
  raises_flags_only (execute q).
Proof.
  intros Hq w. unfold execute.
  destruct (faults w) as [|[] fs]; simpl.
  - specialize (Hq w). by destruct (q w).
  - apply raised_refl.
  - specialize (Hq (set_faults fs w)). by destruct (q _).
Qed.

Lemma select_chat_messages_flags {R A} (q : list chat_message → A) :
  raises_flags_only (select_chat_messages (R:=R) q).
Proof. apply execute_flags. intros w. apply raised_refl. Qed.

Lemma select_user_activities_flags {R A} (q : list activity → A) :
  raises_flags_only (select_user_activities (R:=R) q).
Proof. apply execute_flags. intros w. apply raised_refl. Qed.

Lemma select_memories_flags {R A} (q : list R → A) :
  raises_flags_only (select_memories q).
Proof. apply execute_flags. intros w. apply raised_refl. Qed.

Lemma insert_memory_flags {R} (row : R) : raises_flags_only (insert_memory row).
Proof. apply execute_flags. intros w. apply raised_refl. Qed.

Lemma update_in_id_flags {R} at_ ids :
  raises_flags_only (update_chat_messages (R:=R) (update_in_id at_ ids)).
Proof. apply execute_flags. intros w. apply raised_update_in_id. Qed.

Lemma update_eq_id_flags {R} at_ i :
  raises_flags_only (update_chat_messages (R:=R) (update_eq_id at_ i)).
Proof. apply execute_flags. intros w. apply raised_update_eq_id. Qed.

Lemma for_each_flags {R A} (xs : list A) (body : A → M R unit) :
  (∀ x, raises_flags_only (body x)) → raises_flags_only (for_each xs body).
Proof.
  intros Hb. induction xs as [|x xs IH]; simpl.
  - apply ret_flags.
  - apply bind_flags; [apply Hb | intros _; apply IH].
Qed.

(** Computations built from the requests above raise flags only. *)
Ltac flags := repeat (intros; first
  [ apply ret_flags | apply raise_flags | apply lift_flags | apply now_flags
  | apply select_chat_messages_flags | apply select_user_activities_flags
  | apply select_memories_flags | apply insert_memory_flags
  | apply update_in_id_flags | apply update_eq_id_flags
  | apply bind_flags | apply try_except_flags | apply for_each_flags
  | match goal with
    | |- raises_flags_only (if ?b then _ else _) => destruct b
    | |- raises_flags_only (match ?x with _ => _ end) => destruct x
    end ]).

(** The run of the snippets, as a whole, raises flags only. *)
Lemma snippets_trigger_memory_extraction_flags self state :
  raises_flags_only (CodeSnippets.trigger_memory_extraction self state).
Proof.
  unfold CodeSnippets.trigger_memory_extraction. flags.
Qed.

Lemma snippets_step_flags self sid uid p :
  raises_flags_only (Threads.snippets_step self sid uid p).
Proof.
  unfold Threads.snippets_step. destruct p as [| | [|]|]; flags.
Qed.

Lemma snippets_trigger_flags self uid sid :
  raises_flags_only (Threads.snippets_trigger self uid sid).
Proof.
  unfold Threads.snippets_trigger, CodeSnippets.chat_memory_trigger,
    CodeSnippets.get_session_message_count. flags.
Qed.

Lemma fetch_last_n_messages_flags self sid n :
  raises_flags_only (ExecutionSummary.fetch_last_n_messages self sid n).
Proof. unfold ExecutionSummary.fetch_last_n_messages. flags. Qed.

Lemma save_memories_flags jd uid sid t todo : ∀ saved,
  raises_flags_only (ExecutionSummary.save_memories jd uid sid t todo saved).
Proof.
  induction todo as [|memory todo IH]; intros saved; simpl.
  - apply ret_flags.
  - apply bind_flags; [unfold ExecutionSummary.save_memory; flags | intros b; apply IH].
Qed.

Lemma mark_messages_flags messages :
  raises_flags_only (ExecutionSummary.mark_messages messages).
Proof.
  unfold ExecutionSummary.mark_messages. flags.
Qed.

(** The run of the summary, as a whole, raises flags only. *)
Lemma summary_trigger_memory_extraction_flags jd self sid uid :
  raises_flags_only (ExecutionSummary.trigger_memory_extraction jd self sid uid).
Proof.
  unfold ExecutionSummary.trigger_memory_extraction.
  flags; intros; first [apply fetch_last_n_messages_flags | apply save_memories_flags
                       | apply mark_messages_flags].
Qed.

Lemma summary_step_flags jd self sid uid p :
  raises_flags_only (Threads.summary_step jd self sid uid p).
Proof.
  unfold Threads.summary_step. destruct p; flags;
    intros; first [apply fetch_last_n_messages_flags | apply save_memories_flags].
Qed.

Lemma summary_trigger_flags client uid sid :
  raises_flags_only (Threads.summary_trigger client uid sid).
Proof.
  unfold Threads.summary_trigger, ExecutionSummary.chat_memory_trigger,
    ExecutionSummary.get_session_message_count. flags.
Qed.

End flags.

(** ** Interleaved runs: a processed message is never fetched again *)

Section interleaving.

Import Supabase Threads.

Context {R : Type}.
Variable step : string → string → phase → M R phase.
Variable trigger : string → string → M R bool.
Context `{!extraction_run step trigger}.

Local Abbreviation exec := (Threads.exec step trigger).
Local Abbreviation exec_all := (Threads.exec_all step trigger).
Local Abbreviation fetched_by := (Threads.fetched_by step trigger).

Lemma save_primary_key i sid role content created_at (w : world R) :
  primary_key (chat_messages w) →
  primary_key (chat_messages (save i sid role content created_at w)).
Proof.
  unfold save, primary_key. intros Hpk. destruct (decide _) as [Hin|Hnin]; [done|].
  simpl. rewrite fmap_app. apply NoDup_app. split; [done|]. split.
  - intros x Hx. simpl. rewrite list_elem_of_singleton. by intros ->.
  - simpl. apply NoDup_singleton.
Qed.

Lemma save_flagged i sid role content created_at (w : world R) x :
  flagged x w → flagged x (save i sid role content created_at w).
Proof.
  unfold save, flagged. intros (m & Hm & Hid & Hf). destruct (decide _); [eauto|].
  exists m. simpl. rewrite elem_of_app. auto.
Qed.

(** Every action leaves chat_messages either with flags raised or with a
    new row at its end. *)
Lemma exec_chat_messages s a :
  raised (chat_messages (db s)) (chat_messages (db (exec s a)))
  ∨ ∃ i sid role content created_at,
      db (exec s a) = save i sid role content created_at (db s).
Proof.
  destruct a as [i sid role content created_at | uid sid | i]; simpl.
  - right. eauto 10.
  - left. pose proof (trigger_raises_flags_only uid sid (db s)) as H.
    by destruct (trigger uid sid (db s)) as [[[]|] w'].
  - left. destruct (threads s !! i) as [th|]; [|apply raised_refl].
    pose proof (step_raises_flags_only (thread_session_id th) (thread_user_id th)
                  (thread_phase th) (db s)) as H.
    by destruct (step _ _ _ _) as [r w'].
Qed.

Lemma exec_primary_key s a :
  primary_key (chat_messages (db s)) → primary_key (chat_messages (db (exec s a))).
Proof.
  intros Hpk. destruct (exec_chat_messages s a) as [H|(i & sid & r & c & t & ->)].
  - by eapply raised_primary_key.
  - by apply save_primary_key.
Qed.

Lemma exec_flagged s a x : flagged x (db s) → flagged x (db (exec s a)).
Proof.
  intros Hf. destruct (exec_chat_messages s a) as [H|(i & sid & r & c & t & ->)].
  - by eapply raised_flag.
  - by apply save_flagged.
Qed.

Lemma exec_all_primary_key actions : ∀ s,
  primary_key (chat_messages (db s)) →
  primary_key (chat_messages (db (exec_all s actions))).
Proof.
  induction actions as [|a actions IH]; intros s Hpk; [done|].
  simpl. apply IH. by apply exec_primary_key.
Qed.

Lemma exec_all_flagged actions x : ∀ s,
  flagged x (db s) → flagged x (db (exec_all s actions)).
Proof.
  induction actions as [|a actions IH]; intros s Hf; [done|].
  simpl. apply IH. by apply exec_flagged.
Qed.

(** The window a thread selects holds no message that is flagged at that
    moment. *)
Lemma fetched_unflagged s i x :
  primary_key (chat_messages (db s)) → x ∈ fetched_by s i → ¬ flagged x (db s).
Proof.
  intros Hpk Hx (m & Hm & Hid & Hf). revert Hx.
  unfold Threads.fetched_by. simpl.
  destruct (threads s !! i) as [th|] eqn:Eth; simpl; [|set_solver].
  destruct (thread_phase th) eqn:Eph; try set_solver.
  destruct (step _ _ _ _) as [r w'] eqn:Estep. simpl.
  rewrite list_lookup_insert_eq by (by eapply lookup_lt_Some). simpl.
  destruct (next_phase r) as [|ids h| |] eqn:Er; try set_solver.
  intros Hx.
  destruct (step_fetches_unprocessed (thread_session_id th) (thread_user_id th)
              (db s) ids h) with (x := x) as (m' & Hm' & Hid' & Hf'); [|done|].
  - by rewrite Estep.
  - assert (m = m') as <-
      by (eapply primary_key_inj; [exact Hpk|done|done|congruence]).
    congruence.
Qed.

(** Once a message is flagged, no select of any thread, after any further
    actions, has it in its window. *)
Lemma flagged_then_not_fetched init before after i x :
  primary_key (chat_messages (db init)) →
  flagged x (db (exec_all init before)) →
  x ∉ fetched_by (exec_all (exec_all init before) after) i.
Proof.
  intros Hpk Hf Hx. eapply fetched_unflagged; [|exact Hx|].
  - by do 2 apply exec_all_primary_key.
  - by apply exec_all_flagged.
Qed.

End interleaving.

(** ** The two versions of the run, as extraction runs *)

Section versions.

Import Supabase Threads.

#[global] Instance snippets_extraction_run (self : CodeSnippets.workflow) :
  extraction_run (snippets_step self) (snippets_trigger self).
Proof.
  split.
  - intros. apply snippets_step_flags.
  - intros. apply snippets_trigger_flags.
  - intros sid uid w ids h Hphase x Hx. revert Hphase.
    unfold snippets_step.
    destruct (CodeSnippets.supabase_credentials self); simpl; [|done].
    destruct (answered_or_refused w) as [Ha|Hr].
    + erewrite bind_ok; [|by apply select_chat_messages_answered].
      destruct (CodeSnippets.unprocessed_query sid (chat_messages w)) as [|m0 win] eqn:Ewin;
        simpl; [done|].
      intros [= <- _].
      rewrite <- fmap_cons, <- Ewin in Hx.
      apply list_elem_of_fmap in Hx as (m & -> & Hm).
      apply snippets_window_rows in Hm as (Hm & _ & Hf). eauto.
    + erewrite bind_raise; [|unfold select_chat_messages; by apply execute_refused].
      done.
Qed.

#[global] Instance summary_extraction_run (json_dumps : MA.memory_item → string)
    (self : ExecutionSummary.workflow) (supabase_client : bool) :
  extraction_run (summary_step json_dumps self) (summary_trigger supabase_client).
Proof.
  split.
  - intros. apply summary_step_flags.
  - intros. apply summary_trigger_flags.
  - intros sid uid w ids h Hphase x Hx. revert Hphase.
    unfold summary_step.
    destruct (ExecutionSummary.supabase self) eqn:Es;
      [destruct (decide (sid = "")) as [->|Hsid]|].
    + unfold ExecutionSummary.fetch_last_n_messages. rewrite Es. simpl. done.
    + destruct (answered_or_refused w) as [Ha|Hr].
      * erewrite bind_ok; [|by apply fetch_last_n_messages_answered].
        destruct (ExecutionSummary.unprocessed_query sid 15 (chat_messages w))
          as [|m0 win] eqn:Ewin; simpl; [done|].
        destruct (ExecutionSummary.memory_system self); simpl; [|done].
        intros [= <- _].
        change (x ∈ ExecutionSummary.ids_of (ExecutionSummary.to_message <$> m0 :: win)) in Hx.
        rewrite ids_of_to_message, <- Ewin in Hx.
        apply list_elem_of_fmap in Hx as (m & -> & Hm).
        apply summary_window_rows in Hm as (Hm & _ & Hf). eauto.
      * destruct (fetch_last_n_messages_refused self sid 15 w Hr) as (w' & Hfetch & _).
        erewrite bind_ok; [|exact Hfetch]. done.
    + unfold ExecutionSummary.fetch_last_n_messages. rewrite Es. simpl. done.
Qed.

End versions.

(** C3. In any interleaving of chat turns that store messages, of /chat
    trigger blocks and of the steps of any number of background runs, with
    any request failing: once a message's processed_into_memory flag is
    true, no select of a later step of any run has that message in its
    window. So a message marked by one run contributes to no extraction
    that selects its window afterwards. Both versions of the run; id is
    the primary key of chat_messages. *)
Theorem processed_message_never_fetched_again :
  (∀ (self : CodeSnippets.workflow) (init : Threads.system CodeSnippets.memory_row)
     (before after : list Threads.action) (i : nat) (x : S.uuid),
     primary_key (S.chat_messages (Threads.db init)) →
     let run := Threads.exec_all (Threads.snippets_step self) (Threads.snippets_trigger self) in
     Threads.flagged x (Threads.db (run init before)) →
     x ∉ Threads.fetched_by (Threads.snippets_step self) (Threads.snippets_trigger self)
           (run (run init before) after) i)
  ∧ (∀ (json_dumps : MA.memory_item → string) (self : ExecutionSummary.workflow)
       (supabase_client : bool) (init : Threads.system ExecutionSummary.memory_row)
       (before after : list Threads.action) (i : nat) (x : S.uuid),
       primary_key (S.chat_messages (Threads.db init)) →
       let run := Threads.exec_all (Threads.summary_step json_dumps self)
                    (Threads.summary_trigger supabase_client) in
       Threads.flagged x (Threads.db (run init before)) →
       x ∉ Threads.fetched_by (Threads.summary_step json_dumps self)
             (Threads.summary_trigger supabase_client)
             (run (run init before) after) i).
Proof.
  split.
  - intros self init before after i x Hpk run Hf.
    by apply (flagged_then_not_fetched _ _ init before after i x).
  - intros jd self client init before after i x Hpk run Hf.
    by apply (flagged_then_not_fetched _ _ init before after i x).
Qed.

(** ** The steps of a thread add up to the run *)

Section refinement.

Import Supabase Threads.

Lemma fetch_last_n_messages_total (self : ExecutionSummary.workflow) sid n
    (w : world ExecutionSummary.memory_row) :
  ∃ messages w1, ExecutionSummary.fetch_last_n_messages self sid n w = (Ok messages, w1).
Proof.
  unfold ExecutionSummary.fetch_last_n_messages.
  destruct (negb _ || _); [by do 2 eexists|].
  destruct (answered_or_refused w) as [Ha|Hr].
  - do 2 eexists. apply try_except_ok.
    erewrite bind_ok; [|by apply select_chat_messages_answered]. reflexivity.
  - do 2 eexists. erewrite try_except_raise; [reflexivity|].
    erewrite bind_raise; [reflexivity|].
    unfold select_chat_messages. by apply execute_refused.
Qed.

(** The summary's run is its select, then its extraction and inserts,
    then its update: three steps of the thread. *)
Lemma summary_steps_refine (json_dumps : MA.memory_item → string)
    (self : ExecutionSummary.workflow) (sid uid : string)
    (w : world ExecutionSummary.memory_row) :
  complete (summary_step json_dumps self) sid uid 3 Ready w
  = (ExecutionSummary.trigger_memory_extraction json_dumps self sid uid w).2.
Proof.
  destruct (fetch_last_n_messages_total self sid 15 w) as (messages & w1 & Hfetch).
  unfold ExecutionSummary.trigger_memory_extraction.
  cbn [complete]. unfold summary_step at 1.
  unfold try_except at 1.
  erewrite !bind_ok by exact Hfetch.
  destruct messages as [|m0 ms]; [done|].
  destruct (ExecutionSummary.memory_system self) as [process|] eqn:Ems; [|done].
  cbn [ret next_phase]. unfold summary_step at 1. rewrite Ems.
  destruct (process _) as [result|e] eqn:Ep.
  - destruct (save_all_run json_dumps uid sid result w1)
      as (n & w2 & Hsave & _).
    erewrite !(bind_ok (lift _)) by reflexivity.
    erewrite !bind_ok by exact Hsave.
    cbn [ret next_phase]. unfold summary_step, ExecutionSummary.mark_messages.
    destruct (ExecutionSummary.ids_of (m0 :: ms)) as [|i ids]; [done|].
    unfold bind, try_except.
    by destruct (update_chat_messages _ _) as [[[]|err] w3].
  - erewrite !(bind_raise (lift _)) by reflexivity.
    done.
Qed.

Lemma marking_steps_refine (self : CodeSnippets.workflow) (sid uid : string) ids :
  ∀ (w : world CodeSnippets.memory_row),
  complete (snippets_step self) sid uid (S (length ids)) (Marking ids) w
  = (for_each ids CodeSnippets.mark_message w).2.
Proof.
  induction ids as [|i ids IH]; intros w; [done|].
  cbn [complete length for_each]. unfold snippets_step at 1.
  unfold bind.
  destruct (CodeSnippets.mark_message i w) as [[[]|e] w1]; [|by destruct ids].
  cbn [ret next_phase]. apply IH.
Qed.

(** The snippets' run is its select, then its requests to the other
    tables around the extraction, then one update for each id of the
    window. *)
Lemma snippets_steps_refine (self : CodeSnippets.workflow) (uid sid : string) (count : Z)
    (w : world CodeSnippets.memory_row) :
  complete (snippets_step self) sid uid
    (3 + length (CodeSnippets.unprocessed_query sid (chat_messages w))) Ready w
  = (CodeSnippets.trigger_memory_extraction self
       (CodeSnippets.StateForMemory uid sid count) w).2.
Proof.
  unfold CodeSnippets.trigger_memory_extraction. simpl CodeSnippets.state_user_id.
  simpl CodeSnippets.state_session_id.
  set (window := CodeSnippets.unprocessed_query sid (chat_messages w)).
  change (3 + length window) with (S (S (S (length window)))).
  cbn [complete]. unfold snippets_step at 1.
  destruct (CodeSnippets.supabase_credentials self); cbn [negb]; [|done].
  unfold try_except at 1.
  destruct (answered_or_refused w) as [Ha|Hr].
  - erewrite !bind_ok by (by apply select_chat_messages_answered).
    fold window. destruct window as [|m0 win] eqn:Ewin; [done|].
    cbn [ret next_phase complete]. unfold snippets_step at 1.
    set (w1 := after_request w).
    destruct (select_user_activities
                (λ rows, filter (λ a, activity_user_id a = uid ∧ activity_session_id a = sid)
                           rows) w1)
      as [[activities|e] w2] eqn:Eact.
    + erewrite !bind_ok by exact Eact.
      destruct (CodeSnippets.memory_system self) as [extract|]; [|done].
      destruct (extract _) as [out|e] eqn:Eex.
      * erewrite !(bind_ok (lift _)) by reflexivity.
        unfold bind.
        match goal with
        | |- context [insert_memory ?row w2] =>
          destruct (insert_memory row w2) as [[[]|e] w3] eqn:Eins
        end; [|done].
        cbn [ret next_phase].
        rewrite <- (length_fmap id (m0 :: win)).
        etrans; [exact (marking_steps_refine self sid uid (id <$> m0 :: win) w3)|].
        by destruct (for_each _ _ w3) as [[[]|e] w4].
      * erewrite !(bind_raise (lift _)) by reflexivity.
        done.
    + erewrite !bind_raise by exact Eact. done.
  - erewrite !bind_raise by (unfold select_chat_messages; by apply execute_refused).
    done.
Qed.

End refinement.

(** ** Two runs on the same window *)

Section race.

Import Supabase Threads.

Lemma snippets_trigger_fires (self : CodeSnippets.workflow) uid sid
    (w : world CodeSnippets.memory_row) :
  CodeSnippets.supabase_credentials self = true → faults w = [] →
  (session_count sid w > 0)%Z → (session_count sid w `mod` 20 = 0)%Z →
  snippets_trigger self uid sid w = (Ok true, w).
Proof.
  intros Hc Hq Hpos Hmod.
  assert (Hcount : CodeSnippets.get_session_message_count self sid w
                   = (Ok (session_count sid w), w)).
  { unfold CodeSnippets.get_session_message_count. rewrite Hc. cbn [negb].
    apply try_except_ok.
    by rewrite select_chat_messages_answered, after_request_quiet
      by auto using answered_quiet. }
  unfold snippets_trigger, CodeSnippets.chat_memory_trigger. simpl.
  erewrite bind_ok;
    [|erewrite bind_ok; [|exact Hcount];
      by rewrite (bool_decide_eq_true_2 _ Hpos), (bool_decide_eq_true_2 _ Hmod)].
  done.
Qed.

Lemma summary_trigger_fires uid sid (w : world ExecutionSummary.memory_row) :
  sid ≠ "" → faults w = [] →
  (session_count sid w > 0)%Z → (session_count sid w `mod` 20 = 0)%Z →
  summary_trigger true uid sid w = (Ok true, w).
Proof.
  intros Hsid Hq Hpos Hmod.
  assert (Hcount : ExecutionSummary.get_session_message_count true sid w
                   = (Ok (session_count sid w), w)).
  { unfold ExecutionSummary.get_session_message_count. simpl.
    rewrite (bool_decide_eq_false_2 _ Hsid).
    apply try_except_ok.
    by rewrite select_chat_messages_answered, after_request_quiet
      by auto using answered_quiet. }
  unfold summary_trigger, ExecutionSummary.chat_memory_trigger. simpl.
  rewrite (bool_decide_eq_false_2 _ Hsid). simpl.
  erewrite bind_ok;
    [|apply try_except_ok; erewrite bind_ok; [|exact Hcount];
      by rewrite (bool_decide_eq_true_2 _ Hpos), (bool_decide_eq_true_2 _ Hmod)].
  done.
Qed.

Lemma snippets_step_ready (self : CodeSnippets.workflow) sid uid
    (w : world CodeSnippets.memory_row) :
  CodeSnippets.supabase_credentials self = true → faults w = [] →
  CodeSnippets.unprocessed_query sid (chat_messages w) ≠ [] →
  snippets_step self sid uid Ready w
  = (Ok (Fetched (id <$> CodeSnippets.unprocessed_query sid (chat_messages w))
           (CodeSnippets.to_chat_history
              <$> CodeSnippets.unprocessed_query sid (chat_messages w))), w).
Proof.
  intros Hc Hq Hwin. unfold snippets_step. rewrite Hc. cbn [negb].
  erewrite bind_ok;
    [|by rewrite select_chat_messages_answered, after_request_quiet
        by auto using answered_quiet].
  by destruct (CodeSnippets.unprocessed_query sid (chat_messages w)).
Qed.

Lemma summary_step_ready json_dumps (self : ExecutionSummary.workflow) sid uid
    (w : world ExecutionSummary.memory_row) process :
  ExecutionSummary.supabase self = true → sid ≠ "" →
  ExecutionSummary.memory_system self = Some process → faults w = [] →
  ExecutionSummary.unprocessed_query sid 15 (chat_messages w) ≠ [] →
  summary_step json_dumps self sid uid Ready w
  = (Ok (Fetched (id <$> ExecutionSummary.unprocessed_query sid 15 (chat_messages w))
           (ExecutionSummary.to_message
              <$> ExecutionSummary.unprocessed_query sid 15 (chat_messages w))), w).
Proof.
  intros Hs Hsid Hms Hq Hwin. unfold summary_step.
  erewrite bind_ok;
    [|by rewrite fetch_last_n_messages_answered, after_request_quiet
        by auto using answered_quiet].
  rewrite Hms, ids_of_to_message.
  by destruct (ExecutionSummary.unprocessed_query sid 15 (chat_messages w)).
Qed.

Lemma exec_run_ready {R} (step : string → string → phase → M R phase) trigger
    (s : system R) i sid uid p w' :
  threads s !! i = Some (Thread sid uid Ready) →
  step sid uid Ready (db s) = (Ok p, w') →
  exec step trigger s (Run i) = System w' (<[i := Thread sid uid p]> (threads s)).
Proof. intros Hth Hstep. unfold exec. rewrite Hth. simpl. by rewrite Hstep. Qed.

Lemma fetched_by_ready {R} (step : string → string → phase → M R phase) trigger
    (s : system R) i sid uid ids h w' :
  threads s !! i = Some (Thread sid uid Ready) →
  step sid uid Ready (db s) = (Ok (Fetched ids h), w') →
  fetched_by step trigger s i = ids.
Proof.
  intros Hth Hstep. unfold fetched_by.
  rewrite (exec_run_ready step trigger s i sid uid _ w' Hth Hstep). rewrite Hth.
  cbn [threads]. rewrite list_lookup_insert_eq by (by eapply lookup_lt_Some). done.
Qed.

Lemma exec_run {R} (step : string → string → phase → M R phase) trigger
    (s : system R) i sid uid p p' w' :
  threads s !! i = Some (Thread sid uid p) →
  step sid uid p (db s) = (Ok p', w') →
  exec step trigger s (Run i) = System w' (<[i := Thread sid uid p']> (threads s)).
Proof. intros Hth Hstep. unfold exec. rewrite Hth. simpl. by rewrite Hstep. Qed.

Lemma mark_processed_twice at_ m :
  mark_processed at_ (mark_processed at_ m) = mark_processed at_ m.
Proof. unfold mark_processed. simpl. by destruct at_. Qed.

(** Marking a window that is marked already changes nothing. *)
Lemma update_in_id_twice at_ ids rows :
  update_in_id at_ ids (update_in_id at_ ids rows) = update_in_id at_ ids rows.
Proof.
  unfold update_in_id. rewrite <- list_fmap_compose.
  apply list_fmap_ext. intros j m _. simpl.
  destruct (decide (id m ∈ ids)) as [Hin|Hnin].
  - simpl. rewrite decide_True by done. apply mark_processed_twice.
  - by rewrite decide_False.
Qed.

(** The second step of a snippets' run: the activities, the extraction
    and the insert of the row, which names the window as its source. *)
Lemma snippets_step_fetched (self : CodeSnippets.workflow) sid uid ids hist
    (w : world CodeSnippets.memory_row) extract out :
  CodeSnippets.memory_system self = Some extract → faults w = [] →
  extract (MA.InputObj (MA.InputDict (Some "chat") (Some uid) (Some sid) hist
             (activity_data
                <$> filter (λ a, activity_user_id a = uid ∧ activity_session_id a = sid)
                      (user_activities w)))) = Ok out →
  snippets_step self sid uid (Fetched ids hist) w
  = (Ok (Marking ids),
     set_memories
       (memories w
        ++ [CodeSnippets.MemoryRow uid sid "chat"
              (MA.procedural (MA.memories out)) (MA.semantic (MA.memories out))
              (MA.episodic (MA.memories out)) (MA.memory_summary out) ids
              (MA.metadata out)]) w).
Proof.
  intros Hms Hq Hex. unfold snippets_step.
  erewrite bind_ok;
    [|by rewrite select_user_activities_answered, after_request_quiet
        by auto using answered_quiet].
  rewrite Hms.
  erewrite bind_ok; [|unfold lift; by rewrite Hex].
  erewrite bind_ok;
    [|by rewrite insert_memory_answered, after_request_quiet
        by auto using answered_quiet].
  done.
Qed.

(** Its later steps: one update for each id of the window. *)
Lemma snippets_step_marking (self : CodeSnippets.workflow) sid uid x rest
    (w : world CodeSnippets.memory_row) :
  faults w = [] →
  snippets_step self sid uid (Marking (x :: rest)) w
  = (Ok (Marking rest),
     set_chat_messages (update_eq_id (Some (clock w)) x (chat_messages w)) w).
Proof.
  intros Hq. unfold snippets_step, CodeSnippets.mark_message.
  erewrite bind_ok;
    [|erewrite bind_ok; [|reflexivity]; unfold update_chat_messages;
      by rewrite execute_quiet].
  done.
Qed.

Lemma snippets_marking_steps (self : CodeSnippets.workflow) sid uid i ids :
  ∀ s : system CodeSnippets.memory_row,
  threads s !! i = Some (Thread sid uid (Marking ids)) → faults (db s) = [] →
  exec_all (snippets_step self) (snippets_trigger self) s
    (replicate (S (length ids)) (Run i))
  = System
      (set_chat_messages
         (foldl (λ rows x, update_eq_id (Some (clock (db s))) x rows)
            (chat_messages (db s)) ids) (db s))
      (<[i := Thread sid uid Finished]> (threads s)).
Proof.
  induction ids as [|x rest IH]; intros s Hth Hq.
  - cbn [length replicate exec_all foldl].
    erewrite exec_run; [|exact Hth|reflexivity]. by destruct s as [[] ths].
  - cbn [length replicate]. change (exec_all ?st ?tr ?s (?a :: ?l))
      with (exec_all st tr (exec st tr s a) l).
    erewrite exec_run; [|exact Hth|by apply snippets_step_marking].
    rewrite IH; cbn [db threads].
    + rewrite list_insert_insert_eq. by destruct s as [[] ths].
    + rewrite list_lookup_insert_eq; [done | by eapply lookup_lt_Some].
    + by destruct s as [[] ths].
Qed.

(** A snippets' thread that holds a window, from its select to its end:
    one row of memories for the window, and the window marked. *)
Lemma snippets_fetched_steps (self : CodeSnippets.workflow) sid uid i ids hist
    (s : system CodeSnippets.memory_row) extract out :
  threads s !! i = Some (Thread sid uid (Fetched ids hist)) →
  CodeSnippets.memory_system self = Some extract → faults (db s) = [] →
  extract (MA.InputObj (MA.InputDict (Some "chat") (Some uid) (Some sid) hist
             (activity_data
                <$> filter (λ a, activity_user_id a = uid ∧ activity_session_id a = sid)
                      (user_activities (db s))))) = Ok out →
  exec_all (snippets_step self) (snippets_trigger self) s
    (replicate (2 + length ids) (Run i))
  = System
      (World
         (update_in_id (Some (clock (db s))) ids (chat_messages (db s)))
         (memories (db s)
          ++ [CodeSnippets.MemoryRow uid sid "chat"
                (MA.procedural (MA.memories out)) (MA.semantic (MA.memories out))
                (MA.episodic (MA.memories out)) (MA.memory_summary out) ids
                (MA.metadata out)])
         (user_activities (db s)) [] (clock (db s)))
      (<[i := Thread sid uid Finished]> (threads s)).
Proof.
  intros Hth Hms Hq Hex. cbn [Nat.add replicate].
  change (exec_all ?st ?tr ?s (?a :: ?l)) with (exec_all st tr (exec st tr s a) l).
  erewrite exec_run; [|exact Hth|by eapply snippets_step_fetched].
  rewrite (snippets_marking_steps self sid uid i ids); cbn [db threads].
  - rewrite list_insert_insert_eq. destruct s as [[] ths]. simpl in *. subst.
    by rewrite update_eq_id_fold.
  - rewrite list_lookup_insert_eq; [done | by eapply lookup_lt_Some].
  - by destruct s as [[] ths].
Qed.

(** The same for a thread of the summary: its extraction and inserts, then
    its update. *)
Lemma summary_fetched_steps json_dumps (self : ExecutionSummary.workflow) sid uid i
    window (s : system ExecutionSummary.memory_row) process out :
  threads s !! i
  = Some (Thread sid uid (Fetched (id <$> window) (ExecutionSummary.to_message <$> window))) →
  ExecutionSummary.memory_system self = Some process → faults (db s) = [] →
  window ≠ [] →
  process (MA.InputObj (MA.InputDict (Some "chat") (Some uid) (Some sid)
             (ExecutionSummary.to_message <$> window) [])) = Ok out →
  ∃ w',
    exec_all (summary_step json_dumps self) (summary_trigger true) s
      (replicate 2 (Run i))
    = System w' (<[i := Thread sid uid Finished]> (threads s))
    ∧ chat_messages w' = update_in_id None (id <$> window) (chat_messages (db s))
    ∧ memories w' = memories (db s) ++ all_rows_of json_dumps uid sid (clock (db s)) out
    ∧ faults w' = [] ∧ clock w' = clock (db s).
Proof.
  intros Hth Hms Hq Hwin Hex.
  destruct (save_all_run json_dumps uid sid out (db s))
    as (n & w2 & Hsave & Hchat & Hfaults & Hclock & Hmem).
  rewrite Hq, drop_nil in Hfaults. specialize (Hmem Hq).
  assert (Hstep1 : summary_step json_dumps self sid uid
                     (Fetched (id <$> window) (ExecutionSummary.to_message <$> window)) (db s)
                   = (Ok (Marking (id <$> window)), w2)).
  { unfold summary_step. rewrite Hms.
    erewrite bind_ok; [|unfold lift; by rewrite Hex].
    erewrite bind_ok; [|exact Hsave]. done. }
  assert (Hstep2 : summary_step json_dumps self sid uid (Marking (id <$> window)) w2
                   = (Ok Finished,
                      set_chat_messages
                        (update_in_id None (id <$> window) (chat_messages w2)) w2)).
  { unfold summary_step. destruct window as [|m0 win]; [done|]. cbn [fmap list_fmap].
    erewrite bind_ok;
      [|apply try_except_ok;
        by rewrite update_chat_messages_answered, after_request_quiet
          by auto using answered_quiet].
    done. }
  eexists. split; [|split_and!].
  - cbn [replicate]. unfold exec_all. cbn [foldl].
    rewrite (exec_run _ _ s i sid uid _ _ _ Hth Hstep1).
    erewrite exec_run; [|cbn [threads]|exact Hstep2].
    + cbn [threads]. by rewrite list_insert_insert_eq.
    + rewrite list_lookup_insert_eq; [done | by eapply lookup_lt_Some].
  - simpl. by rewrite Hchat.
  - done.
  - done.
  - done.
Qed.

(** C8. Nothing orders the select of a run against the updates of
    another. When two chat turns of a session reach the trigger block
    while the session's count is the same positive multiple of 20, both
    start a thread; when the second thread selects its window before the
    first has marked its own, both threads hold the same window; and when
    both then run to their end, each extracts from that window and stores
    what it extracted: in the snippets' version the memories table gets
    two rows that name the same messages as their source, in the summary's
    version every extracted memory is stored twice. Both versions; the
    requests are answered and the extraction returns. *)
Theorem overlapping_runs_process_same_window :
  (∀ (self : CodeSnippets.workflow) (uid sid : string)
     (w : world CodeSnippets.memory_row) extract out,
     CodeSnippets.supabase_credentials self = true →
     CodeSnippets.memory_system self = Some extract → faults w = [] →
     primary_key (chat_messages w) →
     (session_count sid w > 0)%Z → (session_count sid w `mod` 20 = 0)%Z →
     CodeSnippets.unprocessed_query sid (chat_messages w) ≠ [] →
     extract (snippets_input uid sid w) = Ok out →
     let step := snippets_step self in
     let trigger := snippets_trigger self in
     let window := CodeSnippets.unprocessed_query sid (chat_messages w) in
     let s := exec_all step trigger (System w []) [Chat uid sid; Chat uid sid] in
     let s' := exec_all step trigger s (overlapping (2 + length window)) in
     threads s = [Thread sid uid Ready; Thread sid uid Ready]
     ∧ fetched_by step trigger s 0 = id <$> window
     ∧ fetched_by step trigger (exec step trigger s (Run 0)) 1 = id <$> window
     ∧ threads s' = [Thread sid uid Finished; Thread sid uid Finished]
     ∧ memories (db s')
       = memories w ++ [snippets_row uid sid w out; snippets_row uid sid w out]
     ∧ CodeSnippets.source_message_ids (snippets_row uid sid w out) = id <$> window
     ∧ chat_messages (db s') = marked_exactly (Some (clock w)) window (chat_messages w))
  ∧ (∀ (json_dumps : MA.memory_item → string) (self : ExecutionSummary.workflow)
       (uid sid : string) (w : world ExecutionSummary.memory_row) process out,
       ExecutionSummary.supabase self = true → sid ≠ "" →
       ExecutionSummary.memory_system self = Some process → faults w = [] →
       primary_key (chat_messages w) →
       (session_count sid w > 0)%Z → (session_count sid w `mod` 20 = 0)%Z →
       ExecutionSummary.unprocessed_query sid 15 (chat_messages w) ≠ [] →
       process (summary_input uid sid w) = Ok out →
       let step := summary_step json_dumps self in
       let trigger := summary_trigger true in
       let window := ExecutionSummary.unprocessed_query sid 15 (chat_messages w) in
       let s := exec_all step trigger (System w []) [Chat uid sid; Chat uid sid] in
       let s' := exec_all step trigger s (overlapping 2) in
       threads s = [Thread sid uid Ready; Thread sid uid Ready]
       ∧ fetched_by step trigger s 0 = id <$> window
       ∧ fetched_by step trigger (exec step trigger s (Run 0)) 1 = id <$> window
       ∧ threads s' = [Thread sid uid Finished; Thread sid uid Finished]
       ∧ memories (db s')
         = memories w ++ all_rows_of json_dumps uid sid (clock w) out
           ++ all_rows_of json_dumps uid sid (clock w) out
       ∧ chat_messages (db s') = marked_exactly None window (chat_messages w)).
Proof.
  split.
  - intros self uid sid w extract out Hc Hms Hq Hpk Hpos Hmod Hwin Hex
      step trigger window s s'.
    assert (Hs : s = System w [Thread sid uid Ready; Thread sid uid Ready]).
    { unfold s, exec_all, trigger. simpl.
      rewrite (snippets_trigger_fires self uid sid w Hc Hq Hpos Hmod). simpl.
      by rewrite (snippets_trigger_fires self uid sid w Hc Hq Hpos Hmod). }
    pose proof (snippets_step_ready self sid uid w Hc Hq Hwin) as Hready.
    fold window in Hready.
    assert (Hsub : window ⊆ chat_messages w).
    { intros m Hm. by apply snippets_window_rows in Hm as [? _]. }
    assert (Hs' : s' = System
              (World (marked_exactly (Some (clock w)) window (chat_messages w))
                 (memories w ++ [snippets_row uid sid w out; snippets_row uid sid w out])
                 (user_activities w) [] (clock w))
              [Thread sid uid Finished; Thread sid uid Finished]).
    { unfold s', overlapping, exec_all. rewrite Hs, !foldl_app. cbn [foldl].
      change (foldl (Threads.exec step trigger)) with (exec_all step trigger).
      unfold step, trigger.
      erewrite (exec_run step trigger _ 0); [|done|exact Hready].
      erewrite (exec_run step trigger _ 1); [|done|exact Hready].
      cbn [threads db]. simpl (<[_:=_]> _).
      rewrite <- (length_fmap id window).
      erewrite (snippets_fetched_steps self sid uid 0); [|done|exact Hms|done|exact Hex].
      cbn [threads db]. simpl (<[_:=_]> _).
      erewrite (snippets_fetched_steps self sid uid 1); [|done|exact Hms|done|exact Hex].
      cbn [threads db chat_messages memories user_activities clock]. simpl (<[_:=_]> _).
      rewrite update_in_id_twice, update_in_id_exact by done.
      by rewrite <- app_assoc. }
    rewrite Hs', Hs. split_and!; try done.
    + by eapply fetched_by_ready.
    + erewrite exec_run_ready; [|done|exact Hready].
      by eapply fetched_by_ready.
  - intros jd self uid sid w process out Hsup Hsid Hms Hq Hpk Hpos Hmod Hwin Hex
      step trigger window s s'.
    assert (Hs : s = System w [Thread sid uid Ready; Thread sid uid Ready]).
    { unfold s, exec_all, trigger. simpl.
      rewrite (summary_trigger_fires uid sid w Hsid Hq Hpos Hmod). simpl.
      by rewrite (summary_trigger_fires uid sid w Hsid Hq Hpos Hmod). }
    pose proof (summary_step_ready jd self sid uid w process Hsup Hsid Hms Hq Hwin)
      as Hready.
    fold window in Hready.
    assert (Hsub : window ⊆ chat_messages w).
    { intros m Hm. by apply summary_window_rows in Hm as [? _]. }
    assert (Hs' : threads s' = [Thread sid uid Finished; Thread sid uid Finished]
      ∧ memories (db s')
        = memories w ++ all_rows_of jd uid sid (clock w) out
          ++ all_rows_of jd uid sid (clock w) out
      ∧ chat_messages (db s') = marked_exactly None window (chat_messages w)).
    { unfold s', overlapping, exec_all. rewrite Hs, !foldl_app. cbn [foldl].
      change (foldl (Threads.exec step trigger)) with (exec_all step trigger).
      unfold step, trigger.
      erewrite (exec_run step trigger _ 0); [|done|exact Hready].
      erewrite (exec_run step trigger _ 1); [|done|exact Hready].
      cbn [threads db]. simpl (<[_:=_]> _).
      edestruct (summary_fetched_steps jd self sid uid 0 window) as
        (w1 & -> & Hchat1 & Hmem1 & Hq1 & Hclock1); [|exact Hms| | |exact Hex|];
        [done|done|done|].
      cbn [threads db] in *. simpl (<[_:=_]> _).
      edestruct (summary_fetched_steps jd self sid uid 1 window) as
        (w2 & -> & Hchat2 & Hmem2 & Hq2 & Hclock2); [|exact Hms| | |exact Hex|];
        [done|done|done|].
      cbn [threads db] in *. simpl (<[_:=_]> _).
      split_and!; [done| |].
      - by rewrite Hmem2, Hmem1, Hclock1, <- app_assoc.
      - rewrite Hchat2, Hchat1, update_in_id_twice. by apply update_in_id_exact. }
    rewrite Hs in *. destruct Hs' as (Hth & Hmem & Hchat). split_and!; try done.
    + by eapply fetched_by_ready.
    + erewrite exec_run_ready; [|done|exact Hready].
      by eapply fetched_by_ready.
Qed.

End race.

Section race_samples.

Import Samples.

(** The snippets' runs, both to their end: two rows of memories built from
    the same twenty messages. *)
Example snippets_race_stores_window_twice :
  CodeSnippets.source_message_ids <$> S.memories (Threads.db snippets_race)
  = [Z.of_nat <$> seq 1 20; Z.of_nat <$> seq 1 20]
  ∧ Threads.thread_phase <$> Threads.threads snippets_race
    = [Threads.Finished; Threads.Finished].
Proof. vm_compute. split; reflexivity. Qed.

(** The summary's runs, both to their end: each memory is stored twice. *)
Example summary_race_stores_memories_twice :
  ExecutionSummary.content <$> S.memories (Threads.db summary_race)
  = ["breathing exercise"; "likes music"; "studies physics";
     "breathing exercise"; "likes music"; "studies physics"]
  ∧ Threads.thread_phase <$> Threads.threads summary_race
    = [Threads.Finished; Threads.Finished].
Proof. vm_compute. split; reflexivity. Qed.

Lemma overlapping_runs_process_same_window_witness :
  (let step := Threads.snippets_step snippets_self in
   let trigger := Threads.snippets_trigger snippets_self in
   let w : S.world CodeSnippets.memory_row := world_of (session 20) in
   let window := CodeSnippets.unprocessed_query "s1" (S.chat_messages w) in
   let s := Threads.exec_all step trigger (Threads.System w [])
              [Threads.Chat "u1" "s1"; Threads.Chat "u1" "s1"] in
   let s' := Threads.exec_all step trigger s (overlapping (2 + length window)) in
   Threads.threads s
   = [Threads.Thread "s1" "u1" Threads.Ready; Threads.Thread "s1" "u1" Threads.Ready]
   ∧ Threads.fetched_by step trigger s 0 = S.id <$> window
   ∧ Threads.fetched_by step trigger (Threads.exec step trigger s (Threads.Run 0)) 1
     = S.id <$> window
   ∧ Threads.threads s'
     = [Threads.Thread "s1" "u1" Threads.Finished; Threads.Thread "s1" "u1" Threads.Finished]
   ∧ S.memories (Threads.db s')
     = S.memories w ++ [snippets_row "u1" "s1" w three_memories;
                        snippets_row "u1" "s1" w three_memories]
   ∧ CodeSnippets.source_message_ids (snippets_row "u1" "s1" w three_memories)
     = S.id <$> window
   ∧ S.chat_messages (Threads.db s')
     = marked_exactly (Some (S.clock w)) window (S.chat_messages w))
  ∧ (let step := Threads.summary_step dumps summary_self in
     let trigger := Threads.summary_trigger true in
     let w : S.world ExecutionSummary.memory_row := world_of (session 20) in
     let window := ExecutionSummary.unprocessed_query "s1" 15 (S.chat_messages w) in
     let s := Threads.exec_all step trigger (Threads.System w [])
                [Threads.Chat "u1" "s1"; Threads.Chat "u1" "s1"] in
     let s' := Threads.exec_all step trigger s (overlapping 2) in
     Threads.threads s
     = [Threads.Thread "s1" "u1" Threads.Ready; Threads.Thread "s1" "u1" Threads.Ready]
     ∧ Threads.fetched_by step trigger s 0 = S.id <$> window
     ∧ Threads.fetched_by step trigger (Threads.exec step trigger s (Threads.Run 0)) 1
       = S.id <$> window
     ∧ Threads.threads s'
       = [Threads.Thread "s1" "u1" Threads.Finished;
          Threads.Thread "s1" "u1" Threads.Finished]
     ∧ S.memories (Threads.db s')
       = S.memories w ++ all_rows_of dumps "u1" "s1" (S.clock w) three_memories
         ++ all_rows_of dumps "u1" "s1" (S.clock w) three_memories
     ∧ S.chat_messages (Threads.db s') = marked_exactly None window (S.chat_messages w)).
Proof.
  split.
  - apply (proj1 overlapping_runs_process_same_window snippets_self "u1" "s1"
             (world_of (session 20)) fixed_system three_memories).
    + reflexivity.
    + reflexivity.
    + reflexivity.
    + apply sample_primary_key.
    + vm_compute. reflexivity.
    + vm_compute. reflexivity.
    + vm_compute. discriminate.
    + reflexivity.
  - apply (proj2 overlapping_runs_process_same_window dumps summary_self "u1" "s1"
             (world_of (session 20)) fixed_system three_memories).
    + reflexivity.
    + discriminate.
    + reflexivity.
    + reflexivity.
    + apply sample_primary_key.
    + vm_compute. reflexivity.
    + vm_compute. reflexivity.
    + vm_compute. discriminate.
    + reflexivity.
Defined.

(** After the first run has marked messages 1 to 3, the second selects
    message 4 alone. *)
Example second_run_fetches_the_new_message :
  Threads.fetched_by (Threads.summary_step dumps summary_self) (Threads.summary_trigger true)
    (Threads.exec_all (Threads.summary_step dumps summary_self) (Threads.summary_trigger true)
       two_threads (first_run ++ fourth_message)) 1
  = [4%Z].
Proof. vm_compute. reflexivity. Qed.

(** Two runs of the snippets' trigger_memory_extraction, one after the
    other, on a session of three messages. The second update of the first
    run is refused: the run has stored its row and marked message 1 only.
    The second run selects messages 2 and 3 again and stores a second row
    for them. *)
Lemma message_extracted_twice :
  let run := CodeSnippets.trigger_memory_extraction snippets_self
               (CodeSnippets.StateForMemory "u1" "s1" 20) in
  let w : S.world CodeSnippets.memory_row :=
    S.World (session 3) [] [] [false; false; false; false; true] 0%Z in
  S.processed_into_memory <$> S.chat_messages (run w).2 = [true; false; false]
  ∧ CodeSnippets.source_message_ids <$> S.memories (run (run w).2).2
    = [[1; 2; 3]; [2; 3]]%Z
  ∧ S.processed_into_memory <$> S.chat_messages (run (run w).2).2 = [true; true; true].
Proof. vm_compute. split_and!; reflexivity. Qed.

Lemma processed_message_never_fetched_again_witness :
  let run := Threads.exec_all (Threads.summary_step dumps summary_self)
               (Threads.summary_trigger true) in
  1%Z ∉ Threads.fetched_by (Threads.summary_step dumps summary_self)
          (Threads.summary_trigger true)
          (run (run two_threads first_run) fourth_message) 1.
Proof.
  apply (proj2 processed_message_never_fetched_again dumps summary_self true
           two_threads first_run fourth_message 1 1%Z).
  - apply sample_primary_key.
  - exists (S.mark_processed None (message 1)).
    split; [|split; reflexivity].
    apply (bool_decide_unpack _). vm_compute. reflexivity.
Defined.

End race_samples.

(** * Further properties of the code *)

(** ** POST /chat: status codes, and what speech failures leave *)

Section node_chat_reply.

Import NodeBackend.

Variable elevenLabsApiKey : option string.
Variable geminiApiKey : option string.
Variable template : js_value → string.
Variable generate : string → result (list message).
Variable synthesizeJson : string → result (string * string).
Variable writeResultToFile : string → string → result unit.
Variable voicesCreate : string → result unit.
Variable lipSyncMessage : nat → result unit.
Variable audioFileToBase64 : string → result string.
Variable readJsonTranscript : string → result string.

Local Abbreviation handler :=
  (chat elevenLabsApiKey geminiApiKey template generate synthesizeJson writeResultToFile
     voicesCreate lipSyncMessage audioFileToBase64 readJsonTranscript).
Local Abbreviation speak1 :=
  (speak synthesizeJson writeResultToFile voicesCreate lipSyncMessage audioFileToBase64).
Local Abbreviation loop :=
  (speak_all synthesizeJson writeResultToFile voicesCreate lipSyncMessage audioFileToBase64
     readJsonTranscript).

(** Both keys are set and the body carries a truthy message. *)
Local Abbreviation guards req_body :=
  (truthy (default JUndefined (req_body !! "message"))
   && env_truthy elevenLabsApiKey && env_truthy geminiApiKey).

Lemma speak_all_spoken messages : ∀ i,
  spoken <$> (loop i messages).1 = spoken <$> messages.
Proof.
  induction messages as [|m rest IH]; intros i; simpl; [done|].
  destruct (speak1 i m) as [[a|e] t]; [|done].
  destruct (readJsonTranscript _) as [l|e]; [|done].
  specialize (IH (S i)). destruct (loop (S i) rest) as [rest' t'].
  simpl in *. by f_equal.
Qed.

Lemma speak_all_voiced_prefix messages : ∀ i,
  ∃ k, k ≤ length messages
    ∧ Forall voiced (take k (loop i messages).1)
    ∧ drop (S k) (loop i messages).1 = drop (S k) messages.
Proof.
  induction messages as [|m rest IH]; intros i; simpl.
  { exists 0. by split_and!. }
  destruct (speak1 i m) as [[a|e] t]; [|exists 0; split_and!; [lia|done..]].
  destruct (readJsonTranscript _) as [l|e]; [|exists 0; split_and!; [lia|done..]].
  destruct (IH (S i)) as (k & Hk & Hv & Hd).
  destruct (loop (S i) rest) as [rest' t']. simpl in *.
  exists (S k). split_and!; [lia| |done].
  constructor; [|done]. split; simpl; eauto.
Qed.

(** X1. POST /chat answers 400 exactly when the message is falsy, and 200
    exactly when the message is truthy, both API keys are set and Gemini's
    reply could be read; every other request is answered 500. It makes no
    call at all exactly when the message is falsy or a key is missing.
    Whether the speech calls throw plays no part in the status. *)
Theorem chat_status (req_body : gmap string js_value) :
  let userMessage := default JUndefined (req_body !! "message") in
  let r := handler req_body in
  (status r.1 = 400 ↔ truthy userMessage = false)
  ∧ (status r.1 = 200 ↔
       guards req_body = true ∧ ∃ ms, generate (prompt_of template userMessage) = Ok ms)
  ∧ (r.2 = [] ↔ guards req_body = false)
  ∧ (status r.1 = 200 ∨ status r.1 = 400 ∨ status r.1 = 500).
Proof.
  cbv zeta. unfold chat.
  destruct (truthy _) eqn:Ht; simpl.
  2: { split_and!; [done| |done|auto]. split; [done|]. by intros [? _]. }
  destruct (env_truthy elevenLabsApiKey) eqn:He; simpl.
  2: { split_and!; [done| |done|auto]. split; [done|]. by intros [? _]. }
  destruct (env_truthy geminiApiKey) eqn:Hg; simpl.
  2: { split_and!; [done| |done|auto]. split; [done|]. by intros [? _]. }
  destruct (generate _) as [ms|e] eqn:Hgen; simpl.
  - destruct (loop 0 ms) as [ms' t']. simpl.
    split_and!; [done| |done|auto]. split; [eauto|done].
  - split_and!; [done| |done|auto]. split; [done|]. by intros [_ [? ?]].
Qed.

(** X2. When Gemini has replied, POST /chat answers 200 with as many
    messages as Gemini gave, in the same order and with the same text,
    facial expression and animation, whatever the speech calls do. The
    messages up to some position carry audio and lip-sync cues, and the
    messages after the one at that position are exactly as Gemini gave
    them: the loop stops at the first call that throws. *)
Theorem chat_reply_keeps_messages (req_body : gmap string js_value) (ms : list message) :
  guards req_body = true →
  generate (prompt_of template (default JUndefined (req_body !! "message"))) = Ok ms →
  ∃ ms' t k,
    handler req_body
    = (Response 200 (MessagesBody ms'),
       GeminiGenerateContent
         (prompt_of template (default JUndefined (req_body !! "message"))) :: t)
    ∧ spoken <$> ms' = spoken <$> ms
    ∧ k ≤ length ms
    ∧ Forall voiced (take k ms')
    ∧ drop (S k) ms' = drop (S k) ms.
Proof.
  intros Hg Hgen. unfold chat.
  apply andb_true_iff in Hg as [Hg Hg3]. apply andb_true_iff in Hg as [Hg1 Hg2].
  rewrite Hg1, Hg2, Hg3, Hgen. simpl.
  pose proof (speak_all_spoken ms 0) as Hs.
  destruct (speak_all_voiced_prefix ms 0) as (k & Hk & Hv & Hd).
  destruct (loop 0 ms) as [ms' t']. simpl in *.
  by exists ms', t', k.
Qed.

Lemma speak_all_no_throw messages : ∀ i,
  (∀ x, ∃ y, synthesizeJson x = Ok y) →
  (∀ x f, writeResultToFile x f = Ok ()) →
  (∀ x, voicesCreate x = Ok ()) →
  (∀ j, lipSyncMessage j = Ok ()) →
  (∀ f, ∃ a, audioFileToBase64 f = Ok a) →
  (∀ f, ∃ l, readJsonTranscript f = Ok l) →
  length (loop i messages).2 = 6 * length messages
  ∧ ∀ j m, messages !! j = Some m →
      ∃ a l, audioFileToBase64 ("audios/message_" +:+ pretty (i + j)) = Ok a
        ∧ readJsonTranscript ("audios/message_" +:+ pretty (i + j) +:+ ".json") = Ok l
        ∧ (loop i messages).1 !! j
          = Some (Message (text m) (facialExpression m) (animation m) (Some a) (Some l)).
Proof.
  intros i H1 H2 H3 H4 H5 H6. revert i.
  induction messages as [|m rest IH]; intros i; simpl.
  { split; [lia|]. intros j m Hj. by rewrite lookup_nil in Hj. }
  unfold speak, io_bind, await.
  destruct (H1 (text m)) as [y Hy]. rewrite Hy, H2, H3, H4.
  destruct (H5 ("audios/message_" +:+ pretty i)) as [a Ha]. rewrite Ha.
  destruct (H6 ("audios/message_" +:+ pretty i +:+ ".json")) as [l Hl]. rewrite Hl.
  destruct (IH (S i)) as [Hlen Hall].
  destruct (loop (S i) rest) as [rest' t']. simpl in *.
  split; [rewrite Hlen; lia|].
  intros [|j] m' Hj; simpl in *.
  - injection Hj as <-. exists a, l. by rewrite Nat.add_0_r.
  - destruct (Hall j m' Hj) as (a' & l' & Ha' & Hl' & Hm).
    exists a', l'. by replace (i + S j) with (S i + j) by lia.
Qed.

(** X3. When Gemini has replied and no speech call throws, POST /chat makes
    six calls for each message after the one to Gemini, and message i of
    the reply carries what audioFileToBase64 gave for audios/message_i and
    what readJsonTranscript gave for audios/message_i.json. *)
Theorem chat_reply_all_voiced (req_body : gmap string js_value) (ms : list message) :
  guards req_body = true →
  generate (prompt_of template (default JUndefined (req_body !! "message"))) = Ok ms →
  (∀ x, ∃ y, synthesizeJson x = Ok y) →
  (∀ x f, writeResultToFile x f = Ok ()) →
  (∀ x, voicesCreate x = Ok ()) →
  (∀ j, lipSyncMessage j = Ok ()) →
  (∀ f, ∃ a, audioFileToBase64 f = Ok a) →
  (∀ f, ∃ l, readJsonTranscript f = Ok l) →
  ∃ ms',
    (handler req_body).1 = Response 200 (MessagesBody ms')
    ∧ length (handler req_body).2 = 1 + 6 * length ms
    ∧ ∀ j m, ms !! j = Some m →
        ∃ a l, audioFileToBase64 ("audios/message_" +:+ pretty j) = Ok a
          ∧ readJsonTranscript ("audios/message_" +:+ pretty j +:+ ".json") = Ok l
          ∧ ms' !! j
            = Some (Message (text m) (facialExpression m) (animation m) (Some a) (Some l)).
Proof.
  intros Hg Hgen H1 H2 H3 H4 H5 H6. unfold chat.
  apply andb_true_iff in Hg as [Hg Hg3]. apply andb_true_iff in Hg as [Hg1 Hg2].
  rewrite Hg1, Hg2, Hg3, Hgen. simpl.
  destruct (speak_all_no_throw ms 0 H1 H2 H3 H4 H5 H6) as [Hlen Hall].
  destruct (loop 0 ms) as [ms' t']. simpl in *.
  exists ms'. split_and!; [done|lia|done].
Qed.

End node_chat_reply.

(** ** POST /transcribe-and-chat *)

Section node_transcribe.

Import NodeBackend.

Variable geminiApiKey : option string.
Variable null_type_error : string.
Variable template : js_value → string.
Variable readFile : string → result string.
Variable speechToText : string → result NodeTranscribe.stt_response.
Variable generate : string → result (list message).
Variable textToSpeech : string → string → result unit.
Variable lipSyncMessage : nat → result unit.
Variable audioFileToBase64 : string → result string.
Variable readJsonTranscript : string → result string.

Local Abbreviation handler :=
  (NodeTranscribe.transcribe_and_chat geminiApiKey null_type_error template readFile
     speechToText generate textToSpeech lipSyncMessage audioFileToBase64 readJsonTranscript).
Local Abbreviation loop :=
  (NodeTranscribe.speak_all textToSpeech lipSyncMessage audioFileToBase64 readJsonTranscript).

Lemma transcribe_speak_all_ok messages : ∀ i messages' t,
  loop i messages = (Ok messages', t) →
  spoken <$> messages' = spoken <$> messages
  ∧ Forall voiced messages'
  ∧ length t = 4 * length messages.
Proof.
  induction messages as [|m rest IH]; intros i messages' t; simpl.
  { intros [= <- <-]. by split_and!. }
  unfold NodeTranscribe.io_bind, NodeTranscribe.await, NodeTranscribe.io_ret.
  destruct (textToSpeech _ _) as [[]|e]; [|done].
  destruct (lipSyncMessage _) as [[]|e]; [|done].
  destruct (audioFileToBase64 _) as [a|e]; [|done].
  destruct (readJsonTranscript _) as [l|e]; [|done].
  destruct (loop (S i) rest) as [[rest'|e] t'] eqn:Hrest; [|done].
  destruct (IH _ _ _ Hrest) as (Hs & Hv & Hl).
  intros [= <- <-]. split_and!.
  - simpl. by f_equal.
  - constructor; [|done]. split; simpl; eauto.
  - simpl. rewrite length_app. simpl. lia.
Qed.

(** X4. POST /transcribe-and-chat answers 400 exactly when no file was
    uploaded, and that is the only request for which it makes no call.
    Without GEMINI_API_KEY it never answers 200 and never calls Gemini:
    the missing client is reported as a Gemini API error. *)
Theorem transcribe_and_chat_status (file : option string) :
  let r := handler file in
  (status r.1 = 400 ↔ file = None)
  ∧ (r.2 = [] ↔ file = None)
  ∧ (status r.1 = 200 ∨ status r.1 = 400 ∨ status r.1 = 500)
  ∧ (env_truthy geminiApiKey = false →
     status r.1 ≠ 200 ∧ ∀ prompt, NodeTranscribe.GenerateContent prompt ∉ r.2).
Proof.
  cbv zeta. destruct file as [path|]; simpl.
  2: { split_and!; [done|done|auto|]. intros _. split; [done|]. intros p. apply not_elem_of_nil. }
  unfold NodeTranscribe.transcribe, NodeTranscribe.io_bind, NodeTranscribe.await,
    NodeTranscribe.io_ret, NodeTranscribe.io_try, NodeTranscribe.gemini.
  destruct (readFile path) as [audioData|e]; simpl.
  2: { split_and!; [done|done|auto|]. intros _. split; [done|].
       intros p Hp. repeat (apply elem_of_cons in Hp as [Hp|Hp]; [discriminate|]).
       by apply elem_of_nil in Hp. }
  destruct (speechToText audioData) as [[ok json_text]|e]; simpl.
  2: { split_and!; [done|done|auto|]. intros _. split; [done|].
       intros p Hp. repeat (apply elem_of_cons in Hp as [Hp|Hp]; [discriminate|]).
       by apply elem_of_nil in Hp. }
  destruct ok; simpl.
  2: { split_and!; [done|done|auto|]. intros _. split; [done|].
       intros p Hp. repeat (apply elem_of_cons in Hp as [Hp|Hp]; [discriminate|]).
       by apply elem_of_nil in Hp. }
  destruct json_text as [userMessage|e]; simpl.
  2: { split_and!; [done|done|auto|]. intros _. split; [done|].
       intros p Hp. repeat (apply elem_of_cons in Hp as [Hp|Hp]; [discriminate|]).
       by apply elem_of_nil in Hp. }
  destruct (env_truthy geminiApiKey) eqn:Hkey; simpl.
  - destruct (generate _) as [ms|e]; simpl.
    + destruct (loop 0 ms) as [[ms'|e] t']; simpl; by split_and!; auto.
    + by split_and!; auto.
  - split_and!; [done|done|auto|]. intros _. split; [done|].
    intros p Hp. repeat (apply elem_of_cons in Hp as [Hp|Hp]; [discriminate|]).
    by apply elem_of_nil in Hp.
Qed.

(** X5. POST /transcribe-and-chat answers 200 only when every step went
    through: the upload was read, the transcription came back ok with a
    text, Gemini replied, and no speech or lip-sync call threw. The reply
    then holds Gemini's messages in order, each with audio and cues, and
    the handler has made four calls before the loop and four per message. *)
Theorem transcribe_and_chat_all_or_nothing (file : option string) :
  status (handler file).1 = 200 →
  ∃ path audioData stt userMessage ms ms',
    file = Some path
    ∧ readFile path = Ok audioData
    ∧ speechToText audioData = Ok stt
    ∧ NodeTranscribe.ok stt = true
    ∧ NodeTranscribe.json_text stt = Ok userMessage
    ∧ env_truthy geminiApiKey = true
    ∧ generate (prompt_of template userMessage) = Ok ms
    ∧ json (handler file).1 = MessagesBody ms'
    ∧ spoken <$> ms' = spoken <$> ms
    ∧ Forall voiced ms'
    ∧ length (handler file).2 = 4 + 4 * length ms.
Proof.
  destruct file as [path|]; simpl; [|done].
  unfold NodeTranscribe.transcribe, NodeTranscribe.io_bind, NodeTranscribe.await,
    NodeTranscribe.io_ret, NodeTranscribe.io_try, NodeTranscribe.gemini.
  destruct (readFile path) as [audioData|e] eqn:Hread; simpl; [|done].
  destruct (speechToText audioData) as [[ok json_text]|e] eqn:Hstt; simpl; [|done].
  destruct ok; simpl; [|done].
  destruct json_text as [userMessage|e]; simpl; [|done].
  destruct (env_truthy geminiApiKey) eqn:Hkey; simpl; [|done].
  destruct (generate _) as [ms|e] eqn:Hgen; simpl; [|done].
  destruct (loop 0 ms) as [[ms'|e] t'] eqn:Hloop; simpl; [|done].
  intros _. destruct (transcribe_speak_all_ok _ _ _ _ Hloop) as (Hs & Hv & Hl).
  exists path, audioData, (NodeTranscribe.SttResponse true (Ok userMessage)), userMessage, ms, ms'.
  split_and!; try done. rewrite length_app, Hl. simpl. lia.
Qed.

Lemma transcribe_speak_all_throws messages : ∀ i k m e,
  messages !! k = Some m →
  (∀ j m', j < k → messages !! j = Some m' →
     speaks textToSpeech lipSyncMessage audioFileToBase64 readJsonTranscript (i + j) m') →
  throws textToSpeech lipSyncMessage audioFileToBase64 readJsonTranscript (i + k) m e →
  (loop i messages).1 = Raise e.
Proof.
  induction messages as [|m0 rest IH]; intros i k m e Hk Hbefore Hthrows.
  { by rewrite lookup_nil in Hk. }
  cbn [NodeTranscribe.speak_all].
  unfold NodeTranscribe.io_bind, NodeTranscribe.await, NodeTranscribe.io_ret.
  destruct k as [|k].
  - injection Hk as ->. rewrite Nat.add_0_r in Hthrows.
    destruct Hthrows as [->|[-> [->|[-> [->|[[a ->] ->]]]]]]; done.
  - destruct (Hbefore 0 m0) as (Ht & Hl & [a Ha] & [l Hl']); [lia|done|].
    rewrite Nat.add_0_r in Ht, Hl, Ha, Hl'. rewrite Ht, Hl, Ha, Hl'.
    specialize (IH (S i) k m e Hk).
    destruct (loop (S i) rest) as [[rest'|e'] t']; simpl in *.
    + discriminate IH.
      * intros j m' Hj Hm'. replace (S (i + j)) with (i + S j) by lia.
        apply Hbefore; [lia|done].
      * by replace (S (i + k)) with (i + S k) by lia.
    + apply IH.
      * intros j m' Hj Hm'. replace (S (i + j)) with (i + S j) by lia.
        apply Hbefore; [lia|done].
      * by replace (S (i + k)) with (i + S k) by lia.
Qed.

(** X6. In POST /transcribe-and-chat the first call of the loop that
    throws fails the whole request. When the transcription and Gemini
    have answered, the calls for the messages before message k return,
    and for message k the speech, lip-sync, audio or transcript call
    throws e, the handler answers 500 with the message of e and sends no
    message at all, not even the texts Gemini gave. (POST /chat answers
    200 with the messages in that situation.) *)
Theorem transcribe_and_chat_first_error (path audioData : string)
    (stt : NodeTranscribe.stt_response) (userMessage : js_value)
    (ms : list message) (k : nat) (m : message) (e : exn) :
  readFile path = Ok audioData →
  speechToText audioData = Ok stt →
  NodeTranscribe.ok stt = true →
  NodeTranscribe.json_text stt = Ok userMessage →
  env_truthy geminiApiKey = true →
  generate (prompt_of template userMessage) = Ok ms →
  ms !! k = Some m →
  (∀ j m', j < k → ms !! j = Some m' →
     speaks textToSpeech lipSyncMessage audioFileToBase64 readJsonTranscript j m') →
  throws textToSpeech lipSyncMessage audioFileToBase64 readJsonTranscript k m e →
  (handler (Some path)).1 = Response 500 (ErrorBody (error_message e) None).
Proof.
  intros Hread Hstt Hok Hjson Hkey Hgen Hk Hbefore Hthrows. simpl.
  unfold NodeTranscribe.transcribe, NodeTranscribe.io_bind, NodeTranscribe.await,
    NodeTranscribe.io_ret, NodeTranscribe.io_try, NodeTranscribe.gemini.
  rewrite Hread, Hstt, Hok, Hjson, Hkey, Hgen. simpl.
  pose proof (transcribe_speak_all_throws ms 0 k m e Hk Hbefore Hthrows) as Hloop.
  destruct (loop 0 ms) as [[ms'|e'] t']; simpl in *; [discriminate|].
  by injection Hloop as ->.
Qed.

End node_transcribe.

(** ** The audio file a handler reads back *)

Section audio_files.

Lemma pretty_N_char_digit (x : N) : digit (pretty_N_char x).
Proof. unfold pretty_N_char, digit. repeat case_match; vm_compute; lia. Qed.

Lemma pretty_N_go_digits (x : N) : ∀ s, all_digits s → all_digits (pretty_N_go x s).
Proof.
  induction (N.lt_wf_0 x) as [x _ IH]; intros s Hs.
  destruct (decide (x = 0)%N) as [->|Hx]; [by rewrite pretty_N_go_0|].
  rewrite pretty_N_go_step by lia.
  apply IH; [apply N.div_lt; lia|]. split; [apply pretty_N_char_digit|done].
Qed.

Lemma pretty_nat_digits (n : nat) : all_digits (pretty n).
Proof.
  unfold pretty, pretty_nat, pretty, pretty_N.
  destruct (decide _); [split; [vm_compute; lia|done]|].
  by apply pretty_N_go_digits.
Qed.

(** Two strings of digits, each followed by something that starts with no
    digit, are equal only when what follows is equal. *)
Lemma digits_then_other (a : string) : ∀ b c s c' s',
  all_digits a → all_digits b → ¬ digit c → ¬ digit c' →
  a +:+ String c s = b +:+ String c' s' → String c s = String c' s'.
Proof.
  induction a as [|x a IH]; intros [|y b] c s c' s' Ha Hb Hc Hc'; simpl.
  - done.
  - intros [= -> _]. by destruct Hb.
  - intros [= -> _]. by destruct Ha.
  - intros [= _ H]. destruct Ha, Hb. by eapply IH.
Qed.

Lemma filepath_chat (pwd : string) (i : nat) :
  NodeTranscribe.filepath pwd ("audios/message_" +:+ pretty i)
  = NodeTranscribe.finalFile pwd i.
Proof.
  reflexivity.
Qed.

Lemma filepath_transcribe (pwd : string) (i j : nat) :
  NodeTranscribe.filepath pwd (NodeTranscribe.fileName i) ≠ NodeTranscribe.finalFile pwd j.
Proof.
  unfold NodeTranscribe.filepath, NodeTranscribe.finalFile, NodeTranscribe.fileName.
  intros H. apply (inj (String.app pwd)) in H.
  rewrite !string_app_assoc in H.
  apply (inj (String.app "/audios/message_")) in H.
  apply digits_then_other in H; [discriminate|apply pretty_nat_digits..| |];
    unfold digit; vm_compute; lia.
Qed.

Lemma fileName_not_original (pwd : string) (i j : nat) :
  pwd +:+ "/" +:+ NodeTranscribe.fileName i ≠ NodeTranscribe.originalFile pwd j.
Proof.
  unfold NodeTranscribe.originalFile, NodeTranscribe.fileName.
  intros H. apply (inj (String.app pwd)) in H.
  apply (inj (String.app "/audios/message_")) in H.
  apply digits_then_other in H; [discriminate|apply pretty_nat_digits..| |];
    unfold digit; vm_compute; lia.
Qed.

Section traces.

Import NodeBackend.

Variable elevenLabsApiKey : option string.
Variable geminiApiKey : option string.
Variable null_type_error : string.
Variable template : js_value → string.
Variable generate : string → result (list message).
Variable synthesizeJson : string → result (string * string).
Variable writeResultToFile : string → string → result unit.
Variable voicesCreate : string → result unit.
Variable textToSpeech : string → string → result unit.
Variable lipSyncMessage : nat → result unit.
Variable audioFileToBase64 : string → result string.
Variable readJsonTranscript : string → result string.
Variable readFile : string → result string.
Variable speechToText : string → result NodeTranscribe.stt_response.

Local Abbreviation chat_loop :=
  (speak_all synthesizeJson writeResultToFile voicesCreate lipSyncMessage audioFileToBase64
     readJsonTranscript).
Local Abbreviation transcribe_loop :=
  (NodeTranscribe.speak_all textToSpeech lipSyncMessage audioFileToBase64 readJsonTranscript).

Ltac calls_in H :=
  repeat (apply elem_of_cons in H as [H|H]; [try discriminate|]);
  try (by apply elem_of_nil in H).

Lemma chat_speak_all_reads messages : ∀ i f,
  AudioFileToBase64 f ∈ (chat_loop i messages).2 →
  ∃ j : nat, f = "audios/message_" +:+ pretty j.
Proof.
  induction messages as [|m rest IH]; intros i f; simpl.
  { intros H. by apply elem_of_nil in H. }
  assert (AudioFileToBase64 f
            ∈ (speak synthesizeJson writeResultToFile voicesCreate lipSyncMessage
                 audioFileToBase64 i m).2 →
          f = "audios/message_" +:+ pretty i) as Hone.
  { unfold speak, io_bind, await.
    repeat (match goal with
            | |- context [match ?x with Ok _ => _ | Raise _ => _ end] => destruct x
            end; simpl);
      intros H; calls_in H; by injection H. }
  destruct (speak _ _ _ _ _ i m) as [[a|e] t]; simpl in *; [|by eauto].
  destruct (readJsonTranscript _) as [l|e]; simpl.
  - specialize (IH (S i) f). destruct (chat_loop (S i) rest) as [rest' t']. simpl in *.
    intros H. apply elem_of_app in H as [H|H]; [by eauto|].
    apply elem_of_cons in H as [H|H]; [discriminate|by eauto].
  - intros H. apply elem_of_app in H as [H|H]; [by eauto|]. calls_in H.
Qed.

Lemma transcribe_speak_all_reads messages : ∀ i f,
  NodeTranscribe.AudioFileToBase64 f ∈ (transcribe_loop i messages).2 →
  ∃ j, f = NodeTranscribe.fileName j.
Proof.
  induction messages as [|m rest IH]; intros i f; simpl.
  { intros H. by apply elem_of_nil in H. }
  unfold NodeTranscribe.io_bind, NodeTranscribe.await, NodeTranscribe.io_ret.
  destruct (textToSpeech _ _) as [[]|]; simpl; [|intros H; calls_in H].
  destruct (lipSyncMessage _) as [[]|]; simpl; [|intros H; calls_in H].
  destruct (audioFileToBase64 _); simpl;
    [|intros H; calls_in H; injection H as ->; by eauto].
  specialize (IH (S i) f).
  destruct (readJsonTranscript _); simpl;
    [|intros H; calls_in H; injection H as ->; by eauto].
  destruct (transcribe_loop (S i) rest) as [[rest'|e] t']; simpl in *;
    intros H; calls_in H; try (injection H as ->; by eauto);
    rewrite ?app_nil_r in H; by eauto.
Qed.

(** X7. The audio a handler puts into its reply is read from
    <pwd>/<fileName>final.wav. In POST /chat that is, for every message,
    a file lipSyncMessage writes (its finalFile). In POST
    /transcribe-and-chat the file name ends in .mp3, and the file read is
    never a file that lipSyncMessage writes, for any message number. *)
Theorem audio_read_back (pwd : string) :
  (∀ (req_body : gmap string js_value) (f : string),
     AudioFileToBase64 f
       ∈ (chat elevenLabsApiKey geminiApiKey template generate synthesizeJson
            writeResultToFile voicesCreate lipSyncMessage audioFileToBase64
            readJsonTranscript req_body).2 →
     ∃ j, NodeTranscribe.filepath pwd f = NodeTranscribe.finalFile pwd j)
  ∧ (∀ (file : option string) (f : string) (j : nat),
       NodeTranscribe.AudioFileToBase64 f
         ∈ (NodeTranscribe.transcribe_and_chat geminiApiKey null_type_error template
              readFile speechToText generate textToSpeech lipSyncMessage
              audioFileToBase64 readJsonTranscript file).2 →
       NodeTranscribe.filepath pwd f ≠ NodeTranscribe.finalFile pwd j).
Proof.
  split.
  - intros req_body f. unfold chat.
    destruct (negb _); [intros H; calls_in H|].
    destruct (_ || _); [intros H; calls_in H|].
    unfold await. destruct (generate _) as [ms|e]; [|intros H; calls_in H].
    pose proof (chat_speak_all_reads ms 0 f) as Hreads.
    destruct (chat_loop 0 ms) as [ms' t']. simpl in *.
    intros H. apply elem_of_cons in H as [H|H]; [discriminate|].
    destruct (Hreads H) as [j ->]. exists j. apply filepath_chat.
  - intros file f j. destruct file as [path|]; simpl; [|intros H; calls_in H].
    unfold NodeTranscribe.transcribe, NodeTranscribe.io_bind, NodeTranscribe.await,
      NodeTranscribe.io_ret, NodeTranscribe.io_try, NodeTranscribe.gemini.
    destruct (readFile path) as [audioData|e]; simpl; [|intros H; calls_in H].
    destruct (speechToText audioData) as [[[] json_text]|e]; simpl;
      [| intros H; calls_in H | intros H; calls_in H].
    destruct json_text as [userMessage|e]; simpl; [|intros H; calls_in H].
    destruct (env_truthy geminiApiKey); simpl; [|intros H; calls_in H].
    destruct (generate _) as [ms|e]; simpl; [|intros H; calls_in H].
    pose proof (transcribe_speak_all_reads ms 0 f) as Hreads.
    destruct (transcribe_loop 0 ms) as [[ms'|e] t']; simpl in *;
      intros H; calls_in H; rewrite ?app_nil_r in H;
      destruct (Hreads H) as [i ->]; apply filepath_transcribe.
Qed.

Lemma transcribe_speak_all_speaks messages : ∀ i f textInput,
  NodeTranscribe.TextToSpeech f textInput ∈ (transcribe_loop i messages).2 →
  ∃ j, f = NodeTranscribe.fileName j.
Proof.
  induction messages as [|m rest IH]; intros i f textInput; simpl.
  { intros H. by apply elem_of_nil in H. }
  unfold NodeTranscribe.io_bind, NodeTranscribe.await, NodeTranscribe.io_ret.
  destruct (textToSpeech _ _) as [[]|]; simpl;
    [|intros H; calls_in H; injection H as -> _; by eauto].
  destruct (lipSyncMessage _) as [[]|]; simpl;
    [|intros H; calls_in H; injection H as -> _; by eauto].
  destruct (audioFileToBase64 _); simpl;
    [|intros H; calls_in H; injection H as -> _; by eauto].
  specialize (IH (S i) f textInput).
  destruct (readJsonTranscript _); simpl;
    [|intros H; calls_in H; injection H as -> _; by eauto].
  destruct (transcribe_loop (S i) rest) as [[rest'|e] t']; simpl in *;
    intros H; calls_in H; try (injection H as -> _; by eauto);
    rewrite ?app_nil_r in H; by eauto.
Qed.

(** X8. In POST /transcribe-and-chat the speech of message i is written
    to audios/message_i.mp3, and the step that turned the mp3 into a wav
    is commented out: the file textToSpeech is told to write is, under
    pwd, never the wav file that lipSyncMessage hands to ffmpeg, for any
    message number. *)
Theorem speech_file_is_not_converted (pwd : string) (file : option string)
    (f textInput : string) (j : nat) :
  NodeTranscribe.TextToSpeech f textInput
    ∈ (NodeTranscribe.transcribe_and_chat geminiApiKey null_type_error template
         readFile speechToText generate textToSpeech lipSyncMessage
         audioFileToBase64 readJsonTranscript file).2 →
  pwd +:+ "/" +:+ f ≠ NodeTranscribe.originalFile pwd j.
Proof.
  destruct file as [path|]; simpl; [|intros H; calls_in H].
  unfold NodeTranscribe.transcribe, NodeTranscribe.io_bind, NodeTranscribe.await,
    NodeTranscribe.io_ret, NodeTranscribe.io_try, NodeTranscribe.gemini.
  destruct (readFile path) as [audioData|e]; simpl; [|intros H; calls_in H].
  destruct (speechToText audioData) as [[[] json_text]|e]; simpl;
    [| intros H; calls_in H | intros H; calls_in H].
  destruct json_text as [userMessage|e]; simpl; [|intros H; calls_in H].
  destruct (env_truthy geminiApiKey); simpl; [|intros H; calls_in H].
  destruct (generate _) as [ms|e]; simpl; [|intros H; calls_in H].
  pose proof (transcribe_speak_all_speaks ms 0 f textInput) as Hspeaks.
  destruct (transcribe_loop 0 ms) as [[ms'|e] t']; simpl in *;
    intros H; calls_in H; rewrite ?app_nil_r in H;
    destruct (Hspeaks H) as [i ->]; apply fileName_not_original.
Qed.

End traces.

End audio_files.

(** ** _get_llm_response for any number of retries *)

Section llm_budget.

Import MemoryArchitecture.

Variable generate_content : string → nat → result llm_response.
Variable strip : string → string.
Variable re_search_array : string → option string.
Variable re_sub_fences : string → string.
Variable json_loads : string → option parsed.
Variable prompt : string.

Local Abbreviation answer :=
  (parsed_of generate_content strip re_search_array re_sub_fences json_loads prompt).
Local Abbreviation iter :=
  (iteration generate_content strip re_search_array re_sub_fences json_loads prompt).
Local Abbreviation loop :=
  (retry_loop generate_content strip re_search_array re_sub_fences json_loads prompt).
Local Abbreviation get_llm_response :=
  (_get_llm_response generate_content strip re_search_array re_sub_fences json_loads prompt).

Ltac break_attempt :=
  unfold iteration, try_body, parse_response, sleep_and_continue_or, except_clause,
    parsed_of;
  repeat match goal with
  | |- context [generate_content ?p ?a] => destruct (generate_content p a) as [[]|[]]
  | |- context [json_loads ?s] => destruct (json_loads s) as [[]|]
  end;
  repeat case_bool_decide; simpl.

Lemma calls_app evs evs' : calls (evs ++ evs') = calls evs + calls evs'.
Proof. unfold calls. by rewrite sum_list_with_app. Qed.

Lemma slept_app evs evs' : slept (evs ++ evs') = (slept evs + slept evs')%Z.
Proof.
  induction evs as [|[] evs IH]; simpl; [done|done|]. rewrite IH. lia.
Qed.

(** One attempt calls the model once, and sleeps 2 ** attempt seconds or
    not at all; it never sleeps on the last attempt. *)
Lemma iteration_events attempt max_retries :
  calls (iter attempt max_retries).2 = 1
  ∧ (slept (iter attempt max_retries).2 = 0%Z
     ∨ (Z.of_nat attempt ≠ (max_retries - 1)%Z
        ∧ slept (iter attempt max_retries).2 = (2 ^ Z.of_nat attempt)%Z)).
Proof.
  break_attempt; (split; [done|]);
    first [by left | right; split; [lia | by rewrite ?Z.add_0_r]].
Qed.

Lemma loop_bounds (n : nat) : ∀ m a,
  a + m ≤ n →
  calls (loop (seq a m) (Z.of_nat n)).2 ≤ m
  ∧ (0 < m → 1 ≤ calls (loop (seq a m) (Z.of_nat n)).2)
  ∧ (0 ≤ slept (loop (seq a m) (Z.of_nat n)).2)%Z
  ∧ (slept (loop (seq a m) (Z.of_nat n)).2 + 2 ^ Z.of_nat (a `min` (n - 1))
     ≤ 2 ^ Z.of_nat (n - 1))%Z.
Proof.
  induction m as [|m IH]; intros a Ha.
  { simpl. split_and!; [lia|lia|lia|].
    assert (2 ^ Z.of_nat (a `min` (n - 1)) ≤ 2 ^ Z.of_nat (n - 1))%Z
      by (apply Z.pow_le_mono_r; lia).
    lia. }
  change (seq a (S m)) with (a :: seq (S a) m). cbn [retry_loop].
  destruct (iteration_events a (Z.of_nat n)) as [Hc Hs].
  destruct (IH (S a)) as (IHc & _ & IHs0 & IHs); [lia|].
  assert (0 ≤ 2 ^ Z.of_nat a)%Z as Hpos by (apply Z.pow_nonneg; lia).
  assert (a = n - 1 ∨ a < n - 1) as [->|Hlt] by lia.
  - destruct Hs as [Hs|[Hne _]]; [|lia].
    replace (S (n - 1) `min` (n - 1)) with (n - 1) in IHs by lia.
    replace ((n - 1) `min` (n - 1)) with (n - 1) by lia.
    destruct (iter (n - 1) (Z.of_nat n)) as [[[items|]|e] evs]; simpl in *.
    + split_and!; lia.
    + destruct (loop _ _) as [r evs']. simpl in *.
      rewrite calls_app, slept_app. split_and!; lia.
    + split_and!; lia.
  - replace (S a `min` (n - 1)) with (S a) in IHs by lia.
    replace (a `min` (n - 1)) with a by lia.
    assert (2 ^ Z.of_nat (S a) = 2 * 2 ^ Z.of_nat a)%Z as Hstep
      by (rewrite Nat2Z.inj_succ; apply Z.pow_succ_r; lia).
    assert (2 ^ Z.of_nat (S a) ≤ 2 ^ Z.of_nat (n - 1))%Z as Hle
      by (apply Z.pow_le_mono_r; lia).
    destruct (iter a (Z.of_nat n)) as [[[items|]|e] evs]; simpl in *.
    + split_and!; [lia|lia|lia|]. destruct Hs as [Hs|[_ Hs]]; lia.
    + destruct (loop _ _) as [r evs']. simpl in *.
      rewrite calls_app, slept_app. split_and!; [lia|lia| |].
      * destruct Hs as [Hs|[_ Hs]]; lia.
      * destruct Hs as [Hs|[_ Hs]]; lia.
    + split_and!; [lia|lia|lia|]. destruct Hs as [Hs|[_ Hs]]; lia.
Qed.

(** X9. Whatever the model answers, a call of _get_llm_response with
    max_retries attempts calls the model at most max_retries times, and at
    least once when max_retries is positive; the seconds it sleeps add up
    to less than 2 ** (max_retries - 1), so to at most 3 with the default.
    With max_retries of 0 or less it raises ValueError without calling the
    model at all. *)
Theorem llm_calls_and_sleep_bounded (max_retries : Z) :
  let run := get_llm_response max_retries in
  calls run.2 ≤ Z.to_nat max_retries
  ∧ (0 ≤ slept run.2 < 2 ^ Z.max 0 (max_retries - 1))%Z
  ∧ ((0 < max_retries)%Z → 1 ≤ calls run.2)
  ∧ ((max_retries ≤ 0)%Z →
     run = (Raise (ValueError "Failed to get valid LLM response"), [])).
Proof.
  cbv zeta. unfold _get_llm_response.
  destruct (decide (max_retries ≤ 0)%Z) as [Hle|Hgt].
  - replace (Z.to_nat max_retries) with 0 by lia. simpl.
    replace (Z.max 0 (max_retries - 1)) with 0%Z by lia.
    unfold calls, slept. simpl. split_and!; try lia; done.
  - destruct (loop_bounds (Z.to_nat max_retries) (Z.to_nat max_retries) 0)
      as (Hc & Hc1 & Hs0 & Hs); [lia|].
    rewrite Z2Nat.id in * by lia.
    replace (Z.max 0 (max_retries - 1)) with (Z.of_nat (Z.to_nat max_retries - 1)) by lia.
    change (Z.of_nat (0 `min` (Z.to_nat max_retries - 1))) with 0%Z in Hs.
    split_and!; lia.
Qed.

(** What an attempt returns was parsed from the model's answer to that
    attempt, or is the empty list. *)
Lemma iteration_returns attempt max_retries items evs :
  iter attempt max_retries = (Ok (Return items), evs) →
  items = [] ∨ answer attempt = Some (ParsedList items).
Proof.
  break_attempt; intros [=]; subst; auto.
Qed.

Lemma loop_returns max_retries attempts : ∀ items,
  (loop attempts max_retries).1 = Ok items →
  items = [] ∨ ∃ j, j ∈ attempts ∧ answer j = Some (ParsedList items).
Proof.
  induction attempts as [|a attempts IH]; intros items; simpl; [done|].
  destruct (iter a max_retries) as [[[items'|]|e] evs] eqn:Hiter; simpl.
  - intros [= ->]. destruct (iteration_returns _ _ _ _ Hiter) as [?|?]; [by left|].
    right. exists a. split; [left|done].
  - specialize (IH items). destruct (loop attempts max_retries) as [r evs']. simpl in *.
    intros Hr. destruct (IH Hr) as [?|(j & Hj & Hans)]; [by left|].
    right. exists j. split; [by right|done].
  - done.
Qed.

(** X10. A list that _get_llm_response returns is the list one of its
    attempts parsed from the model's answer, or it is empty: the method
    never returns memories the model did not give. *)
Theorem llm_returns_parsed_answer (max_retries : Z) (items : list memory_item) :
  (get_llm_response max_retries).1 = Ok items →
  items = [] ∨ ∃ j, (Z.of_nat j < max_retries)%Z ∧ answer j = Some (ParsedList items).
Proof.
  intros H. apply loop_returns in H as [?|(j & Hj & Hans)]; [by left|].
  right. exists j. split; [|done]. apply elem_of_seq in Hj. lia.
Qed.

(** X11. For any positive number n of attempts: when the first answer that
    parses to a list comes at attempt k < n, the method returns it after
    the calls 0 .. k with sleeps of 1, 2, .., 2 ** (k-1) seconds between
    them; when none of the n answers parses to a list, the model has been
    called n times with sleeps of 1, .., 2 ** (n-2) seconds in between, and
    the method raises ValueError or, after a last answer that is JSON but
    no list, returns the empty list. *)
Theorem llm_backoff_any_budget (n : nat) :
  (∀ k items, k < n →
     (∀ j, j < k → ∀ items', answer j ≠ Some (ParsedList items')) →
     answer k = Some (ParsedList items) →
     get_llm_response (Z.of_nat n) = (Ok items, backoff k))
  ∧ (0 < n →
     (∀ j, j < n → ∀ items', answer j ≠ Some (ParsedList items')) →
     ∃ r, get_llm_response (Z.of_nat n) = (r, backoff (n - 1))
       ∧ ((answer (n - 1) = Some ParsedOther ∧ r = Ok [])
          ∨ (answer (n - 1) = None ∧ ∃ msg, r = Raise (ValueError msg)))).
Proof.
  unfold _get_llm_response. rewrite Nat2Z.id. split.
  - intros k items Hk Hfail Hok. unfold backoff.
    apply (loop_success generate_content strip re_search_array re_sub_fences json_loads
             prompt n k 0 n items); [lia | lia | intros j Hj; apply Hfail; lia | done].
  - intros Hn Hfail. destruct n as [|n]; [lia|].
    destruct (loop_failure generate_content strip re_search_array re_sub_fences json_loads
                prompt (S n) n 0) as (r & Hr & Hcase);
      [lia | intros j Hj; apply Hfail; lia |].
    exists r. split; [|exact Hcase]. unfold backoff.
    replace (S n - 1) with n by lia. exact Hr.
Qed.

End llm_budget.

(** ** extract_all_memories_parallel: the errors it raises *)

Section parallel_extraction_errors.

Import MemoryArchitecture.

Variable json_loads_input : string → option input_data.
Variable detect_data_type : input_dict → string.
Variable data_handlers : gmap string (input_dict → string).
Variable _handle_general_data : input_dict → string.
Variable extract_procedural_memory : string → string → result (list memory_item).
Variable extract_semantic_memory : string → string → result (list memory_item).
Variable extract_episodic_memory : string → string → result (list memory_item).
Variable session_stamp : string.
Variable utc_now : string.

Local Abbreviation future_result :=
  (future_result extract_procedural_memory extract_semantic_memory extract_episodic_memory).
Local Abbreviation collect :=
  (collect extract_procedural_memory extract_semantic_memory extract_episodic_memory).
Local Abbreviation run duration :=
  (extract_all_memories_parallel json_loads_input detect_data_type data_handlers
     _handle_general_data extract_procedural_memory extract_semantic_memory
     extract_episodic_memory session_stamp utc_now duration).
Local Abbreviation dt_of := (data_type_of detect_data_type).
Local Abbreviation fd_of :=
  (formatted_data_of detect_data_type data_handlers _handle_general_data).

Lemma collect_raise_inv fd dt yielded at_end : ∀ acc e,
  collect fd dt yielded at_end acc = Raise e →
  (∃ t, t ∈ yielded ∧ future_result fd dt t = Raise e) ∨ at_end = Some e.
Proof.
  induction yielded as [|t rest IH]; intros acc e; simpl.
  { destruct at_end; [|done]. intros [= ->]. by right. }
  destruct (future_result fd dt t) as [r|e'] eqn:Ht.
  - intros H. destruct (IH _ _ H) as [(t' & Hin & Ht')|Hend]; [|by right].
    left. exists t'. split; [by right|done].
  - intros [= ->]. left. exists t. split; [by left|done].
Qed.

Lemma collect_raises fd dt yielded at_end t e : ∀ acc,
  t ∈ yielded → future_result fd dt t = Raise e →
  ∃ e', collect fd dt yielded at_end acc = Raise e'.
Proof.
  induction yielded as [|t' rest IH]; intros acc Hin Ht; simpl.
  { by apply elem_of_nil in Hin. }
  destruct (future_result fd dt t') as [r|e'] eqn:Ht'; [|by eauto].
  apply elem_of_cons in Hin as [->|Hin]; [congruence|]. by apply IH.
Qed.

(** The error of the iterator is raised unless a future raised before. *)
Lemma collect_end_raises fd dt yielded e : ∀ acc,
  ∃ e', collect fd dt yielded (Some e) acc = Raise e'
    ∧ ((∀ t, t ∈ yielded → ∃ r, future_result fd dt t = Ok r) → e' = e).
Proof.
  induction yielded as [|t rest IH]; intros acc; simpl.
  { by exists e. }
  destruct (future_result fd dt t) as [r|e'] eqn:Ht.
  - destruct (IH (store t r acc)) as (e' & -> & He'). exists e'. split; [done|].
    intros Hall. apply He'. intros t' Ht'. apply Hall. by right.
  - exists e'. split; [done|]. intros Hall.
    destruct (Hall t) as [r Hr]; [by left|]. congruence.
Qed.

Lemma run_dict duration (input : input_data) (d : input_dict) :
  dict_of json_loads_input input = Some d →
  run duration input = run duration (InputObj d).
Proof.
  unfold dict_of, extract_all_memories_parallel.
  destruct input as [s|d'|]; [|by intros [= ->]|done].
  destruct (json_loads_input s) as [[| |]|]; try done. by intros [= ->].
Qed.

(** X12. The errors of extract_all_memories_parallel. When the input is a
    dictionary, or a string that json.loads turns into one, an error the
    method raises is either the error that one of its three extraction
    calls raised, that call being done within the 120 seconds of
    as_completed, passed on unchanged, or a TimeoutError, one of the calls
    not being done within the 120 seconds. The method raises when one of
    the three calls raises, whatever the two others returned, and when one
    of them is not done within the 120 seconds; in the latter case the
    error is the TimeoutError if the calls that are done in time all
    return. For any other input it raises one of its two ValueErrors. *)
Theorem extraction_errors (input : input_data) (duration : memory_type → nat) :
  (∀ e, run duration input = Raise e →
     match dict_of json_loads_input input with
     | Some d =>
       (∃ t, duration t ≤ 120 ∧ future_result (fd_of d) (dt_of d) t = Raise e)
       ∨ (∃ msg t, e = TimeoutError msg ∧ 120 < duration t)
     | None => e = ValueError "Invalid JSON string provided"
               ∨ e = ValueError "Input must be a dictionary or valid JSON string"
     end)
  ∧ (∀ d t e,
       dict_of json_loads_input input = Some d →
       future_result (fd_of d) (dt_of d) t = Raise e →
       ∃ e', run duration input = Raise e')
  ∧ (∀ d t,
       dict_of json_loads_input input = Some d →
       120 < duration t →
       ∃ e', run duration input = Raise e'
         ∧ ((∀ t', duration t' ≤ 120 → ∃ r, future_result (fd_of d) (dt_of d) t' = Ok r) →
            ∃ msg, e' = TimeoutError msg))
  ∧ (dict_of json_loads_input input = None → ∃ e, run duration input = Raise e).
Proof.
  assert (Hlate : ∀ d t, 120 < duration t →
    ∃ e', run duration (InputObj d) = Raise e'
      ∧ ((∀ t', duration t' ≤ 120 → ∃ r, future_result (fd_of d) (dt_of d) t' = Ok r) →
         ∃ msg, e' = TimeoutError msg)).
  { intros d t Ht. unfold extract_all_memories_parallel. cbv zeta.
    fold (dt_of d). fold (fd_of d).
    destruct (as_completed_late duration 120 t Ht) as [msg ->].
    destruct (collect_end_raises (fd_of d) (dt_of d)
                (as_completed duration future_to_type 120).1 (TimeoutError msg)
                (Memories [] [] [])) as (e' & -> & He').
    exists e'. split; [done|]. intros Hall. exists msg. apply He'.
    intros t' Ht'. apply Hall. by apply as_completed_yields in Ht'. }
  split_and!.
  - intros e. destruct (dict_of json_loads_input input) as [d|] eqn:Hd.
    + rewrite (run_dict _ _ _ Hd). unfold extract_all_memories_parallel. cbv zeta.
      fold (dt_of d). fold (fd_of d).
      destruct (collect _ _ _ _ _) as [m|e'] eqn:Hc; [done|].
      intros [= ->]. apply collect_raise_inv in Hc as [(t & Hin & Ht)|Hend].
      * left. exists t. split; [|done]. by apply as_completed_yields in Hin.
      * right. pose proof (as_completed_end duration 120) as He.
        rewrite Hend in He. destruct He as (msg & t & -> & Ht). by exists msg, t.
    + revert Hd. unfold dict_of, extract_all_memories_parallel.
      destruct input as [s|d'|]; [|done|intros _ [= <-]; by right].
      destruct (json_loads_input s) as [[| |]|]; try done;
        intros _ [= <-]; auto.
  - intros d t e Hd Ht. rewrite (run_dict _ _ _ Hd).
    destruct (decide (duration t ≤ 120)) as [Hle|Hgt].
    + unfold extract_all_memories_parallel. cbv zeta.
      fold (dt_of d). fold (fd_of d).
      destruct (collect_raises (fd_of d) (dt_of d)
                  (as_completed duration future_to_type 120).1
                  (as_completed duration future_to_type 120).2
                  t e (Memories [] [] [])) as [e' He']; [|done|].
      * by apply as_completed_yields.
      * rewrite He'. by exists e'.
    + destruct (Hlate d t) as (e' & He' & _); [lia|]. by exists e'.
  - intros d t Hd Ht. rewrite (run_dict _ _ _ Hd). exact (Hlate d t Ht).
  - unfold dict_of, extract_all_memories_parallel.
    destruct input as [s|d'|]; [|done|by eauto].
    destruct (json_loads_input s) as [[| |]|]; try done; by eauto.
Qed.

End parallel_extraction_errors.

(** ** What the requests of a computation can change *)

Section preservation.

Import Supabase.

Context {R T : Type} (proj : world R → T) (rel : relation T) `{!PreOrder rel}.

Hypothesis proj_faults : ∀ fs w, proj (set_faults fs w) = proj w.

Lemma preserves_ret {A} (a : A) : preserves proj rel (ret a).
Proof. intros w. done. Qed.

Lemma preserves_raise {A} e : preserves proj rel (raise (A:=A) e).
Proof. intros w. done. Qed.

Lemma preserves_lift {A} (r : result A) : preserves proj rel (lift r).
Proof. intros w. done. Qed.

Lemma preserves_now : preserves proj rel now.
Proof. intros w. done. Qed.

Lemma preserves_bind {A B} (m : M R A) (k : A → M R B) :
  preserves proj rel m → (∀ a, preserves proj rel (k a)) → preserves proj rel (bind m k).
Proof.
  intros Hm Hk w. unfold bind. specialize (Hm w).
  destruct (m w) as [[a|e] w1]; simpl in *; [|done].
  etrans; [exact Hm|]. apply Hk.
Qed.

Lemma preserves_try_except {A} (m : M R A) h :
  preserves proj rel m → (∀ e, preserves proj rel (h e)) →
  preserves proj rel (try_except m h).
Proof.
  intros Hm Hh w. unfold try_except. specialize (Hm w).
  destruct (m w) as [[a|e] w1]; simpl in *; [done|].
  etrans; [exact Hm|]. apply Hh.
Qed.

Lemma preserves_for_each {A} (xs : list A) (body : A → M R unit) :
  (∀ x, preserves proj rel (body x)) → preserves proj rel (for_each xs body).
Proof.
  intros Hb. induction xs as [|x xs IH]; simpl.
  - apply preserves_ret.
  - apply preserves_bind; [apply Hb | intros _; apply IH].
Qed.

Lemma preserves_execute {A} (q : world R → A * world R) :
  (∀ w, rel (proj w) (proj (q w).2)) → preserves proj rel (execute q).
Proof.
  intros Hq w. unfold execute.
  destruct (faults w) as [|[] fs]; simpl.
  - specialize (Hq w). by destruct (q w).
  - by rewrite proj_faults.
  - specialize (Hq (set_faults fs w)). rewrite proj_faults in Hq. by destruct (q _).
Qed.

Lemma preserves_select_chat_messages {A} (q : list chat_message → A) :
  preserves proj rel (select_chat_messages q).
Proof. apply preserves_execute. done. Qed.

Lemma preserves_select_user_activities {A} (q : list activity → A) :
  preserves proj rel (select_user_activities q).
Proof. apply preserves_execute. done. Qed.

Lemma preserves_select_memories {A} (q : list R → A) :
  preserves proj rel (select_memories q).
Proof. apply preserves_execute. done. Qed.

Lemma preserves_insert_memory (row : R) :
  (∀ w, rel (proj w) (proj (set_memories (memories w ++ [row]) w))) →
  preserves proj rel (insert_memory row).
Proof. intros H. apply preserves_execute. done. Qed.

Lemma preserves_update_chat_messages u :
  (∀ w, rel (proj w) (proj (set_chat_messages (u (chat_messages w)) w))) →
  preserves proj rel (update_chat_messages u).
Proof. intros H. apply preserves_execute. done. Qed.

End preservation.

Section invariants.

Import Supabase.

(** Computations built from requests keep what each request keeps;
    [side] settles what an insert and an update do to the part looked at. *)
Ltac preserved side := repeat (intros; first
  [ first [ apply preserves_ret | apply preserves_raise | apply preserves_lift
          | apply preserves_now
          | apply preserves_select_chat_messages
          | apply preserves_select_user_activities
          | apply preserves_select_memories
          | apply preserves_insert_memory
          | apply preserves_update_chat_messages
          | apply preserves_bind | apply preserves_try_except
          | apply preserves_for_each ];
    try done; try apply _; try side
  | match goal with
    | |- preserves _ _ (if ?b then _ else _) => destruct b
    | |- preserves _ _ (match ?x with _ => _ end) => destruct x
    end ]).

#[local] Instance same_messages_preorder : PreOrder same_messages.
Proof.
  split.
  - intros rows. unfold same_messages. apply Forall2_same_length_lookup_2; [done|].
    intros i m m' H1 H2. assert (m' = m) as -> by congruence. done.
  - intros rows1 rows2 rows3 H12 H23. unfold same_messages in *.
    eapply Forall2_trans; [|exact H12|exact H23].
    simpl. intros m1 m2 m3 (?&?&?&?&?&?) (?&?&?&?&?&?).
    split_and!; try congruence. auto.
Qed.

Lemma same_messages_fmap (f : chat_message → chat_message) rows :
  (∀ m, f m = m ∨ ∃ at_, f m = mark_processed at_ m) →
  same_messages rows (f <$> rows).
Proof.
  intros Hf. unfold same_messages. apply Forall2_fmap_r, Forall_Forall2_diag, Forall_forall.
  intros m _. simpl. destruct (Hf m) as [E|[at_ E]]; rewrite E; by split_and!.
Qed.

Lemma same_messages_update_eq_id at_ i rows :
  same_messages rows (update_eq_id at_ i rows).
Proof. apply same_messages_fmap. intros m. destruct (decide _); eauto. Qed.

Lemma same_messages_update_in_id at_ ids rows :
  same_messages rows (update_in_id at_ ids rows).
Proof. apply same_messages_fmap. intros m. destruct (decide _); eauto. Qed.

Ltac messages_side :=
  intros; cbn [chat_messages set_chat_messages set_memories];
  first [reflexivity | apply same_messages_update_eq_id | apply same_messages_update_in_id].

Lemma save_memories_same_messages jd uid sid t todo : ∀ saved,
  preserves chat_messages same_messages
    (ExecutionSummary.save_memories jd uid sid t todo saved).
Proof.
  induction todo as [|memory todo IH]; intros saved; simpl.
  - apply preserves_ret, _.
  - apply preserves_bind; [apply _| |intros b; apply IH].
    unfold ExecutionSummary.save_memory. preserved messages_side.
Qed.

(** X13. A run of trigger_memory_extraction, in either version and whatever
    fails on the way, leaves every row of chat_messages in place: no row
    is added, removed or reordered, and no id, session, role, content or
    creation time changes. All it can do to a row is set its processed
    flag and its processing time; it never clears a flag. *)
Theorem runs_keep_messages :
  (∀ (self : CodeSnippets.workflow) (state : CodeSnippets.state_for_memory)
     (w : world CodeSnippets.memory_row),
     same_messages (chat_messages w)
       (chat_messages (CodeSnippets.trigger_memory_extraction self state w).2))
  ∧ (∀ (json_dumps : MemoryArchitecture.memory_item → string)
       (self : ExecutionSummary.workflow) (sid uid : string)
       (w : world ExecutionSummary.memory_row),
       same_messages (chat_messages w)
         (chat_messages
            (ExecutionSummary.trigger_memory_extraction json_dumps self sid uid w).2)).
Proof.
  split.
  - intros self state.
    change (preserves chat_messages same_messages
              (CodeSnippets.trigger_memory_extraction self state)).
    unfold CodeSnippets.trigger_memory_extraction. preserved messages_side.
  - intros jd self sid uid.
    change (preserves chat_messages same_messages
              (ExecutionSummary.trigger_memory_extraction jd self sid uid)).
    unfold ExecutionSummary.trigger_memory_extraction,
      ExecutionSummary.fetch_last_n_messages, ExecutionSummary.save_all,
      ExecutionSummary.mark_messages.
    preserved messages_side; apply save_memories_same_messages.
Qed.

Ltac memories_side :=
  intros; cbn [memories set_chat_messages set_memories];
  first [reflexivity | by apply prefix_app_r].

Lemma save_memories_prefix jd uid sid t todo : ∀ saved,
  preserves memories prefix (ExecutionSummary.save_memories jd uid sid t todo saved).
Proof.
  induction todo as [|memory todo IH]; intros saved; simpl.
  - apply preserves_ret, _.
  - apply preserves_bind; [apply _| |intros b; apply IH].
    unfold ExecutionSummary.save_memory. preserved memories_side.
Qed.

(** X14. A run of trigger_memory_extraction, in either version and whatever
    fails on the way, only appends to the memories table: the rows that
    were stored before the run are still there after it, unchanged and in
    the same order, followed by the rows the run inserted. *)
Theorem runs_only_append_memories :
  (∀ (self : CodeSnippets.workflow) (state : CodeSnippets.state_for_memory)
     (w : world CodeSnippets.memory_row),
     memories w `prefix_of`
       memories (CodeSnippets.trigger_memory_extraction self state w).2)
  ∧ (∀ (json_dumps : MemoryArchitecture.memory_item → string)
       (self : ExecutionSummary.workflow) (sid uid : string)
       (w : world ExecutionSummary.memory_row),
       memories w `prefix_of`
         memories (ExecutionSummary.trigger_memory_extraction json_dumps self sid uid w).2).
Proof.
  split.
  - intros self state.
    change (preserves memories prefix (CodeSnippets.trigger_memory_extraction self state)).
    unfold CodeSnippets.trigger_memory_extraction. preserved memories_side.
  - intros jd self sid uid.
    change (preserves memories prefix
              (ExecutionSummary.trigger_memory_extraction jd self sid uid)).
    unfold ExecutionSummary.trigger_memory_extraction,
      ExecutionSummary.fetch_last_n_messages, ExecutionSummary.save_all,
      ExecutionSummary.mark_messages.
    preserved memories_side; apply save_memories_prefix.
Qed.

(** X15. The functions that only read never write: fetch_session_memories,
    fetch_last_n_messages, get_session_message_count and the trigger block
    of /chat, in both versions, and the analyst's prompt, leave the three
    tables exactly as they were, also when a request fails. *)
Theorem readers_never_write :
  (∀ (self : CodeSnippets.workflow) (uid sid : string) (n : nat)
     (request : CodeSnippets.chat_request) (w : world CodeSnippets.memory_row),
     tables (CodeSnippets.fetch_session_memories self uid sid w).2 = tables w
     ∧ tables (CodeSnippets.fetch_last_n_messages self sid n w).2 = tables w
     ∧ tables (CodeSnippets.get_session_message_count self sid w).2 = tables w
     ∧ tables (CodeSnippets.chat_memory_trigger self request w).2 = tables w)
  ∧ (∀ (self : ExecutionSummary.workflow) (client result : bool) (sid rest : string)
       (n : nat) (request : ExecutionSummary.chat_request)
       (state : ExecutionSummary.analyst_state) (w : world ExecutionSummary.memory_row),
       tables (ExecutionSummary.fetch_session_memories self sid w).2 = tables w
       ∧ tables (ExecutionSummary.fetch_last_n_messages self sid n w).2 = tables w
       ∧ tables (ExecutionSummary.get_session_message_count client sid w).2 = tables w
       ∧ tables (ExecutionSummary.chat_memory_trigger client result request w).2 = tables w
       ∧ tables (ExecutionSummary.psychological_analyst_prompt rest self state w).2
         = tables w).
Proof.
  assert (∀ {R A} (m : M R A), preserves tables eq m → ∀ w, tables (m w).2 = tables w)
    as Hread by (intros R A m Hm w; symmetry; apply Hm).
  split.
  - intros self uid sid n request w. split_and!; apply Hread.
    + unfold CodeSnippets.fetch_session_memories. preserved fail.
    + unfold CodeSnippets.fetch_last_n_messages. preserved fail.
    + unfold CodeSnippets.get_session_message_count. preserved fail.
    + unfold CodeSnippets.chat_memory_trigger, CodeSnippets.get_session_message_count.
      preserved fail.
  - intros self client result sid rest n request state w. split_and!; apply Hread.
    + unfold ExecutionSummary.fetch_session_memories. preserved fail.
    + unfold ExecutionSummary.fetch_last_n_messages. preserved fail.
    + unfold ExecutionSummary.get_session_message_count. preserved fail.
    + unfold ExecutionSummary.chat_memory_trigger,
        ExecutionSummary.get_session_message_count. preserved fail.
    + unfold ExecutionSummary.psychological_analyst_prompt,
        ExecutionSummary.fetch_session_memories. preserved fail.
Qed.

End invariants.

(** ** A run of the snippets under any fault schedule *)

Section snippets_any_schedule.

Import Supabase.

Lemma try_except_reraise {R A} (m : M R A) (w : world R) :
  try_except m (λ e, raise e) w = m w.
Proof. unfold try_except, raise. by destruct (m w) as [[a|e] w']. Qed.

Lemma select_chat_messages_refused {R A} (q : list chat_message → A) (w : world R) :
  head (faults w) = Some true →
  select_chat_messages q w = (Raise (Exception "request failed"), after_request w).
Proof. apply execute_refused. Qed.

Lemma select_user_activities_refused {R A} (q : list activity → A) (w : world R) :
  head (faults w) = Some true →
  select_user_activities q w = (Raise (Exception "request failed"), after_request w).
Proof. apply execute_refused. Qed.

Lemma marked_exactly_nil at_ rows : marked_exactly at_ [] rows = rows.
Proof.
  unfold marked_exactly. rewrite <- (list_fmap_id rows) at 2.
  apply list_fmap_ext. intros i m _. rewrite decide_False; [done|apply not_elem_of_nil].
Qed.

Lemma mark_message_answered i (w : world CodeSnippets.memory_row) :
  answered w →
  CodeSnippets.mark_message i w
  = (Ok (), set_chat_messages (update_eq_id (Some (clock w)) i (chat_messages w))
              (after_request w)).
Proof.
  intros Ha. unfold CodeSnippets.mark_message.
  erewrite bind_ok; [|reflexivity]. by apply update_chat_messages_answered.
Qed.

Lemma mark_message_refused i (w : world CodeSnippets.memory_row) :
  head (faults w) = Some true →
  CodeSnippets.mark_message i w = (Raise (Exception "request failed"), after_request w).
Proof.
  intros Hr. unfold CodeSnippets.mark_message.
  erewrite bind_ok; [|reflexivity]. by apply update_chat_messages_refused.
Qed.

(** The loop over message_ids stops at the first update that raises: the
    ids before it are marked, the others are not. *)
Lemma for_each_mark_any ids : ∀ (w : world CodeSnippets.memory_row),
  ∃ k, k ≤ length ids
    ∧ chat_messages (for_each ids CodeSnippets.mark_message w).2
      = foldl (λ rows i, update_eq_id (Some (clock w)) i rows) (chat_messages w)
          (take k ids)
    ∧ memories (for_each ids CodeSnippets.mark_message w).2 = memories w
    ∧ (((for_each ids CodeSnippets.mark_message w).1 = Ok () ∧ k = length ids)
       ∨ ((∃ e, (for_each ids CodeSnippets.mark_message w).1 = Raise e)
          ∧ k < length ids)).
Proof.
  induction ids as [|i ids IH]; intros w.
  { exists 0. simpl. split_and!; [lia|done|done|by left]. }
  cbn [for_each]. destruct (answered_or_refused w) as [Ha|Hr].
  - rewrite (bind_ok _ _ _ _ _ (mark_message_answered i w Ha)).
    destruct (IH (set_chat_messages (update_eq_id (Some (clock w)) i (chat_messages w))
                    (after_request w))) as (k & Hk & Hc & Hm & Hres).
    exists (S k). split_and!.
    + simpl. lia.
    + rewrite Hc. done.
    + rewrite Hm. done.
    + destruct Hres as [[Hok ->]|[He Hlt]]; [by left|right].
      split; [done|simpl; lia].
  - rewrite (bind_raise _ _ _ _ _ (mark_message_refused i w Hr)).
    exists 0. simpl. split_and!; [lia|done|done|].
    right. split; [by eexists|lia].
Qed.

(** What a run does to the two tables, whatever fails: nothing, or one
    row inserted and the ids of a prefix of the window marked. *)
Lemma snippets_run_any (self : CodeSnippets.workflow) (uid sid : string) (count : Z)
    (w : world CodeSnippets.memory_row) :
  let r := CodeSnippets.trigger_memory_extraction self
             (CodeSnippets.StateForMemory uid sid count) w in
  let window := CodeSnippets.unprocessed_query sid (chat_messages w) in
  (memories r.2 = memories w ∧ chat_messages r.2 = chat_messages w)
  ∨ (∃ row k,
       memories r.2 = memories w ++ [row]
       ∧ k ≤ length window
       ∧ chat_messages r.2
         = foldl (λ rows i, update_eq_id (Some (clock w)) i rows) (chat_messages w)
             (take k (id <$> window))
       ∧ ((r.1 = Ok () ∧ k = length window)
          ∨ ((∃ e, r.1 = Raise e) ∧ k < length window))).
Proof.
  cbv zeta. unfold CodeSnippets.trigger_memory_extraction.
  rewrite try_except_reraise. cbn [CodeSnippets.state_user_id CodeSnippets.state_session_id].
  destruct (CodeSnippets.supabase_credentials self); cbn [negb]; [|by left].
  destruct (answered_or_refused w) as [Ha|Hr];
    [|rewrite (bind_raise _ _ _ _ _ (select_chat_messages_refused _ w Hr)); by left].
  rewrite (bind_ok _ _ _ _ _ (select_chat_messages_answered _ w Ha)).
  destruct (CodeSnippets.unprocessed_query sid (chat_messages w)) as [|m0 win] eqn:Ewin;
    [by left|].
  set (w1 := after_request w).
  destruct (answered_or_refused w1) as [Ha1|Hr1];
    [|rewrite (bind_raise _ _ _ _ _ (select_user_activities_refused _ w1 Hr1)); by left].
  rewrite (bind_ok _ _ _ _ _ (select_user_activities_answered _ w1 Ha1)).
  destruct (CodeSnippets.memory_system self) as [extract|]; [|by left].
  set (w2 := after_request w1).
  match goal with
  | |- context [lift (extract ?input)] => destruct (extract input) as [out|e] eqn:Hex
  end.
  2: { erewrite bind_raise; [|reflexivity]. by left. }
  erewrite bind_ok; [|reflexivity].
  destruct (answered_or_refused w2) as [Ha2|Hr2];
    [|rewrite (bind_raise _ _ _ _ _ (insert_memory_refused _ w2 Hr2)); by left].
  rewrite (bind_ok _ _ _ _ _ (insert_memory_answered _ w2 Ha2)).
  match goal with
  | |- context [set_memories (memories w2 ++ [?row]) (after_request w2)] =>
    set (w3 := set_memories (memories w2 ++ [row]) (after_request w2));
    destruct (for_each_mark_any (id <$> m0 :: win) w3) as (k & Hk & Hc & Hm & Hres);
    right; exists row, k
  end.
  rewrite length_fmap in Hk, Hres. by split_and!.
Qed.

(** X16. In the version of the snippets a run marks messages only after it
    has inserted its memories row: whatever fails, a run either leaves
    every row of chat_messages exactly as it was, or it has added one row
    to the memories table. *)
Theorem snippets_marks_only_after_insert (self : CodeSnippets.workflow)
    (state : CodeSnippets.state_for_memory) (w : world CodeSnippets.memory_row) :
  let w' := (CodeSnippets.trigger_memory_extraction self state w).2 in
  chat_messages w' = chat_messages w ∨ ∃ row, memories w' = memories w ++ [row].
Proof.
  destruct state as [uid sid count]. cbv zeta.
  destruct (snippets_run_any self uid sid count w) as [[_ Hc]|(row & k & Hm & _)];
    [by left|right; by exists row].
Qed.

(** X17. In the version of the snippets the window is marked one message
    at a time, oldest first, and an update that raises ends the run: under
    the primary key, the rows a run has marked are always the first k rows
    of its window, each with the time of the run, for some k. When k is
    positive the memories row has been inserted; when the run returns
    normally k is 0 or the whole window; and when only a part of the
    window is marked the run has raised. *)
Theorem snippets_marks_prefix_of_window (self : CodeSnippets.workflow) (uid sid : string)
    (count : Z) (w : world CodeSnippets.memory_row) :
  primary_key (chat_messages w) →
  let r := CodeSnippets.trigger_memory_extraction self
             (CodeSnippets.StateForMemory uid sid count) w in
  let window := CodeSnippets.unprocessed_query sid (chat_messages w) in
  ∃ k, k ≤ length window
    ∧ chat_messages r.2
      = marked_exactly (Some (clock w)) (take k window) (chat_messages w)
    ∧ (0 < k → ∃ row, memories r.2 = memories w ++ [row])
    ∧ (r.1 = Ok () → k = 0 ∨ k = length window)
    ∧ (0 < k < length window → ∃ e, r.1 = Raise e).
Proof.
  intros Hpk. cbv zeta.
  destruct (snippets_run_any self uid sid count w)
    as [[Hm Hc]|(row & k & Hm & Hk & Hc & Hres)].
  - exists 0. rewrite take_0, marked_exactly_nil.
    split_and!; [lia|done|lia|by left|lia].
  - exists k. split_and!; [done| |by eauto| |].
    + rewrite Hc, update_eq_id_fold, <- fmap_take.
      apply update_in_id_exact; [done|].
      intros m Hm'. apply elem_of_take in Hm' as (i & Hi & _).
      apply list_elem_of_lookup_2 in Hi. by apply snippets_window_rows in Hi as [? _].
    + destruct Hres as [[_ ->]|[[e He] _]]; [by right|]. by rewrite He.
    + intros [_ Hlt]. destruct Hres as [[_ ->]|[He _]]; [lia|done].
Qed.

End snippets_any_schedule.

(** ** A run of the summary under any fault schedule *)

Section summary_any_schedule.

Import Supabase.

Variable json_dumps : MemoryArchitecture.memory_item → string.

Local Abbreviation run self sid uid :=
  (ExecutionSummary.trigger_memory_extraction json_dumps self sid uid).

Lemma fetch_last_n_messages_off (self : ExecutionSummary.workflow) sid n
    (w : world ExecutionSummary.memory_row) :
  ExecutionSummary.supabase self = false ∨ sid = "" →
  ExecutionSummary.fetch_last_n_messages self sid n w = (Ok [], w).
Proof.
  intros H. unfold ExecutionSummary.fetch_last_n_messages.
  destruct H as [->| ->]; [done|]. by rewrite orb_true_r.
Qed.

(** What a run does, whatever fails. It always returns normally. Either
    it stops before it stores anything, and the two tables are as they
    were; or the window was selected and the extraction returned, and
    then the one update marks the whole window if it is answered and
    nothing if it is refused. *)
Lemma summary_run_any (self : ExecutionSummary.workflow) (sid uid : string)
    (w : world ExecutionSummary.memory_row) :
  let window := ExecutionSummary.unprocessed_query sid 15 (chat_messages w) in
  ((ExecutionSummary.supabase self = false ∨ sid = "" ∨ head (faults w) = Some true
    ∨ window = [] ∨ ExecutionSummary.memory_system self = None
    ∨ ∃ process e, ExecutionSummary.memory_system self = Some process
                   ∧ process (summary_input uid sid w) = Raise e)
   ∧ (run self sid uid w).1 = Ok ()
   ∧ memories (run self sid uid w).2 = memories w
   ∧ chat_messages (run self sid uid w).2 = chat_messages w)
  ∨ (∃ process out,
       ExecutionSummary.supabase self = true ∧ sid ≠ "" ∧ answered w ∧ window ≠ []
       ∧ ExecutionSummary.memory_system self = Some process
       ∧ process (summary_input uid sid w) = Ok out
       ∧ (run self sid uid w).1 = Ok ()
       ∧ ((head (drop (memories_in out) (tail (faults w))) ≠ Some true
           ∧ chat_messages (run self sid uid w).2
             = update_in_id None (id <$> window) (chat_messages w))
          ∨ (head (drop (memories_in out) (tail (faults w))) = Some true
             ∧ chat_messages (run self sid uid w).2 = chat_messages w))).
Proof.
  cbv zeta. unfold ExecutionSummary.trigger_memory_extraction.
  destruct (ExecutionSummary.supabase self) eqn:Hs.
  2: { left. erewrite try_except_ok;
         [|erewrite bind_ok; [|apply fetch_last_n_messages_off; by left]; reflexivity].
       split_and!; auto. }
  destruct (decide (sid = "")) as [Hsid|Hsid].
  { left. erewrite try_except_ok;
      [|erewrite bind_ok; [|apply fetch_last_n_messages_off; by right]; reflexivity].
    split_and!; auto. }
  destruct (answered_or_refused w) as [Ha|Hr].
  2: { left. destruct (fetch_last_n_messages_refused self sid 15 w Hr)
         as (w' & Hf & Hc & Hm).
       erewrite try_except_ok; [|erewrite bind_ok; [|exact Hf]; reflexivity].
       split_and!; auto. }
  pose proof (fetch_last_n_messages_answered self sid 15 w Hs Hsid Ha) as Hf.
  destruct (ExecutionSummary.unprocessed_query sid 15 (chat_messages w))
    as [|m0 win] eqn:Ewin.
  { left. erewrite try_except_ok; [|erewrite bind_ok; [|exact Hf]; reflexivity].
    split_and!; auto 10. }
  destruct (ExecutionSummary.memory_system self) as [process|] eqn:Hms.
  2: { left. erewrite try_except_ok; [|erewrite bind_ok; [|exact Hf]; reflexivity].
       split_and!; auto 10. }
  assert (summary_input uid sid w
          = MemoryArchitecture.InputObj
              (MemoryArchitecture.InputDict (Some "chat") (Some uid) (Some sid)
                 (ExecutionSummary.to_message <$> m0 :: win) [])) as Hin
    by (unfold summary_input; by rewrite Ewin).
  destruct (process (summary_input uid sid w)) as [out|e] eqn:Hex.
  2: { left. erewrite try_except_raise;
         [|erewrite bind_ok; [|exact Hf]; rewrite fmap_cons;
           erewrite bind_raise; [reflexivity|]; unfold lift;
           rewrite <- fmap_cons, <- Hin, Hex; reflexivity].
       split_and!; [|done..]. do 5 right. by exists process, e. }
  right. exists process, out.
  destruct (save_all_run json_dumps uid sid out (after_request w))
    as (n & w1 & Hsave & Hc1 & Hf1 & Hk1 & Hm1).
  destruct (answered_or_refused w1) as [Ha1|Hr1].
  - pose proof (mark_messages_answered (m0 :: win) w1 ltac:(done) Ha1) as Hmark.
    erewrite try_except_ok;
      [|erewrite bind_ok; [|exact Hf]; rewrite fmap_cons;
        erewrite bind_ok; [|unfold lift; rewrite <- fmap_cons, <- Hin, Hex; reflexivity];
        erewrite bind_ok; [|exact Hsave]; rewrite <- fmap_cons; exact Hmark].
    split_and!; try done. left. split.
    + unfold answered in Ha1. by rewrite Hf1 in Ha1.
    + cbn [snd chat_messages set_chat_messages]. by rewrite Hc1.
  - destruct (mark_messages_refused (ExecutionSummary.to_message <$> m0 :: win) w1 Hr1)
      as (w2 & Hmark & Hc2 & Hm2).
    erewrite try_except_ok;
      [|erewrite bind_ok; [|exact Hf]; rewrite fmap_cons;
        erewrite bind_ok; [|unfold lift; rewrite <- fmap_cons, <- Hin, Hex; reflexivity];
        erewrite bind_ok; [|exact Hsave]; rewrite <- fmap_cons; exact Hmark].
    split_and!; try done. right. split.
    + by rewrite Hf1 in Hr1.
    + cbn [snd]. by rewrite Hc2, Hc1.
Qed.

End summary_any_schedule.

(** ** Marked windows *)

Section marked_windows.

Import Supabase.

Lemma foldl_marks_prefix t k window rows :
  primary_key rows → window ⊆ rows →
  foldl (λ rows i, update_eq_id (Some t) i rows) rows (take k (id <$> window))
  = marked_exactly (Some t) (take k window) rows.
Proof.
  intros Hpk Hsub. rewrite update_eq_id_fold, <- fmap_take.
  apply update_in_id_exact; [done|].
  intros m Hm. apply Hsub. apply elem_of_take in Hm as (i & Hi & _).
  by eapply list_elem_of_lookup_2.
Qed.

(** Marking rows of one session leaves the rows of the others as they are. *)
Lemma other_sessions_marked at_ sid window rows :
  (∀ m, m ∈ window → session_id m = sid) →
  other_sessions sid (marked_exactly at_ window rows) = other_sessions sid rows.
Proof.
  intros Hwin. unfold other_sessions, marked_exactly.
  induction rows as [|m rows IH]; [done|].
  rewrite fmap_cons, !filter_cons, IH.
  destruct (decide (m ∈ window)) as [Hin|Hnin]; [|done].
  rewrite (decide_False (P := session_id (mark_processed at_ m) ≠ sid))
    by (simpl; rewrite (Hwin m Hin); tauto).
  by rewrite (decide_False (P := session_id m ≠ sid)) by (rewrite (Hwin m Hin); tauto).
Qed.

(** After the rows of a window are marked, the unprocessed rows of the
    session are those that were not in the window. *)
Lemma unprocessed_marked at_ sid window rows :
  unprocessed sid (marked_exactly at_ window rows)
  = filter (λ m, m ∉ window) (unprocessed sid rows).
Proof.
  unfold unprocessed, eq_processed_into_memory, eq_session_id, marked_exactly.
  induction rows as [|m rows IH]; [done|].
  rewrite fmap_cons. rewrite (filter_cons (λ m, session_id m = sid) _ (_ <$> rows)).
  rewrite (filter_cons (λ m, session_id m = sid) m rows).
  destruct (decide (m ∈ window)) as [Hin|Hnin]; simpl.
  - destruct (decide (session_id m = sid)) as [Hs|Hs].
    + rewrite filter_cons_False by done. rewrite IH.
      rewrite (filter_cons (λ m, processed_into_memory m = false)).
      destruct (decide (processed_into_memory m = false)); [|done].
      by rewrite filter_cons_False by (intros H; by apply H).
    + exact IH.
  - destruct (decide (session_id m = sid)) as [Hs|Hs]; [|exact IH].
    rewrite !(filter_cons (λ m, processed_into_memory m = false)).
    destruct (decide (processed_into_memory m = false)); [|exact IH].
    rewrite filter_cons_True by done. by rewrite IH.
Qed.

Lemma length_filter_out {A} `{EqDecision A} (window l : list A) :
  NoDup l → NoDup window → window ⊆ l →
  length (filter (λ x, x ∉ window) l) = length l - length window.
Proof.
  intros Hl Hw Hsub.
  pose proof (filter_app_complement (λ x, x ∈ window) l) as Hperm.
  apply Permutation_length in Hperm. rewrite length_app in Hperm.
  assert (filter (λ x, x ∈ window) l ≡ₚ window) as Hin.
  { apply NoDup_Permutation; [by apply NoDup_filter|done|].
    intros x. rewrite list_elem_of_filter. split; [by intros [? _]|]. intros Hx.
    split; [done|by apply Hsub]. }
  apply Permutation_length in Hin. lia.
Qed.

(** Marking a window of n rows taken from the unprocessed rows of a
    session leaves n fewer of them. *)
Lemma unprocessed_after_window at_ sid n rows :
  primary_key rows →
  length (unprocessed sid
            (marked_exactly at_ (limit n (order_created_at false (unprocessed sid rows)))
               rows))
  = length (unprocessed sid rows) - n.
Proof.
  intros Hpk. rewrite unprocessed_marked.
  assert (NoDup (unprocessed sid rows)) as Hnd.
  { unfold unprocessed, eq_processed_into_memory, eq_session_id.
    do 2 apply NoDup_filter. by apply (NoDup_fmap_1 id). }
  assert (NoDup (order_created_at false (unprocessed sid rows))) as Hnd'
    by (by rewrite order_created_at_perm).
  rewrite length_filter_out; [|done| |].
  - unfold limit. rewrite length_take.
    rewrite (Permutation_length (order_created_at_perm false (unprocessed sid rows))). lia.
  - exact (sublist_NoDup _ _ Hnd' (sublist_take _ _)).
  - intros m Hm%elem_of_limit. by rewrite order_created_at_perm in Hm.
Qed.

End marked_windows.

(** ** Which messages a window holds *)

Section windows.

Import Supabase.

Lemma oldest_of_limit n pool : oldest_of n (limit n (order_created_at false pool)) pool.
Proof.
  pose proof (order_created_at_perm false pool) as Hperm.
  pose proof (order_created_at_sorted pool) as Hsorted.
  rewrite <- (take_drop n (order_created_at false pool)) in Hsorted.
  unfold oldest_of, limit. split_and!.
  - by rewrite length_take, (Permutation_length Hperm).
  - intros m Hm. rewrite <- Hperm. apply elem_of_take in Hm as (i & Hi & _).
    by eapply list_elem_of_lookup_2.
  - by apply StronglySorted_app_1_l in Hsorted.
  - intros m m' Hm Hm' Hout.
    rewrite <- Hperm, <- (take_drop n (order_created_at false pool)) in Hm'.
    apply elem_of_app in Hm' as [Hm'|Hm']; [done|].
    by apply (StronglySorted_app_1_elem_of _ _ _ _ _ Hsorted).
Qed.

(** X18. Which messages the windows hold. The window a run of either
    version selects, and the list the summary's fetch_last_n_messages
    returns, are the n oldest unprocessed messages of the session, oldest
    first (n is 20 for the run of the snippets, 15 for the run of the
    summary): any unprocessed message of the session that is left out is
    at least as new as every message taken. The snippets'
    fetch_last_n_messages returns the n oldest messages of the session
    whether they are processed or not. *)
Theorem windows_hold_the_oldest :
  (∀ (sid : string) (rows : list chat_message),
     oldest_of 20 (CodeSnippets.unprocessed_query sid rows) (unprocessed sid rows))
  ∧ (∀ (self : ExecutionSummary.workflow) (sid : string) (n : nat)
       (w : world ExecutionSummary.memory_row),
       ExecutionSummary.supabase self = true → sid ≠ "" → answered w →
       ∃ window,
         (ExecutionSummary.fetch_last_n_messages self sid n w).1
         = Ok (ExecutionSummary.to_message <$> window)
         ∧ oldest_of n window (unprocessed sid (chat_messages w)))
  ∧ (∀ (self : CodeSnippets.workflow) (sid : string) (n : nat)
       (w : world CodeSnippets.memory_row),
       CodeSnippets.supabase_credentials self = true → answered w →
       ∃ window,
         (CodeSnippets.fetch_last_n_messages self sid n w).1 = Ok window
         ∧ oldest_of n window (eq_session_id sid (chat_messages w))).
Proof.
  split_and!.
  - intros sid rows. apply oldest_of_limit.
  - intros self sid n w Hs Hsid Ha.
    exists (ExecutionSummary.unprocessed_query sid n (chat_messages w)). split.
    + by rewrite fetch_last_n_messages_answered.
    + apply oldest_of_limit.
  - intros self sid n w Hcred Ha.
    exists (limit n (order_created_at false (eq_session_id sid (chat_messages w)))). split.
    + by apply snippets_fetch_last_n_messages_answered.
    + apply oldest_of_limit.
Qed.

End windows.

(** ** Sessions, backlog, and what is read back after a run *)

Section after_a_run.

Import Supabase.

(** X19. A run for one session never touches a message of another
    session: under the primary key, and whatever fails on the way, the
    rows of chat_messages that belong to other sessions are after the run
    exactly what they were before it. This holds in both versions. *)
Theorem runs_leave_other_sessions :
  (∀ (self : CodeSnippets.workflow) (uid sid : string) (count : Z)
     (w : world CodeSnippets.memory_row),
     primary_key (chat_messages w) →
     other_sessions sid
       (chat_messages (CodeSnippets.trigger_memory_extraction self
                         (CodeSnippets.StateForMemory uid sid count) w).2)
     = other_sessions sid (chat_messages w))
  ∧ (∀ (json_dumps : MemoryArchitecture.memory_item → string)
       (self : ExecutionSummary.workflow) (sid uid : string)
       (w : world ExecutionSummary.memory_row),
       primary_key (chat_messages w) →
       other_sessions sid
         (chat_messages
            (ExecutionSummary.trigger_memory_extraction json_dumps self sid uid w).2)
       = other_sessions sid (chat_messages w)).
Proof.
  split.
  - intros self uid sid count w Hpk.
    destruct (snippets_run_any self uid sid count w)
      as [[_ ->]|(row & k & _ & _ & -> & _)]; [done|].
    rewrite foldl_marks_prefix; [|done|].
    + apply other_sessions_marked. intros m Hm.
      apply elem_of_take in Hm as (i & Hi & _). apply list_elem_of_lookup_2 in Hi.
      by apply snippets_window_rows in Hi as (_ & ? & _).
    + intros m Hm. by apply snippets_window_rows in Hm as [? _].
  - intros jd self sid uid w Hpk.
    destruct (summary_run_any jd self sid uid w)
      as [(_ & _ & _ & ->)|(p & out & _ & _ & _ & _ & _ & _ & _ & [[_ ->]|[_ ->]])];
      [done| |done].
    rewrite update_in_id_exact; [|done|].
    + apply other_sessions_marked. intros m Hm.
      by apply summary_window_rows in Hm as (_ & ? & _).
    + intros m Hm. by apply summary_window_rows in Hm as [? _].
Qed.

(** X20. A run in which nothing fails takes its whole window off the
    backlog: afterwards the session has 20 fewer unprocessed messages in
    the version of the snippets, and 15 fewer in the version of the
    summary (none left when there were fewer). *)
Theorem successful_run_shrinks_backlog :
  (∀ (self : CodeSnippets.workflow) (uid sid : string) (count : Z)
     (w : world CodeSnippets.memory_row) extract out,
     CodeSnippets.supabase_credentials self = true →
     CodeSnippets.memory_system self = Some extract →
     faults w = [] →
     primary_key (chat_messages w) →
     CodeSnippets.unprocessed_query sid (chat_messages w) ≠ [] →
     extract (snippets_input uid sid w) = Ok out →
     length (unprocessed sid
               (chat_messages (CodeSnippets.trigger_memory_extraction self
                                 (CodeSnippets.StateForMemory uid sid count) w).2))
     = length (unprocessed sid (chat_messages w)) - 20)
  ∧ (∀ (json_dumps : MemoryArchitecture.memory_item → string)
       (self : ExecutionSummary.workflow) (uid sid : string)
       (w : world ExecutionSummary.memory_row) process out,
       ExecutionSummary.supabase self = true → sid ≠ "" →
       ExecutionSummary.memory_system self = Some process →
       faults w = [] →
       primary_key (chat_messages w) →
       ExecutionSummary.unprocessed_query sid 15 (chat_messages w) ≠ [] →
       process (summary_input uid sid w) = Ok out →
       length (unprocessed sid
                 (chat_messages
                    (ExecutionSummary.trigger_memory_extraction json_dumps self
                       sid uid w).2))
       = length (unprocessed sid (chat_messages w)) - 15).
Proof.
  split.
  - intros self uid sid count w extract out Hcred Hms Hq Hpk Hwin Hex.
    destruct (snippets_run_ok self uid sid count w extract out Hcred Hms Hq Hpk Hwin Hex)
      as (w' & -> & _ & Hc).
    cbn [snd]. rewrite Hc. by apply unprocessed_after_window.
  - intros jd self uid sid w process out Hs Hsid Hms Hq Hpk Hwin Hex.
    destruct (summary_run_marks jd self uid sid w process out Hs Hsid Hms)
      as (w' & -> & Hc & _); try done.
    + by apply answered_quiet.
    + rewrite Hq. simpl. by rewrite drop_nil.
    + cbn [snd]. rewrite Hc. by apply unprocessed_after_window.
Qed.

End after_a_run.

(** ** The summary's run: one update for the window, errors swallowed *)

Section summary_window.

Import Supabase.

Variable json_dumps : MemoryArchitecture.memory_item → string.

Local Abbreviation run self sid uid :=
  (ExecutionSummary.trigger_memory_extraction json_dumps self sid uid).

(** X21. The summary's run never raises, and it marks its window with one
    update: under the primary key, and whatever fails on the way, after
    the run either no row of chat_messages has changed, or exactly the
    rows of the window are marked. A window is never left half marked. *)
Theorem summary_marks_all_or_nothing (self : ExecutionSummary.workflow) (sid uid : string)
    (w : world ExecutionSummary.memory_row) :
  primary_key (chat_messages w) →
  (run self sid uid w).1 = Ok ()
  ∧ (chat_messages (run self sid uid w).2 = chat_messages w
     ∨ chat_messages (run self sid uid w).2
       = marked_exactly None
           (ExecutionSummary.unprocessed_query sid 15 (chat_messages w))
           (chat_messages w)).
Proof.
  intros Hpk.
  destruct (summary_run_any json_dumps self sid uid w)
    as [(_ & Hr & _ & Hc)|(p & out & _ & _ & _ & _ & _ & _ & Hr & [[_ Hc]|[_ Hc]])];
    (split; [done|]); [by left| |by left].
  right. rewrite Hc. apply update_in_id_exact; [done|].
  intros m Hm. by apply summary_window_rows in Hm as [? _].
Qed.

(** X22. The summary's run stops before it stores or marks anything when
    there is no Supabase client or no session id, when the select of the
    window raises, when the window is empty, when the memory system is
    missing, or when the extraction raises. It then returns normally and
    both tables are as they were, so the same messages are selected again
    by the next run. *)
Theorem summary_run_stops_early (self : ExecutionSummary.workflow) (sid uid : string)
    (w : world ExecutionSummary.memory_row) :
  ExecutionSummary.supabase self = false ∨ sid = "" ∨ head (faults w) = Some true
  ∨ ExecutionSummary.unprocessed_query sid 15 (chat_messages w) = []
  ∨ ExecutionSummary.memory_system self = None
  ∨ (∃ process e, ExecutionSummary.memory_system self = Some process
                  ∧ process (summary_input uid sid w) = Raise e) →
  (run self sid uid w).1 = Ok ()
  ∧ memories (run self sid uid w).2 = memories w
  ∧ chat_messages (run self sid uid w).2 = chat_messages w.
Proof.
  intros Hstop.
  destruct (summary_run_any json_dumps self sid uid w)
    as [(_ & Hr & Hm & Hc)|(p & out & Hs & Hsid & Ha & Hwin & Hms & Hex & _)]; [done|].
  exfalso. destruct Hstop as [H|[H|[H|[H|[H|(p' & e & H & He)]]]]]; congruence.
Qed.

Lemma save_memory_answered uid sid t memory (w : world ExecutionSummary.memory_row) :
  answered w →
  ExecutionSummary.save_memory json_dumps uid sid t memory w
  = (Ok true,
     set_memories (memories w ++ rows_of json_dumps uid sid (clock w) t [memory])
       (after_request w)).
Proof.
  intros Ha. unfold ExecutionSummary.save_memory, now.
  apply try_except_ok. erewrite bind_ok; [|reflexivity].
  erewrite bind_ok; [|by apply insert_memory_answered]. reflexivity.
Qed.

Lemma save_memories_answered uid sid t todo :
  ∀ saved (w : world ExecutionSummary.memory_row) fs,
  faults w = replicate (length todo) false ++ fs →
  ∃ n w', ExecutionSummary.save_memories json_dumps uid sid t todo saved w = (Ok n, w')
    ∧ chat_messages w' = chat_messages w
    ∧ faults w' = fs
    ∧ clock w' = clock w
    ∧ memories w' = memories w ++ rows_of json_dumps uid sid (clock w) t todo.
Proof.
  induction todo as [|memory todo IH]; intros saved w fs Hf.
  - exists saved, w. split_and!; try done. by rewrite app_nil_r.
  - assert (answered w) as Ha by (unfold answered; by rewrite Hf).
    destruct (IH (S saved)
                (set_memories (memories w ++ rows_of json_dumps uid sid (clock w) t [memory])
                   (after_request w)) fs) as (n & w' & H2 & Hc2 & Hf2 & Hk2 & Hm2).
    { cbn [faults set_memories after_request set_faults]. by rewrite Hf. }
    exists n, w'. split_and!; try done.
    + cbn [ExecutionSummary.save_memories].
      erewrite bind_ok; [|by apply save_memory_answered]. exact H2.
    + rewrite Hm2. cbn [memories set_memories clock after_request set_faults].
      unfold rows_of. rewrite fmap_cons. simpl. by rewrite <- app_assoc.
Qed.

Lemma save_all_answered uid sid result (w : world ExecutionSummary.memory_row) fs :
  faults w = replicate (memories_in result) false ++ fs →
  ∃ n w', ExecutionSummary.save_all json_dumps uid sid result w = (Ok n, w')
    ∧ chat_messages w' = chat_messages w
    ∧ faults w' = fs
    ∧ clock w' = clock w
    ∧ memories w' = memories w ++ all_rows_of json_dumps uid sid (clock w) result.
Proof.
  unfold ExecutionSummary.save_all, memories_in, all_rows_of.
  set (lp := ExecutionSummary.memories_of result MemoryArchitecture.Procedural).
  set (ls := ExecutionSummary.memories_of result MemoryArchitecture.Semantic).
  set (le := ExecutionSummary.memories_of result MemoryArchitecture.Episodic).
  rewrite !replicate_add, <- !app_assoc. intros Hf.
  destruct (save_memories_answered uid sid MemoryArchitecture.Procedural lp 0 w _ Hf)
    as (n1 & w1 & H1 & Hc1 & Hf1 & Hk1 & Hm1).
  destruct (save_memories_answered uid sid MemoryArchitecture.Semantic ls n1 w1 _ Hf1)
    as (n2 & w2 & H2 & Hc2 & Hf2 & Hk2 & Hm2).
  destruct (save_memories_answered uid sid MemoryArchitecture.Episodic le n2 w2 _ Hf2)
    as (n3 & w3 & H3 & Hc3 & Hf3 & Hk3 & Hm3).
  exists n3, w3. split_and!; try congruence.
  - erewrite bind_ok; [|exact H1]. erewrite bind_ok; [|exact H2]. exact H3.
  - rewrite Hm3, Hm2, Hm1, Hk2, Hk1. by rewrite <- !app_assoc.
Qed.

Lemma mark_messages_refused_at window (w : world ExecutionSummary.memory_row) :
  window ≠ [] → head (faults w) = Some true →
  ExecutionSummary.mark_messages (ExecutionSummary.to_message <$> window) w
  = (Ok (), after_request w).
Proof.
  intros Hne Hr. unfold ExecutionSummary.mark_messages. rewrite ids_of_to_message.
  destruct window as [|m0 win]; [done|]. rewrite fmap_cons.
  erewrite try_except_raise; [reflexivity|]. by apply update_chat_messages_refused.
Qed.

(** X23. In the summary's version a refused update is swallowed after the
    memories have been stored. When every insert of a run goes through and
    its update is refused, the run returns normally, its memories are in
    the table and its window is still unprocessed; a second run, in which
    nothing fails, selects the same window, stores the same memories a
    second time, and then marks the window. *)
Theorem summary_refused_update_stores_twice (self : ExecutionSummary.workflow)
    (uid sid : string) (w : world ExecutionSummary.memory_row) process out :
  ExecutionSummary.supabase self = true → sid ≠ "" →
  ExecutionSummary.memory_system self = Some process →
  primary_key (chat_messages w) →
  ExecutionSummary.unprocessed_query sid 15 (chat_messages w) ≠ [] →
  process (summary_input uid sid w) = Ok out →
  faults w = replicate (S (memories_in out)) false ++ [true] →
  let w1 := (run self sid uid w).2 in
  let w2 := (run self sid uid w1).2 in
  (run self sid uid w).1 = Ok ()
  ∧ chat_messages w1 = chat_messages w
  ∧ memories w1 = memories w ++ all_rows_of json_dumps uid sid (clock w) out
  ∧ chat_messages w2
    = marked_exactly None
        (ExecutionSummary.unprocessed_query sid 15 (chat_messages w)) (chat_messages w)
  ∧ memories w2
    = (memories w ++ all_rows_of json_dumps uid sid (clock w) out)
      ++ all_rows_of json_dumps uid sid (clock w) out.
Proof.
  intros Hs Hsid Hms Hpk Hwin Hex Hf. cbv zeta.
  assert (answered w) as Ha by (unfold answered; by rewrite Hf).
  destruct (save_all_answered uid sid out (after_request w) [true])
    as (n & wa & Hsave & Hca & Hfa & Hka & Hma).
  { cbn [faults after_request set_faults]. by rewrite Hf. }
  assert (run self sid uid w = (Ok (), after_request wa)) as Hrun1.
  { unfold ExecutionSummary.trigger_memory_extraction. rewrite Hms.
    apply try_except_ok.
    erewrite bind_ok; [|by apply fetch_last_n_messages_answered].
    pose proof (mark_messages_refused_at _ wa Hwin) as Hmark.
    unfold summary_input in Hex.
    destruct (ExecutionSummary.unprocessed_query sid 15 (chat_messages w))
      as [|m0 win] eqn:Ewin; [done|].
    rewrite fmap_cons. rewrite fmap_cons in Hex, Hmark.
    erewrite bind_ok; [|unfold lift; by rewrite Hex].
    erewrite bind_ok; [|exact Hsave].
    apply Hmark. by rewrite Hfa. }
  rewrite Hrun1. cbn [fst snd].
  set (w1 := after_request wa).
  assert (chat_messages w1 = chat_messages w) as Hc1 by done.
  assert (memories w1 = memories w ++ all_rows_of json_dumps uid sid (clock w) out)
    as Hm1 by done.
  assert (faults w1 = []) as Hf1 by (cbn [w1 faults after_request set_faults]; by rewrite Hfa).
  assert (clock w1 = clock w) as Hk1 by done.
  destruct (summary_run_marks json_dumps self uid sid w1 process out Hs Hsid Hms)
    as (w2 & -> & Hc2 & Hm2).
  - by apply answered_quiet.
  - rewrite Hf1. simpl. by rewrite drop_nil.
  - by rewrite Hc1.
  - by rewrite Hc1.
  - unfold summary_input. rewrite Hc1. exact Hex.
  - cbn [snd]. rewrite Hc2, (Hm2 Hf1), Hc1, Hm1, Hk1. done.
Qed.

End summary_window.

(** ** Reading back what a run has stored *)

Section read_back.

Import Supabase.

#[local] Instance stays_quiet_preorder : PreOrder stays_quiet.
Proof. split; unfold stays_quiet; [by intros fs|intros f1 f2 f3; auto]. Qed.

Lemma quiet_execute {R A} (q : world R → A * world R) :
  (∀ w, faults (q w).2 = faults w) → preserves faults stays_quiet (execute q).
Proof.
  intros Hq w Hw. unfold execute. rewrite Hw. specialize (Hq w).
  destruct (q w) as [a w']. simpl in *. by rewrite Hq.
Qed.

Ltac quiet := repeat (intros; first
  [ first [ apply preserves_ret | apply preserves_raise | apply preserves_lift
          | apply preserves_now
          | apply quiet_execute
          | apply preserves_bind | apply preserves_try_except
          | apply preserves_for_each ];
    try done; try apply _
  | match goal with
    | |- preserves _ _ (if ?b then _ else _) => destruct b
    | |- preserves _ _ (match ?x with _ => _ end) => destruct x
    end ]).

Lemma save_memories_quiet jd uid sid t todo : ∀ saved,
  preserves faults stays_quiet (ExecutionSummary.save_memories jd uid sid t todo saved).
Proof.
  induction todo as [|memory todo IH]; intros saved; simpl.
  - apply preserves_ret, _.
  - apply preserves_bind; [apply _| |intros b; apply IH].
    unfold ExecutionSummary.save_memory, insert_memory. quiet.
Qed.

(** When no request fails before a run, none fails after it. *)
Lemma runs_stay_quiet :
  (∀ self state (w : world CodeSnippets.memory_row),
     faults w = [] →
     faults (CodeSnippets.trigger_memory_extraction self state w).2 = [])
  ∧ (∀ jd self sid uid (w : world ExecutionSummary.memory_row),
       faults w = [] →
       faults (ExecutionSummary.trigger_memory_extraction jd self sid uid w).2 = []).
Proof.
  split.
  - intros self state.
    change (preserves faults stays_quiet (CodeSnippets.trigger_memory_extraction self state)).
    unfold CodeSnippets.trigger_memory_extraction, CodeSnippets.mark_message,
      select_chat_messages, select_user_activities, insert_memory, update_chat_messages.
    quiet.
  - intros jd self sid uid.
    change (preserves faults stays_quiet
              (ExecutionSummary.trigger_memory_extraction jd self sid uid)).
    unfold ExecutionSummary.trigger_memory_extraction,
      ExecutionSummary.fetch_last_n_messages, ExecutionSummary.save_all,
      ExecutionSummary.mark_messages,
      select_chat_messages, select_user_activities, insert_memory, update_chat_messages.
    quiet; apply save_memories_quiet.
Qed.

Lemma stored_rows_of jd uid sid now (t t' : MemoryArchitecture.memory_type) items :
  stored sid (ExecutionSummary.type_name t) (rows_of jd uid sid now t' items)
  = if decide (t = t') then rows_of jd uid sid now t' items else [].
Proof.
  unfold stored, rows_of. induction items as [|x items IH].
  { by destruct (decide _). }
  rewrite fmap_cons, filter_cons, IH. cbn [ExecutionSummary.session_id
    ExecutionSummary.memory_type].
  destruct (decide (t = t')) as [->|Hne].
  - by rewrite decide_True by done.
  - rewrite decide_False; [done|]. intros [_ Ht]. by destruct t, t'.
Qed.

Lemma stored_all_rows_of jd uid sid now (t : MemoryArchitecture.memory_type) out :
  stored sid (ExecutionSummary.type_name t) (all_rows_of jd uid sid now out)
  = rows_of jd uid sid now t (ExecutionSummary.memories_of out t).
Proof.
  unfold all_rows_of. unfold stored at 1. rewrite !filter_app.
  fold (stored sid (ExecutionSummary.type_name t)
          (rows_of jd uid sid now MemoryArchitecture.Procedural
             (ExecutionSummary.memories_of out MemoryArchitecture.Procedural))).
  fold (stored sid (ExecutionSummary.type_name t)
          (rows_of jd uid sid now MemoryArchitecture.Semantic
             (ExecutionSummary.memories_of out MemoryArchitecture.Semantic))).
  fold (stored sid (ExecutionSummary.type_name t)
          (rows_of jd uid sid now MemoryArchitecture.Episodic
             (ExecutionSummary.memories_of out MemoryArchitecture.Episodic))).
  rewrite !stored_rows_of. destruct t; simpl; by rewrite ?app_nil_r.
Qed.

(** X24. What a run has stored is what the next fetch_session_memories
    reads, when nothing fails. In the version of the snippets the fetch
    returns the three lists of the run's extraction and nothing else: the
    memories of earlier runs of the session, which sit in older rows, are
    not part of it. In the version of the summary each list of the fetch
    holds the rows the session already had under that type together with
    one row for each memory the run extracted under it. *)
Theorem stored_memories_are_fetched :
  (∀ (self : CodeSnippets.workflow) (uid sid : string) (count : Z)
     (w : world CodeSnippets.memory_row) extract out,
     CodeSnippets.supabase_credentials self = true →
     CodeSnippets.memory_system self = Some extract →
     faults w = [] →
     primary_key (chat_messages w) →
     CodeSnippets.unprocessed_query sid (chat_messages w) ≠ [] →
     extract (snippets_input uid sid w) = Ok out →
     (CodeSnippets.fetch_session_memories self uid sid
        (CodeSnippets.trigger_memory_extraction self
           (CodeSnippets.StateForMemory uid sid count) w).2).1
     = Ok (CodeSnippets.SessionMemories
             (MemoryArchitecture.procedural (MemoryArchitecture.memories out))
             (MemoryArchitecture.semantic (MemoryArchitecture.memories out))
             (MemoryArchitecture.episodic (MemoryArchitecture.memories out))))
  ∧ (∀ (json_dumps : MemoryArchitecture.memory_item → string)
       (self : ExecutionSummary.workflow) (uid sid : string)
       (w : world ExecutionSummary.memory_row) process out,
       ExecutionSummary.supabase self = true → sid ≠ "" →
       ExecutionSummary.memory_system self = Some process →
       faults w = [] →
       primary_key (chat_messages w) →
       ExecutionSummary.unprocessed_query sid 15 (chat_messages w) ≠ [] →
       process (summary_input uid sid w) = Ok out →
       ∃ mems,
         (ExecutionSummary.fetch_session_memories self sid
            (ExecutionSummary.trigger_memory_extraction json_dumps self sid uid w).2).1
         = Ok mems
         ∧ ExecutionSummary.procedural mems
           ≡ₚ stored sid "procedural" (memories w)
              ++ rows_of json_dumps uid sid (clock w) MemoryArchitecture.Procedural
                   (MemoryArchitecture.procedural (MemoryArchitecture.memories out))
         ∧ ExecutionSummary.semantic mems
           ≡ₚ stored sid "semantic" (memories w)
              ++ rows_of json_dumps uid sid (clock w) MemoryArchitecture.Semantic
                   (MemoryArchitecture.semantic (MemoryArchitecture.memories out))
         ∧ ExecutionSummary.episodic mems
           ≡ₚ stored sid "episodic" (memories w)
              ++ rows_of json_dumps uid sid (clock w) MemoryArchitecture.Episodic
                   (MemoryArchitecture.episodic (MemoryArchitecture.memories out))).
Proof.
  destruct runs_stay_quiet as [HquietA HquietB]. split.
  - intros self uid sid count w extract out Hcred Hms Hq Hpk Hwin Hex.
    pose proof (HquietA self (CodeSnippets.StateForMemory uid sid count) w Hq) as Hq'.
    destruct (snippets_run_ok self uid sid count w extract out Hcred Hms Hq Hpk Hwin Hex)
      as (w' & Hrun & Hm & _).
    rewrite Hrun in Hq' |- *. cbn [snd] in *.
    rewrite (snippets_fetch_session_memories_answered self uid sid w'
               (snippets_row uid sid w out)); [done|done|by apply answered_quiet|].
    rewrite Hm, filter_app, filter_cons_True by done. apply last_snoc.
  - intros jd self uid sid w process out Hs Hsid Hms Hq Hpk Hwin Hex.
    pose proof (HquietB jd self sid uid w Hq) as Hq'.
    destruct (summary_run_marks jd self uid sid w process out Hs Hsid Hms)
      as (w' & Hrun & _ & Hm); try done.
    { by apply answered_quiet. }
    { rewrite Hq. simpl. by rewrite drop_nil. }
    rewrite Hrun in Hq' |- *. cbn [snd] in *.
    destruct (fetch_session_memories_answered self sid w' Hs Hsid (answered_quiet _ Hq'))
      as (mems & Hfetch & Hp & Hse & He).
    exists mems. rewrite (Hm Hq) in Hp, Hse, He.
    unfold stored in Hp, Hse, He. rewrite filter_app in Hp, Hse, He.
    split_and!; [done| | |].
    + rewrite Hp. apply Permutation_app_head, reflexive_eq.
      apply (stored_all_rows_of jd uid sid (clock w) MemoryArchitecture.Procedural out).
    + rewrite Hse. apply Permutation_app_head, reflexive_eq.
      apply (stored_all_rows_of jd uid sid (clock w) MemoryArchitecture.Semantic out).
    + rewrite He. apply Permutation_app_head, reflexive_eq.
      apply (stored_all_rows_of jd uid sid (clock w) MemoryArchitecture.Episodic out).
Qed.

End read_back.

(** ** Failures that are answered with a default *)

Section defaults.

Import Supabase.

Lemma fetch_session_memories_off (self : ExecutionSummary.workflow) sid
    (w : world ExecutionSummary.memory_row) :
  ExecutionSummary.supabase self = false ∨ sid = "" ∨ head (faults w) = Some true →
  (ExecutionSummary.fetch_session_memories self sid w).1
  = Ok ExecutionSummary.no_memories.
Proof.
  intros H. unfold ExecutionSummary.fetch_session_memories.
  destruct (negb _ || _) eqn:Hoff; [done|].
  destruct H as [H|[H|H]].
  - by rewrite H in Hoff.
  - rewrite H in Hoff. by rewrite orb_true_r in Hoff.
  - erewrite try_except_raise; [reflexivity|].
    erewrite bind_raise; [reflexivity|]. unfold select_memories. by apply execute_refused.
Qed.

Lemma fetch_session_memories_total (self : ExecutionSummary.workflow) sid
    (w : world ExecutionSummary.memory_row) :
  ∃ mems, (ExecutionSummary.fetch_session_memories self sid w).1 = Ok mems.
Proof.
  destruct (answered_or_refused w) as [Ha|Hr].
  - unfold ExecutionSummary.fetch_session_memories.
    destruct (negb _ || _); [by eexists|].
    eexists. erewrite try_except_ok; [reflexivity|].
    erewrite bind_ok; [|by apply select_memories_answered]. reflexivity.
  - eexists. apply fetch_session_memories_off. auto.
Qed.

(** X25. The analyst's prompt is always built: fetching the memories never
    raises. Without a Supabase client, without a session id in the state,
    or when the request for the memories raises, the prompt simply has no
    SESSION MEMORIES section: it is the head, two line breaks and the rest
    of the prompt. *)
Theorem analyst_prompt_without_memories (rest_of_prompt : string)
    (self : ExecutionSummary.workflow) (state : ExecutionSummary.analyst_state)
    (w : world ExecutionSummary.memory_row) :
  (∃ prompt,
     (ExecutionSummary.psychological_analyst_prompt rest_of_prompt self state w).1
     = Ok prompt)
  ∧ (ExecutionSummary.supabase self = false
     ∨ ExecutionSummary.state_session_id state = ""
     ∨ head (faults w) = Some true →
     (ExecutionSummary.psychological_analyst_prompt rest_of_prompt self state w).1
     = Ok (prompt_head state +:+ ExecutionSummary.nl +:+ ExecutionSummary.nl
           +:+ rest_of_prompt)).
Proof.
  unfold ExecutionSummary.psychological_analyst_prompt. split.
  - case_bool_decide; [by eexists|].
    destruct (fetch_session_memories_total self (ExecutionSummary.state_session_id state) w)
      as [mems Hm].
    unfold bind.
    destruct (ExecutionSummary.fetch_session_memories _ _ w) as [[mems'|e] w'];
      [by eexists|done].
  - intros Hoff.
    assert (ExecutionSummary.combined_prompt rest_of_prompt state ExecutionSummary.no_memories
            = prompt_head state +:+ ExecutionSummary.nl +:+ ExecutionSummary.nl
              +:+ rest_of_prompt) as Hprompt
      by (by rewrite combined_prompt_split).
    case_bool_decide as Hsid; [unfold bind, ret; simpl; by rewrite Hprompt|].
    pose proof (fetch_session_memories_off self (ExecutionSummary.state_session_id state) w
                  Hoff) as Hf.
    unfold bind.
    destruct (ExecutionSummary.fetch_session_memories _ _ w) as [[mems'|e] w'];
      simpl in *; [|discriminate].
    injection Hf as ->. unfold ret. simpl. by rewrite Hprompt.
Qed.

(** X26. The trigger block never fails the chat request: in both versions
    it returns normally whatever the count request does. When the count
    cannot be read (no credentials or client, or the request raises) it is
    taken to be 0 and no extraction is started; the summary's block also
    starts none after a chat turn without result or without session id. *)
Theorem chat_trigger_never_raises :
  (∀ (self : CodeSnippets.workflow) (request : CodeSnippets.chat_request)
     (w : world CodeSnippets.memory_row),
     ∃ started,
       (CodeSnippets.chat_memory_trigger self request w).1 = Ok started
       ∧ (CodeSnippets.supabase_credentials self = false ∨ head (faults w) = Some true →
          started = None))
  ∧ (∀ (supabase_client result : bool) (request : ExecutionSummary.chat_request)
       (w : world ExecutionSummary.memory_row),
       ∃ started,
         (ExecutionSummary.chat_memory_trigger supabase_client result request w).1
         = Ok started
         ∧ (supabase_client = false ∨ result = false
            ∨ ExecutionSummary.request_session_id request = ""
            ∨ head (faults w) = Some true →
            started = None)).
Proof.
  split.
  - intros self request w.
    unfold CodeSnippets.chat_memory_trigger, CodeSnippets.get_session_message_count.
    unfold bind, try_except, select_chat_messages, ret.
    destruct (CodeSnippets.supabase_credentials self); simpl.
    + destruct (answered_or_refused w) as [Ha|Hr].
      * rewrite (execute_answered _ _ Ha). simpl.
        destruct (_ && _); eexists; (split; [reflexivity|]); intros [?|?]; congruence.
      * rewrite (execute_refused _ _ Hr). simpl. by eexists.
    + by eexists.
  - intros client result request w.
    unfold ExecutionSummary.chat_memory_trigger, ExecutionSummary.get_session_message_count.
    unfold bind, try_except, select_chat_messages, ret.
    destruct result; simpl; [|by eexists].
    case_bool_decide as Hsid; simpl; [by eexists|].
    destruct client; simpl; [|by eexists].
    destruct (answered_or_refused w) as [Ha|Hr].
    + rewrite (execute_answered _ _ Ha). simpl.
      destruct (_ && _); eexists; (split; [reflexivity|]);
        intros [?|[?|[?|?]]]; congruence.
    + rewrite (execute_refused _ _ Hr). simpl. by eexists.
Qed.

End defaults.

(** ** The properties above on sample data *)

Section node_samples.

Import NodeBackend NodeSamples.

Lemma chat_reply_keeps_messages_witness :
  ∃ ms' t k,
    chat (Some "k1") (Some "k2") template generate synthesizeJson writeResultToFile
      voicesCreate lipSync_fails_at_1 audioFileToBase64 readJsonTranscript req_body
    = (Response 200 (MessagesBody ms'),
       GeminiGenerateContent
         (prompt_of template (default JUndefined (req_body !! "message"))) :: t)
    ∧ spoken <$> ms' = spoken <$> [hello; bye]
    ∧ k ≤ length [hello; bye]
    ∧ Forall voiced (take k ms')
    ∧ drop (S k) ms' = drop (S k) [hello; bye].
Proof.
  apply (chat_reply_keeps_messages (Some "k1") (Some "k2") template generate synthesizeJson
           writeResultToFile voicesCreate lipSync_fails_at_1 audioFileToBase64
           readJsonTranscript req_body [hello; bye]).
  - reflexivity.
  - reflexivity.
Defined.

(** The reply of that request: the first message is voiced, the second
    is as Gemini gave it, and the status is 200. *)
Example chat_reply_after_failed_lip_sync :
  (chat (Some "k1") (Some "k2") template generate synthesizeJson writeResultToFile
     voicesCreate lipSync_fails_at_1 audioFileToBase64 readJsonTranscript req_body).1
  = Response 200
      (MessagesBody
         [Message "Hello" "smile" "Talking_0" (Some "UklGRg==") (Some "{mouthCues}"); bye]).
Proof. vm_compute. reflexivity. Qed.

Lemma chat_reply_all_voiced_witness :
  ∃ ms',
    (chat (Some "k1") (Some "k2") template generate synthesizeJson writeResultToFile
       voicesCreate lipSyncMessage audioFileToBase64 readJsonTranscript req_body).1
    = Response 200 (MessagesBody ms')
    ∧ length (chat (Some "k1") (Some "k2") template generate synthesizeJson
                writeResultToFile voicesCreate lipSyncMessage audioFileToBase64
                readJsonTranscript req_body).2
      = 1 + 6 * length [hello; bye]
    ∧ ∀ j m, [hello; bye] !! j = Some m →
        ∃ a l, audioFileToBase64 ("audios/message_" +:+ pretty j) = Ok a
          ∧ readJsonTranscript ("audios/message_" +:+ pretty j +:+ ".json") = Ok l
          ∧ ms' !! j
            = Some (Message (text m) (facialExpression m) (animation m) (Some a) (Some l)).
Proof.
  apply (chat_reply_all_voiced (Some "k1") (Some "k2") template generate synthesizeJson
           writeResultToFile voicesCreate lipSyncMessage audioFileToBase64
           readJsonTranscript req_body [hello; bye]).
  - reflexivity.
  - reflexivity.
  - intros x. eexists. reflexivity.
  - reflexivity.
  - reflexivity.
  - reflexivity.
  - intros f. eexists. reflexivity.
  - intros f. eexists. reflexivity.
Defined.

Lemma transcribe_and_chat_all_or_nothing_witness :
  ∃ path audioData stt userMessage ms ms',
    Some "uploads/a1" = Some path
    ∧ readFile path = Ok audioData
    ∧ speechToText audioData = Ok stt
    ∧ NodeTranscribe.ok stt = true
    ∧ NodeTranscribe.json_text stt = Ok userMessage
    ∧ env_truthy (Some "k2") = true
    ∧ generate (prompt_of template userMessage) = Ok ms
    ∧ json (NodeTranscribe.transcribe_and_chat (Some "k2") "null" template readFile
              speechToText generate textToSpeech lipSyncMessage audioFileToBase64
              readJsonTranscript (Some "uploads/a1")).1
      = MessagesBody ms'
    ∧ spoken <$> ms' = spoken <$> ms
    ∧ Forall voiced ms'
    ∧ length (NodeTranscribe.transcribe_and_chat (Some "k2") "null" template readFile
                speechToText generate textToSpeech lipSyncMessage audioFileToBase64
                readJsonTranscript (Some "uploads/a1")).2
      = 4 + 4 * length ms.
Proof.
  apply (transcribe_and_chat_all_or_nothing (Some "k2") "null" template readFile
           speechToText generate textToSpeech lipSyncMessage audioFileToBase64
           readJsonTranscript (Some "uploads/a1")).
  reflexivity.
Defined.

Lemma transcribe_and_chat_first_error_witness :
  (NodeTranscribe.transcribe_and_chat (Some "k2") "null" template readFile speechToText
     generate textToSpeech lipSync_fails_at_1 audioFileToBase64 readJsonTranscript
     (Some "uploads/a1")).1
  = Response 500 (ErrorBody "rhubarb exited with code 1" None).
Proof.
  apply (transcribe_and_chat_first_error (Some "k2") "null" template readFile
           speechToText generate textToSpeech lipSync_fails_at_1 audioFileToBase64
           readJsonTranscript "uploads/a1" "mp3 bytes"
           (NodeTranscribe.SttResponse true (Ok (JString "hi"))) (JString "hi")
           [hello; bye] 1 bye (Exception "rhubarb exited with code 1")).
  - reflexivity.
  - reflexivity.
  - reflexivity.
  - reflexivity.
  - reflexivity.
  - reflexivity.
  - reflexivity.
  - intros j m' Hj Hm'. destruct j as [|j]; [|lia]. injection Hm' as <-.
    unfold speaks. split_and!; [reflexivity|reflexivity|by eexists|by eexists].
  - unfold throws. right. split; [reflexivity|]. left. reflexivity.
Defined.

(** The file that is read back for message 0 is not the one lip-sync
    wrote. *)
Lemma audio_read_back_witness :
  NodeTranscribe.filepath "/srv/app" (NodeTranscribe.fileName 0)
  ≠ NodeTranscribe.finalFile "/srv/app" 0.
Proof.
  apply (proj2 (audio_read_back (Some "k1") (Some "k2") "null" template generate
                  synthesizeJson writeResultToFile voicesCreate textToSpeech
                  lipSyncMessage audioFileToBase64 readJsonTranscript readFile
                  speechToText "/srv/app")
           (Some "uploads/a1") (NodeTranscribe.fileName 0) 0).
  vm_compute. do 6 right. left.
Defined.

Lemma speech_file_is_not_converted_witness :
  "/srv/app" +:+ "/" +:+ NodeTranscribe.fileName 0
  ≠ NodeTranscribe.originalFile "/srv/app" 0.
Proof.
  apply (speech_file_is_not_converted (Some "k2") "null" template generate textToSpeech
           lipSyncMessage audioFileToBase64 readJsonTranscript readFile speechToText
           "/srv/app" (Some "uploads/a1") (NodeTranscribe.fileName 0) "Hello" 0).
  vm_compute. do 4 right. left.
Defined.

End node_samples.

Section run_samples.

Import Samples RunSamples.

Lemma llm_returns_parsed_answer_witness :
  [item "m"] = []
  ∨ ∃ j, (Z.of_nat j < MA.default_max_retries)%Z
      ∧ parsed_of flaky_model id (λ _, None) id loads_list "p" j
        = Some (MA.ParsedList [item "m"]).
Proof.
  apply (llm_returns_parsed_answer flaky_model id (λ _, None) id loads_list "p"
           MA.default_max_retries [item "m"]).
  reflexivity.
Defined.

(** With five attempts the flaky model is asked three times. *)
Lemma llm_backoff_any_budget_witness :
  MA._get_llm_response flaky_model id (λ _, None) id loads_list "p" (Z.of_nat 5)
  = (Ok [item "m"], backoff 2).
Proof.
  apply (proj1 (llm_backoff_any_budget flaky_model id (λ _, None) id loads_list "p" 5)
           2 [item "m"]).
  - lia.
  - intros j Hj items'. destruct j as [|[|j]]; [discriminate | discriminate | lia].
  - reflexivity.
Defined.

(** A dead model with a budget of five is called five times, and the
    sleeps add up to 15 seconds. *)
Example dead_model_budget_of_five :
  let run := MA._get_llm_response dead_model id (λ _, None) id loads_list "p" 5 in
  calls run.2 = 5 ∧ slept run.2 = 15%Z.
Proof. vm_compute. split; reflexivity. Qed.

Lemma two_sessions_primary_key {R} fs :
  primary_key (S.chat_messages (S.World (R:=R) two_sessions [] [] fs 0%Z)).
Proof.
  unfold primary_key. cbn [S.chat_messages]. unfold two_sessions.
  rewrite fmap_app. apply NoDup_app. split_and!.
  - apply (sample_primary_key (R:=R) 3).
  - intros x Hx Hother. apply list_elem_of_singleton in Hother as ->.
    vm_compute in Hx. repeat (apply elem_of_cons in Hx as [Hx|Hx]; [discriminate|]).
    by apply elem_of_nil in Hx.
  - apply NoDup_singleton.
Qed.

Lemma snippets_marks_prefix_of_window_witness :
  ∃ k, k ≤ length (CodeSnippets.unprocessed_query "s1" two_sessions)
    ∧ S.chat_messages
        (CodeSnippets.trigger_memory_extraction snippets_self
           (CodeSnippets.StateForMemory "u1" "s1" 20)
           (S.World two_sessions [] [] fifth_request_refused 0%Z)).2
      = marked_exactly (Some 0%Z)
          (take k (CodeSnippets.unprocessed_query "s1" two_sessions)) two_sessions
    ∧ (0 < k →
       ∃ row, S.memories
                (CodeSnippets.trigger_memory_extraction snippets_self
                   (CodeSnippets.StateForMemory "u1" "s1" 20)
                   (S.World two_sessions [] [] fifth_request_refused 0%Z)).2
              = [] ++ [row])
    ∧ ((CodeSnippets.trigger_memory_extraction snippets_self
          (CodeSnippets.StateForMemory "u1" "s1" 20)
          (S.World two_sessions [] [] fifth_request_refused 0%Z)).1 = Ok () →
       k = 0 ∨ k = length (CodeSnippets.unprocessed_query "s1" two_sessions))
    ∧ (0 < k < length (CodeSnippets.unprocessed_query "s1" two_sessions) →
       ∃ e, (CodeSnippets.trigger_memory_extraction snippets_self
               (CodeSnippets.StateForMemory "u1" "s1" 20)
               (S.World two_sessions [] [] fifth_request_refused 0%Z)).1 = Raise e).
Proof.
  apply (snippets_marks_prefix_of_window snippets_self "u1" "s1" 20%Z
           (S.World two_sessions [] [] fifth_request_refused 0%Z)).
  apply two_sessions_primary_key.
Defined.

(** In that run the first of the three messages is marked, the run has
    raised, and the memories row names all three as its sources. *)
Example snippets_second_update_refused :
  let r := CodeSnippets.trigger_memory_extraction snippets_self
             (CodeSnippets.StateForMemory "u1" "s1" 20)
             (S.World two_sessions [] [] fifth_request_refused 0%Z) in
  r.1 = Raise (Exception "request failed")
  ∧ S.processed_into_memory <$> S.chat_messages r.2 = [true; false; false; false]
  ∧ CodeSnippets.source_message_ids <$> S.memories r.2 = [[1; 2; 3]%Z].
Proof. vm_compute. repeat split; reflexivity. Qed.

Lemma runs_leave_other_sessions_witness :
  other_sessions "s1"
    (S.chat_messages
       (CodeSnippets.trigger_memory_extraction snippets_self
          (CodeSnippets.StateForMemory "u1" "s1" 20)
          (S.World two_sessions [] [] [] 0%Z)).2)
  = other_sessions "s1" two_sessions.
Proof.
  apply (proj1 runs_leave_other_sessions snippets_self "u1" "s1" 20%Z
           (S.World two_sessions [] [] [] 0%Z)).
  apply two_sessions_primary_key.
Defined.

(** Twenty messages, one run of the summary: five are left behind. *)
Lemma successful_run_shrinks_backlog_witness :
  length (unprocessed "s1"
            (S.chat_messages
               (ExecutionSummary.trigger_memory_extraction dumps summary_self "s1" "u1"
                  (world_of (session 20))).2))
  = length (unprocessed "s1" (S.chat_messages (world_of (R:=ExecutionSummary.memory_row)
                                                  (session 20)))) - 15.
Proof.
  apply (proj2 successful_run_shrinks_backlog dumps summary_self "u1" "s1"
           (world_of (session 20)) fixed_system three_memories).
  - reflexivity.
  - discriminate.
  - reflexivity.
  - reflexivity.
  - apply sample_primary_key.
  - vm_compute. discriminate.
  - reflexivity.
Defined.

Example summary_leaves_five_of_twenty :
  length (unprocessed "s1"
            (S.chat_messages
               (ExecutionSummary.trigger_memory_extraction dumps summary_self "s1" "u1"
                  (world_of (session 20))).2)) = 5.
Proof. vm_compute. reflexivity. Qed.

Lemma summary_marks_all_or_nothing_witness :
  (ExecutionSummary.trigger_memory_extraction dumps summary_self "s1" "u1"
     (S.World two_sessions [] [] fifth_request_refused 0%Z)).1 = Ok ()
  ∧ (S.chat_messages
       (ExecutionSummary.trigger_memory_extraction dumps summary_self "s1" "u1"
          (S.World two_sessions [] [] fifth_request_refused 0%Z)).2
     = two_sessions
     ∨ S.chat_messages
         (ExecutionSummary.trigger_memory_extraction dumps summary_self "s1" "u1"
            (S.World two_sessions [] [] fifth_request_refused 0%Z)).2
       = marked_exactly None
           (ExecutionSummary.unprocessed_query "s1" 15 two_sessions) two_sessions).
Proof.
  apply (summary_marks_all_or_nothing dumps summary_self "s1" "u1"
           (S.World two_sessions [] [] fifth_request_refused 0%Z)).
  apply two_sessions_primary_key.
Defined.

(** A memory system that raises: the run returns and changes nothing. *)
Lemma summary_run_stops_early_witness :
  (ExecutionSummary.trigger_memory_extraction dumps
     (ExecutionSummary.Workflow true (Some (λ _, Raise (ValueError "Failed to get LLM response"))))
     "s1" "u1" (world_of (session 3))).1 = Ok ()
  ∧ S.memories
      (ExecutionSummary.trigger_memory_extraction dumps
         (ExecutionSummary.Workflow true
            (Some (λ _, Raise (ValueError "Failed to get LLM response"))))
         "s1" "u1" (world_of (session 3))).2 = []
  ∧ S.chat_messages
      (ExecutionSummary.trigger_memory_extraction dumps
         (ExecutionSummary.Workflow true
            (Some (λ _, Raise (ValueError "Failed to get LLM response"))))
         "s1" "u1" (world_of (session 3))).2 = session 3.
Proof.
  apply (summary_run_stops_early dumps
           (ExecutionSummary.Workflow true
              (Some (λ _, Raise (ValueError "Failed to get LLM response"))))
           "s1" "u1" (world_of (session 3))).
  do 5 right. eexists _, _. split; reflexivity.
Defined.

Lemma summary_refused_update_stores_twice_witness :
  let run := ExecutionSummary.trigger_memory_extraction dumps summary_self "s1" "u1" in
  let w := S.World two_sessions [] [] fifth_request_refused 0%Z in
  (run w).1 = Ok ()
  ∧ S.chat_messages (run w).2 = two_sessions
  ∧ S.memories (run w).2 = [] ++ all_rows_of dumps "u1" "s1" 0%Z three_memories
  ∧ S.chat_messages (run (run w).2).2
    = marked_exactly None (ExecutionSummary.unprocessed_query "s1" 15 two_sessions)
        two_sessions
  ∧ S.memories (run (run w).2).2
    = ([] ++ all_rows_of dumps "u1" "s1" 0%Z three_memories)
      ++ all_rows_of dumps "u1" "s1" 0%Z three_memories.
Proof.
  apply (summary_refused_update_stores_twice dumps summary_self "u1" "s1"
           (S.World two_sessions [] [] fifth_request_refused 0%Z)
           fixed_system three_memories).
  - reflexivity.
  - discriminate.
  - reflexivity.
  - apply two_sessions_primary_key.
  - vm_compute. discriminate.
  - reflexivity.
  - reflexivity.
Defined.

(** The table after the two runs: six rows for three memories. *)
Example summary_two_runs_six_rows :
  let run := ExecutionSummary.trigger_memory_extraction dumps summary_self "s1" "u1" in
  let w := S.World two_sessions [] [] fifth_request_refused 0%Z in
  ExecutionSummary.content <$> S.memories (run (run w).2).2
  = ["breathing exercise"; "likes music"; "studies physics";
     "breathing exercise"; "likes music"; "studies physics"].
Proof. vm_compute. reflexivity. Qed.

(** Of twenty messages the summary's fetch returns the first fifteen. *)
Lemma windows_hold_the_oldest_witness :
  ∃ window,
    (ExecutionSummary.fetch_last_n_messages summary_self "s1" 15
       (world_of (session 20))).1
    = Ok (ExecutionSummary.to_message <$> window)
    ∧ oldest_of 15 window
        (unprocessed "s1"
           (S.chat_messages (world_of (R:=ExecutionSummary.memory_row) (session 20)))).
Proof.
  apply (proj1 (proj2 windows_hold_the_oldest) summary_self "s1" 15
           (world_of (session 20))).
  - reflexivity.
  - discriminate.
  - unfold answered. discriminate.
Defined.

Lemma stored_memories_are_fetched_witness :
  (CodeSnippets.fetch_session_memories snippets_self "u1" "s1"
     (CodeSnippets.trigger_memory_extraction snippets_self
        (CodeSnippets.StateForMemory "u1" "s1" 20) (world_of (session 3))).2).1
  = Ok (CodeSnippets.SessionMemories
          (MA.procedural (MA.memories three_memories))
          (MA.semantic (MA.memories three_memories))
          (MA.episodic (MA.memories three_memories))).
Proof.
  apply (proj1 stored_memories_are_fetched snippets_self "u1" "s1" 20%Z
           (world_of (session 3)) fixed_system three_memories).
  - reflexivity.
  - reflexivity.
  - reflexivity.
  - apply sample_primary_key.
  - vm_compute. discriminate.
  - reflexivity.
Defined.

End run_samples.
